(** * JSON-to-relational staging engine: shallow embedding and properties

    The development follows the TypeScript sources:
    - [src/lib/SchemaInferenceEngine.ts]  (identifier sanitisers, type
      resolver, entity typing, junction schemas, field extraction,
      entity discovery),
    - [src/lib/DataInsertionEngine.ts]    (entity typing, identity memo,
      junction rows, row composition, fallback insertion),
    - [src/lib/ChunkingEngine.ts]         (chunk store, smart
      serialisation, chunking rules),
    - [src/lib/SchemaParser.ts]           (extraction rules),
    - [src/do.ts]                         (SQL gate, identifier fixer,
      chunk reconstitution, table creation, enhanced query).

    JavaScript strings are modelled by [string]; a character stands for one
    code unit in the range 0..255.  Code units above 255 are outside that
    model; the modules [Unicode] and [ChunkingEngineUtf16] take a string
    as the list of its UTF-16 code units and follow the chunk store on
    every text.  JavaScript numbers that matter here (lengths, indices,
    counts) are integers and are modelled by [Z]. *)

From stdpp Require Import gmap strings list pretty.
From Stdlib Require Import Ascii QArith ZArith Lia.
From Stdlib Require Strings.Byte.

Set Warnings "-register-all".

Local Open Scope Z_scope.
Local Open Scope string_scope.

(** ** JavaScript values *)

Module Js.

(** IEEE doubles are only inspected through [Number.isInteger] and
    truthiness, so a number is a rational, NaN or an infinity. *)
Inductive JsNumber : Type :=
| NFin (q : Q)
| NNaN
| NInf (negative : bool).

Inductive JsValue : Type :=
| JNull
| JUndefined
| JBool (b : bool)
| JNum (n : JsNumber)
| JStr (s : string)
| JArr (items : list JsValue)
| JObj (fields : list (string * JsValue))
| JFun (name : string).

(** Outcome of a computation that may throw. *)
Inductive Result (A : Type) : Type :=
| Ok (a : A)
| Throw (message : string).
Arguments Ok {A} a.
Arguments Throw {A} message.

Definition Number_isInteger (n : JsNumber) : bool :=
  match n with
  | NFin q => Z.eqb (Z.modulo (Qnum q) (Z.pos (Qden q))) 0
  | NNaN => false
  | NInf _ => false
  end.

(** [ToBoolean]. *)
Definition truthy (v : JsValue) : bool :=
  match v with
  | JNull | JUndefined => false
  | JBool b => b
  | JNum (NFin q) => negb (Z.eqb (Qnum q) 0)
  | JNum NNaN => false
  | JNum (NInf _) => true
  | JStr s => negb (String.eqb s EmptyString)
  | JArr _ | JObj _ | JFun _ => true
  end.

Definition is_undefined (v : JsValue) : bool :=
  match v with JUndefined => true | _ => false end.

Definition Array_isArray (v : JsValue) : bool :=
  match v with JArr _ => true | _ => false end.

(** [typeof v === 'object'] (true for [null], arrays and objects). *)
Definition typeof_object (v : JsValue) : bool :=
  match v with JNull | JArr _ | JObj _ => true | _ => false end.

Fixpoint assoc (k : string) (fields : list (string * JsValue)) : option JsValue :=
  match fields with
  | [] => None
  | (k', v) :: rest => if String.eqb k k' then Some v else assoc k rest
  end.

(** Property read [obj.k] on a payload value (own properties only; none
    of the keys read by the engine is inherited from [Object.prototype]). *)
Definition get (v : JsValue) (k : string) : JsValue :=
  match v with
  | JObj fields => default JUndefined (assoc k fields)
  | _ => JUndefined
  end.

(** [Object.keys(v)] for payload values. *)
Definition Object_keys (v : JsValue) : list string :=
  match v with
  | JObj fields => fst <$> fields
  | JArr items => imap (fun i _ => pretty i) items
  | _ => []
  end.

End Js.

(** ** String primitives *)

Module JsString.

Definition code (c : ascii) : N := N_of_ascii c.

Definition in_range (lo hi : N) (c : ascii) : bool :=
  (N.leb lo (code c) && N.leb (code c) hi)%bool.

Definition is_upper (c : ascii) : bool := in_range 65 90 c.
Definition is_lower (c : ascii) : bool := in_range 97 122 c.
Definition is_digit (c : ascii) : bool := in_range 48 57 c.
Definition is_underscore (c : ascii) : bool := N.eqb (code c) 95.

(** The class [[a-zA-Z0-9_]], which is also [\w]. *)
Definition is_word (c : ascii) : bool :=
  (is_lower c || is_upper c || is_digit c || is_underscore c)%bool.

(** The class [\s] restricted to code units below 256. *)
Definition is_space (c : ascii) : bool :=
  (in_range 9 13 c || N.eqb (code c) 32 || N.eqb (code c) 160)%bool.

(** [toLowerCase] on one code unit: A-Z and the Latin-1 capitals
    U+00C0..U+00DE (except the multiplication sign U+00D7). *)
Definition lower_char (c : ascii) : ascii :=
  if (is_upper c || (in_range 192 222 c && negb (N.eqb (code c) 215)))%bool
  then ascii_of_N (code c + 32)
  else c.

Fixpoint map_chars (f : ascii -> ascii) (s : string) : string :=
  match s with
  | EmptyString => EmptyString
  | String c s' => String (f c) (map_chars f s')
  end.

Definition toLowerCase (s : string) : string := map_chars lower_char s.

Definition len (s : string) : Z := Z.of_nat (String.length s).

Fixpoint startsWith (s p : string) : bool :=
  match p, s with
  | EmptyString, _ => true
  | String c p', String d s' => (Ascii.eqb c d && startsWith s' p')%bool
  | String _ _, EmptyString => false
  end.

Fixpoint includes (s p : string) : bool :=
  (startsWith s p ||
   match s with
   | EmptyString => false
   | String _ s' => includes s' p
   end)%bool.

Definition endsWith (s p : string) : bool :=
  (Nat.leb (String.length p) (String.length s) &&
   String.eqb (String.substring (String.length s - String.length p)
                                (String.length p) s) p)%bool.

(** [s.slice(0, -n)]. *)
Definition drop_last (n : nat) (s : string) : string :=
  String.substring 0 (String.length s - n) s.

(** [s.slice(i, j)] for [0 <= i <= j]. *)
Definition slice (i j : nat) (s : string) : string :=
  String.substring i (j - i) s.

Fixpoint trim_start (s : string) : string :=
  match s with
  | String c s' => if is_space c then trim_start s' else s
  | EmptyString => EmptyString
  end.

Fixpoint trim_end (s : string) : string :=
  match s with
  | EmptyString => EmptyString
  | String c s' =>
      match trim_end s' with
      | EmptyString => if is_space c then EmptyString else String c EmptyString
      | t => String c t
      end
  end.

Definition trim (s : string) : string := trim_end (trim_start s).

(** [list.includes(x)] on an array of strings. *)
Definition list_includes (l : list string) (x : string) : bool :=
  existsb (String.eqb x) l.

(** [s.split(sep)] for a one-character separator. *)
Fixpoint split_on (sep : ascii) (s : string) : list string :=
  match s with
  | EmptyString => [EmptyString]
  | String c s' =>
      if Ascii.eqb c sep then EmptyString :: split_on sep s'
      else match split_on sep s' with
           | [] => [String c EmptyString]
           | w :: ws => String c w :: ws
           end
  end.

(** [parts.join(sep)]. *)
Definition join (sep : string) (parts : list string) : string :=
  String.concat sep parts.

(** [s.replace(p, r)] for a string pattern: the first occurrence only. *)
Fixpoint replace_first (p r s : string) : string :=
  if startsWith s p then r +:+ String.substring (String.length p) (String.length s) s
  else match s with
       | EmptyString => EmptyString
       | String c s' => String c (replace_first p r s')
       end.

(** [.replace(/[^a-zA-Z0-9_]/g, '_')] *)
Definition replace_non_word (s : string) : string :=
  map_chars (fun c => if is_word c then c else "_"%char) s.

(** [.replace(/_{2,}/g, '_')] *)
Fixpoint collapse_underscores (s : string) : string :=
  match s with
  | EmptyString => EmptyString
  | String c s' =>
      if is_underscore c then
        match s' with
        | String c' _ =>
            if is_underscore c' then collapse_underscores s'
            else String c (collapse_underscores s')
        | EmptyString => String c EmptyString
        end
      else String c (collapse_underscores s')
  end.

Definition strip_leading_underscore (s : string) : string :=
  match s with
  | String c s' => if is_underscore c then s' else s
  | EmptyString => EmptyString
  end.

Fixpoint strip_trailing_underscore (s : string) : string :=
  match s with
  | EmptyString => EmptyString
  | String c EmptyString => if is_underscore c then EmptyString else s
  | String c s' => String c (strip_trailing_underscore s')
  end.

(** [.replace(/^_|_$/g, '')]: the global flag lets the pattern match once
    at the start and once at the end. *)
Definition strip_edge_underscores (s : string) : string :=
  strip_trailing_underscore (strip_leading_underscore s).

(** [.replace(/([A-Z])/g, '_$1')] *)
Fixpoint underscore_before_upper (s : string) : string :=
  match s with
  | EmptyString => EmptyString
  | String c s' =>
      if is_upper c then String "_"%char (String c (underscore_before_upper s'))
      else String c (underscore_before_upper s')
  end.

(** [/^[0-9]/.test(s)] *)
Definition starts_with_digit (s : string) : bool :=
  match s with
  | String c _ => is_digit c
  | EmptyString => false
  end.

Definition is_empty (s : string) : bool :=
  match s with EmptyString => true | _ => false end.

(** [s.slice(n)] *)
Fixpoint string_drop (n : nat) (s : string) : string :=
  match n, s with
  | O, _ => s
  | S n', String _ s' => string_drop n' s'
  | S _, EmptyString => EmptyString
  end.

End JsString.

(** ** Identifier normalisers *)

Module Identifier.
Import Js JsString.

(** [SchemaInferenceEngine.sanitizeTableName] (the copy in
    [DataInsertionEngine] is textually the same).  [rnd] is the value of
    [Math.random().toString(36).substr(2, 9)] drawn by this call. *)
Definition table_core (name : string) : string :=
  toLowerCase (strip_edge_underscores (collapse_underscores (replace_non_word name))).

Definition table_reservedWords : list string :=
  ["table"; "index"; "view"; "column"; "primary"; "key"; "foreign"; "constraint"].

Definition sanitizeTableName (rnd : string) (name : JsValue) : string :=
  match name with
  | JStr name =>
      if is_empty name then "table_" +:+ rnd
      else
        let sanitized := table_core name in
        let sanitized :=
          if starts_with_digit sanitized then "table_" +:+ sanitized else sanitized in
        let sanitized :=
          if is_empty sanitized then "table_" +:+ rnd else sanitized in
        if list_includes table_reservedWords sanitized
        then sanitized +:+ "_table"
        else sanitized
  | _ => "table_" +:+ rnd
  end.

(** [sanitizeColumnName] (same text in both engines). *)
Definition column_core (name : string) : string :=
  strip_edge_underscores
    (collapse_underscores
       (replace_non_word (toLowerCase (underscore_before_upper name)))).

Definition openTargetsTerms : list (string * string) :=
  [("ensemblid", "ensembl_id"); ("efoid", "efo_id"); ("chemblid", "chembl_id");
   ("approvedsymbol", "approved_symbol"); ("approvedname", "approved_name");
   ("geneticconstraint", "genetic_constraint");
   ("mechanismsofaction", "mechanisms_of_action");
   ("therapeuticareas", "therapeutic_areas");
   ("pharmacovigilance", "pharmacovigilance")].

Fixpoint own_term (k : string) (terms : list (string * string)) : option string :=
  match terms with
  | [] => None
  | (k', v) :: rest => if String.eqb k k' then Some v else own_term k rest
  end.

(** [openTargetsTerms[k]]: the table is an object literal, so a key that
    is not an own property is looked up on [Object.prototype].  A key
    produced by [column_core] is lower case without edge underscores;
    the only inherited property of that shape is [constructor], whose
    value is the function [Object]. *)
Definition openTargetsTerms_get (k : string) : JsValue :=
  match own_term k openTargetsTerms with
  | Some v => JStr v
  | None => if String.eqb k "constructor" then JFun "Object" else JUndefined
  end.

Definition column_reservedWords : list string :=
  ["table"; "index"; "view"; "column"; "primary"; "key"; "foreign"; "constraint";
   "order"; "group"; "select"; "from"; "where"].

Definition sanitizeColumnName (rnd : string) (name : JsValue) : JsValue :=
  match name with
  | JStr name =>
      if is_empty name then JStr ("column_" +:+ rnd)
      else
        let snakeCase := column_core name in
        let snakeCase :=
          if starts_with_digit snakeCase then "col_" +:+ snakeCase else snakeCase in
        let snakeCase :=
          if is_empty snakeCase then "column_" +:+ rnd else snakeCase in
        let result :=
          let t := openTargetsTerms_get snakeCase in
          if truthy t then t else JStr snakeCase in
        match result with
        | JStr r =>
            if list_includes column_reservedWords r then JStr (r +:+ "_col") else result
        | _ => result
        end
  | _ => JStr ("column_" +:+ rnd)
  end.

(** [JsonToSqlDO.validateAndFixIdentifier] in [do.ts]. *)
Inductive IdentifierKind : Type := KTable | KColumn.

Definition fix_reservedWords : list string :=
  ["table"; "index"; "view"; "column"; "primary"; "key"; "foreign"; "constraint";
   "order"; "group"; "select"; "from"; "where"; "insert"; "update"; "delete";
   "create"; "drop"; "alter"; "join"; "inner"; "outer"; "left"; "right";
   "union"; "all"; "distinct"; "having"; "limit"; "offset"; "as"; "on"].

Definition fallback_name (type : IdentifierKind) : string :=
  match type with KTable => "fallback_table" | KColumn => "fallback_column" end.

Definition validateAndFixIdentifier (name : string) (type : IdentifierKind) : string :=
  if is_empty name then fallback_name type
  else
    let fixed := strip_edge_underscores (collapse_underscores (replace_non_word name)) in
    let fixed :=
      if starts_with_digit fixed
      then (match type with KTable => "table_" | KColumn => "col_" end) +:+ fixed
      else fixed in
    let fixed := if is_empty fixed then fallback_name type else fixed in
    let fixed :=
      if list_includes fix_reservedWords (toLowerCase fixed)
      then fixed +:+ (match type with KTable => "_tbl" | KColumn => "_col" end)
      else fixed in
    toLowerCase fixed.

End Identifier.

(** ** Schema inference engine ([SchemaInferenceEngine.ts]) *)

Module SchemaInferenceEngine.
Import Js JsString Identifier.

(** *** Type resolver *)

Definition getSQLiteType (value : JsValue) : string :=
  match value with
  | JNull | JUndefined => "TEXT"
  | JNum n => if Number_isInteger n then "INTEGER" else "REAL"
  | JBool _ => "INTEGER"
  | JStr _ => "TEXT"
  | _ => "TEXT"
  end.

(** A [Set<string>] in insertion order. *)
Definition set_has (types : list string) (t : string) : bool :=
  list_includes types t.

Definition set_add (types : list string) (t : string) : list string :=
  if set_has types t then types else types ++ [t].

(** A [Record<string, X>] in insertion order: writing an existing key
    keeps its position. *)
Fixpoint record_get {X : Type} (r : list (string * X)) (k : string) : option X :=
  match r with
  | [] => None
  | (k', x) :: rest => if String.eqb k k' then Some x else record_get rest k
  end.

Fixpoint record_set {X : Type} (r : list (string * X)) (k : string) (x : X)
  : list (string * X) :=
  match r with
  | [] => [(k, x)]
  | (k', x') :: rest =>
      if String.eqb k k' then (k', x) :: rest else (k', x') :: record_set rest k x
  end.

Definition addColumnType (columnTypes : list (string * list string))
           (column type : string) : list (string * list string) :=
  let types := default [] (record_get columnTypes column) in
  record_set columnTypes column (set_add types type).

(** The body of the loop of [resolveColumnTypes] for one column. *)
Definition resolveColumnType (types : list string) : string :=
  match types with
  | [t] => t
  | _ =>
      if set_has types "TEXT" then "TEXT"
      else if set_has types "REAL" then "REAL"
      else "INTEGER"
  end.

Definition resolveColumnTypes (columnTypes : list (string * list string))
  : list (string * string) :=
  (fun '(columnName, types) => (columnName, resolveColumnType types)) <$> columnTypes.

(** The observation set of a column after the values [values] were seen,
    starting from the set [types]. *)
Definition observe (types : list string) (values : list JsValue) : list string :=
  fold_left (fun types v => set_add types (getSQLiteType v)) values types.

Definition observes (t : string) (v : JsValue) : bool := String.eqb t (getSQLiteType v).

(** *** Entity test and entity typing *)

Definition defined (v : JsValue) : bool := negb (is_undefined v).

Definition isEntity (obj : JsValue) : bool :=
  if (negb (truthy obj) || negb (typeof_object obj) || Array_isArray obj)%bool
  then false
  else
    let hasId :=
      (defined (get obj "id") || defined (get obj "_id") ||
       defined (get obj "ensemblId") || defined (get obj "efoId") ||
       defined (get obj "chemblId"))%bool in
    let fieldCount := length (Object_keys obj) in
    let hasMultipleFields := Nat.leb 2 fieldCount in
    let hasEntityFields :=
      (defined (get obj "name") || defined (get obj "approvedSymbol") ||
       defined (get obj "description") || defined (get obj "type") ||
       defined (get obj "score"))%bool in
    (hasId || (hasMultipleFields && hasEntityFields))%bool.

Definition is_string (v : JsValue) : bool :=
  match v with JStr _ => true | _ => false end.

Definition string_of (v : JsValue) : string :=
  match v with JStr s => s | _ => EmptyString end.

(** [path[path.length - k]] for [1 <= k <= path.length]. *)
Definition from_end (path : list string) (k : nat) : string :=
  default EmptyString (path !! (length path - k)%nat).

(** The segment of [path] that names the entity: graph wrappers are
    looked through. *)
Definition naming_segment (path : list string) : string :=
  let lastName := from_end path 1 in
  if (String.eqb lastName "node" && Nat.ltb 1 (length path))%bool then
    let lastName := from_end path 2 in
    if (String.eqb lastName "edges" && Nat.ltb 2 (length path))%bool
    then from_end path 3
    else lastName
  else if (String.eqb lastName "edges" && Nat.ltb 1 (length path))%bool then
    from_end path 2
  else if (String.eqb lastName "rows" && Nat.ltb 1 (length path))%bool then
    from_end path 2
  else lastName.

Definition singularize (sanitized : string) : string :=
  if endsWith sanitized "ies" then drop_last 3 sanitized +:+ "y"
  else if (endsWith sanitized "s" && negb (endsWith sanitized "ss") &&
           Nat.ltb 1 (String.length sanitized))%bool then
    let potentialSingular := drop_last 1 sanitized in
    if Nat.ltb 1 (String.length potentialSingular) then potentialSingular
    else sanitized
  else sanitized.

Definition inferEntityType (rnd : string) (obj : JsValue) (path : list string) : string :=
  if truthy (get obj "__typename") then sanitizeTableName rnd (get obj "__typename")
  else if (truthy (get obj "type") && is_string (get obj "type") &&
           negb (list_includes ["edges"; "node"]
                               (toLowerCase (string_of (get obj "type")))))%bool
  then sanitizeTableName rnd (get obj "type")
  else if truthy (get obj "ensemblId") then "target"
  else if truthy (get obj "efoId") then "disease"
  else if truthy (get obj "chemblId") then "drug"
  else if truthy (get obj "approvedSymbol") then "target"
  else if Nat.ltb 0 (length path) then
    singularize (sanitizeTableName rnd (JStr (naming_segment path)))
  else "entity_" +:+ rnd.

End SchemaInferenceEngine.

(** *** Relationships and junction schemas *)

Module Junction.
Import Js JsString SchemaInferenceEngine.

Record TableSchema : Type := mkTableSchema {
  columns : list (string * string);
  sample_data : list JsValue
}.

(** [entityRelationships : Map<string, Set<string>>], insertion ordered. *)
Definition Relationships : Type := list (string * list string).

Definition recordRelationship (entityRelationships : Relationships)
           (fromTable toTable : string) : Relationships :=
  if String.eqb fromTable toTable then entityRelationships
  else
    let fromRelationships := default [] (record_get entityRelationships fromTable) in
    let toRelationships := default [] (record_get entityRelationships toTable) in
    if (negb (set_has fromRelationships toTable) &&
        negb (set_has toRelationships fromTable))%bool
    then record_set entityRelationships fromTable (set_add fromRelationships toTable)
    else entityRelationships.

(** [[a, b].sort()]: the default comparison orders strings by code unit. *)
Definition sort2 (a b : string) : list string :=
  if String.ltb b a then [b; a] else [a; b].

(** [[a, b].sort().join('_')] *)
Definition junctionName (a b : string) : string := join "_" (sort2 a b).

Definition junctionSchema (fromTable toTable : string) : TableSchema :=
  mkTableSchema
    (record_set
       (record_set [("id", "INTEGER PRIMARY KEY AUTOINCREMENT")]
                   (fromTable +:+ "_id") "INTEGER")
       (toTable +:+ "_id") "INTEGER")
    [].

(** The inner loop of [createJunctionTableSchemas] for one source table. *)
Fixpoint junctionsOf (fromTable : string) (relatedTables : list string)
         (acc : list string * list (string * TableSchema))
  : list string * list (string * TableSchema) :=
  match relatedTables with
  | [] => acc
  | toTable :: rest =>
      let '(junctionTables, schemas) := acc in
      let name := junctionName fromTable toTable in
      junctionsOf fromTable rest
        (if set_has junctionTables name then acc
         else (set_add junctionTables name,
               record_set schemas name (junctionSchema fromTable toTable)))
  end.

Fixpoint junctionsLoop (entityRelationships : Relationships)
         (acc : list string * list (string * TableSchema))
  : list string * list (string * TableSchema) :=
  match entityRelationships with
  | [] => acc
  | (fromTable, relatedTables) :: rest =>
      junctionsLoop rest (junctionsOf fromTable relatedTables acc)
  end.

Definition createJunctionTableSchemas (entityRelationships : Relationships)
           (schemas : list (string * TableSchema)) : list (string * TableSchema) :=
  snd (junctionsLoop entityRelationships ([], schemas)).

(** The tables named in the set of junction names exist. *)
Definition junctions_exist (acc : list string * list (string * TableSchema)) : Prop :=
  forall n, set_has (fst acc) n = true -> record_get (snd acc) n <> None.

End Junction.

(** ** Data insertion engine ([DataInsertionEngine.ts]) *)

Module DataInsertionEngine.
Import Js JsString Identifier Junction.

Definition isEntity (obj : JsValue) : bool := SchemaInferenceEngine.isEntity obj.

Definition inferEntityType (rnd : string) (obj : JsValue) (path : list string) : string :=
  if truthy (get obj "__typename") then sanitizeTableName rnd (get obj "__typename")
  else if (truthy (get obj "type") && SchemaInferenceEngine.is_string (get obj "type"))%bool
  then sanitizeTableName rnd (get obj "type")
  else if truthy (get obj "ensemblId") then "target"
  else if truthy (get obj "efoId") then "disease"
  else if truthy (get obj "chemblId") then "drug"
  else if truthy (get obj "approvedSymbol") then "target"
  else if Nat.ltb 0 (length path) then
    let lastPath := SchemaInferenceEngine.from_end path 1 in
    if (String.eqb lastPath "edges" && Nat.ltb 1 (length path))%bool then
      sanitizeTableName rnd (JStr (SchemaInferenceEngine.from_end path 2))
    else if (String.eqb lastPath "rows" && Nat.ltb 1 (length path))%bool then
      sanitizeTableName rnd (JStr (SchemaInferenceEngine.from_end path 2))
    else if (endsWith lastPath "s" && Nat.ltb 1 (String.length lastPath))%bool then
      sanitizeTableName rnd (JStr (drop_last 1 lastPath))
    else sanitizeTableName rnd (JStr lastPath)
  else "entity_" +:+ rnd.

(** One statement handed to [sql.exec] with its bound arguments. *)
Record SqlCall : Type := mkSqlCall {
  statement : string;
  arguments : list JsValue
}.

(** [relationshipData : Map<string, Set<string>>]: pair keys
    [`${entityId}_${relatedId}`] collected under the junction name. *)
Definition RelationshipData : Type := list (string * list string).

(** [const [x, y] = parts] where a missing element reads [undefined]. *)
Definition nth_or_undefined (parts : list string) (i : nat) : JsValue :=
  match parts !! i with Some s => JStr s | None => JUndefined end.

(** Template-literal interpolation of a destructured name. *)
Definition interpolate (v : JsValue) : string :=
  match v with JStr s => s | _ => "undefined" end.

Definition junctionEndpoints (relationshipKey : string) : string * string :=
  let parts := split_on "_" relationshipKey in
  (interpolate (nth_or_undefined parts 0) +:+ "_id",
   interpolate (nth_or_undefined parts 1) +:+ "_id").

Definition junctionInsertSQL (relationshipKey : string) : string :=
  let '(c1, c2) := junctionEndpoints relationshipKey in
  "INSERT OR IGNORE INTO " +:+ relationshipKey +:+ " (" +:+ c1 +:+ ", " +:+ c2 +:+
  ") VALUES (?, ?)".

Section InsertJunction.
(** [Number(s)], a platform conversion. *)
Variable Number : string -> JsNumber.

Definition pairArguments (pairKey : string) : list JsValue :=
  let ids := (fun s => JNum (Number s)) <$> split_on "_" pairKey in
  [default JUndefined (ids !! 0%nat); default JUndefined (ids !! 1%nat)].

(** [insertJunctionTableRecords]: the statements it issues, in order, as
    long as the engine accepts them. *)
Definition insertJunctionTableRecords (relationshipData : RelationshipData)
           (schemas : list (string * TableSchema)) : list SqlCall :=
  mjoin
    ((fun '(relationshipKey, relationshipPairs) =>
        match SchemaInferenceEngine.record_get schemas relationshipKey with
        | Some _ =>
            (fun pairKey =>
               mkSqlCall (junctionInsertSQL relationshipKey) (pairArguments pairKey))
              <$> relationshipPairs
        | None => []
        end) <$> relationshipData).
End InsertJunction.

End DataInsertionEngine.

(** ** Regular expressions of the SQL gate *)

Module Regex.
Import JsString.

(** The fragment of the pattern language used by [blockedPatterns]; all
    patterns carry the [i] flag and none the [g] flag. *)
Inductive regex : Type :=
| Eps
| Chr (c : ascii)                 (* a literal, compared ignoring case *)
| SpacePlus                       (* \s+ *)
| WordPlus                        (* \w+ *)
| Boundary                        (* \b  *)
| Seq (r1 r2 : regex)
| Alt (r1 r2 : regex)
| NotAhead (r : regex).           (* (?!r) *)

Fixpoint lit (s : string) : regex :=
  match s with
  | EmptyString => Eps
  | String c s' => Seq (Chr c) (lit s')
  end.

Definition is_word_opt (c : option ascii) : bool :=
  match c with Some c => is_word c | None => false end.

Definition head (s : string) : option ascii :=
  match s with String c _ => Some c | EmptyString => None end.

(** Zero or more characters of class [p], then the continuation; every
    split point is tried. *)
Fixpoint star (p : ascii -> bool) (k : option ascii -> string -> bool)
         (prev : option ascii) (s : string) : bool :=
  (k prev s ||
   match s with
   | String d s' => p d && star p k (Some d) s'
   | EmptyString => false
   end)%bool.

Definition plus (p : ascii -> bool) (k : option ascii -> string -> bool)
           (prev : option ascii) (s : string) : bool :=
  match s with
  | String d s' => (p d && star p k (Some d) s')%bool
  | EmptyString => false
  end.

(** Backtracking matcher in continuation-passing style.  [prev] is the
    character before the current position, [s] the rest of the input. *)
Fixpoint matches (r : regex) (prev : option ascii) (s : string)
         (k : option ascii -> string -> bool) : bool :=
  match r with
  | Eps => k prev s
  | Chr c =>
      match s with
      | String d s' =>
          if Ascii.eqb (lower_char d) (lower_char c) then k (Some d) s' else false
      | EmptyString => false
      end
  | SpacePlus => plus is_space k prev s
  | WordPlus => plus is_word k prev s
  | Boundary =>
      if xorb (is_word_opt prev) (is_word_opt (head s)) then k prev s else false
  | Seq r1 r2 => matches r1 prev s (fun prev' s' => matches r2 prev' s' k)
  | Alt r1 r2 => (matches r1 prev s k || matches r2 prev s k)%bool
  | NotAhead r' =>
      if matches r' prev s (fun _ _ => true) then false else k prev s
  end.

Fixpoint search (r : regex) (prev : option ascii) (s : string) : bool :=
  (matches r prev s (fun _ _ => true) ||
   match s with
   | String c s' => search r (Some c) s'
   | EmptyString => false
   end)%bool.

(** [pattern.test(s)] *)
Definition test (r : regex) (s : string) : bool := search r None s.

(** *** What the patterns mean *)

(** One or more characters of class [p]. *)
Inductive run (p : ascii -> bool) : option ascii -> string -> option ascii -> string -> Prop :=
| run_one prev d s : p d = true -> run p prev (String d s) (Some d) s
| run_more prev d s prev' s' :
    p d = true -> run p (Some d) s prev' s' -> run p prev (String d s) prev' s'.

(** [sem r prev s prev' s']: the pattern [r] matches at the position whose
    left neighbour is [prev] and whose rest is [s], and the match ends at
    the position with left neighbour [prev'] and rest [s']. *)
Fixpoint sem (r : regex) (prev : option ascii) (s : string)
         (prev' : option ascii) (s' : string) : Prop :=
  match r with
  | Eps => prev' = prev /\ s' = s
  | Chr c => exists d, s = String d s' /\ prev' = Some d /\ lower_char d = lower_char c
  | SpacePlus => run is_space prev s prev' s'
  | WordPlus => run is_word prev s prev' s'
  | Boundary => xorb (is_word_opt prev) (is_word_opt (head s)) = true /\ prev' = prev /\ s' = s
  | Seq r1 r2 => exists p1 s1, sem r1 prev s p1 s1 /\ sem r2 p1 s1 prev' s'
  | Alt r1 r2 => sem r1 prev s prev' s' \/ sem r2 prev s prev' s'
  | NotAhead r' => ~ (exists p1 s1, sem r' prev s p1 s1) /\ prev' = prev /\ s' = s
  end.

(** The left neighbour of the position after [before]. *)
Fixpoint last_of (prev : option ascii) (before : string) : option ascii :=
  match before with
  | EmptyString => prev
  | String c rest => last_of (Some c) rest
  end.

End Regex.

(** ** SQL gate ([do.ts]) *)

Module SqlGate.
Import Js JsString Regex.

Definition allowedStarters : list string :=
  ["select"; "with"; "pragma"; "explain";
   "create temporary table"; "create temp table"; "create view";
   "create temporary view"; "create temp view"; "drop view";
   "drop temporary table"; "drop temp table"].

Definition not_temp : regex := NotAhead (Alt (lit "temp") (lit "temporary")).

(** Each pattern with its [source] text. *)
Definition blockedPatterns : list (string * regex) :=
  [("\bdrop\s+table\s+(?!temp|temporary)",
    Seq Boundary (Seq (lit "drop") (Seq SpacePlus (Seq (lit "table") (Seq SpacePlus not_temp)))));
   ("\bdelete\s+from",
    Seq Boundary (Seq (lit "delete") (Seq SpacePlus (lit "from"))));
   ("\bupdate\s+\w+\s+set",
    Seq Boundary (Seq (lit "update") (Seq SpacePlus (Seq WordPlus (Seq SpacePlus (lit "set"))))));
   ("\binsert\s+into\s+(?!temp|temporary)",
    Seq Boundary (Seq (lit "insert") (Seq SpacePlus (Seq (lit "into") (Seq SpacePlus not_temp)))));
   ("\balter\s+table",
    Seq Boundary (Seq (lit "alter") (Seq SpacePlus (lit "table"))));
   ("\bcreate\s+table\s+(?!temp|temporary)",
    Seq Boundary (Seq (lit "create") (Seq SpacePlus (Seq (lit "table") (Seq SpacePlus not_temp)))));
   ("\battach\s+database",
    Seq Boundary (Seq (lit "attach") (Seq SpacePlus (lit "database"))));
   ("\bdetach\s+database",
    Seq Boundary (Seq (lit "detach") (Seq SpacePlus (lit "database"))))].

Record Validation : Type := mkValidation {
  isValid : bool;
  error : option string;
  queryType : option string
}.

Definition startsWithAllowed (trimmedSql : string) : bool :=
  existsb (fun starter => startsWith trimmedSql starter) allowedStarters.

(** The first blocked pattern that matches, as the [for] loop finds it. *)
Definition firstBlocked (sql : string) : option (string * regex) :=
  List.find (fun p => test (snd p) sql) blockedPatterns.

Definition validateAnalyticalSql (sql : string) : Validation :=
  let trimmedSql := toLowerCase (trim sql) in
  if negb (startsWithAllowed trimmedSql) then
    mkValidation false
      (Some ("Query type not allowed. Permitted operations: " +:+ join ", " allowedStarters))
      None
  else
    match firstBlocked sql with
    | Some pattern =>
        mkValidation false (Some ("Operation blocked for security: " +:+ fst pattern)) None
    | None =>
        let queryType :=
          if startsWith trimmedSql "with" then "cte"
          else if startsWith trimmedSql "pragma" then "pragma"
          else if startsWith trimmedSql "explain" then "explain"
          else if includes trimmedSql "create" then "create_temp"
          else "select" in
        mkValidation true None (Some queryType)
    end.

(** The response object of [executeSql]. *)
Inductive SqlResponse : Type :=
| SqlSuccess (results : list (list (string * JsValue))) (row_count : Z)
             (column_names : list string) (query_type : option string)
| SqlFailure (error : string) (query : string).

Section Execute.
(** The embedded SQL engine: [sql.exec(q)] followed by [toArray()] and
    [columnNames], on a database state of type [DB]. *)
Context {DB : Type}.
Variable sql_exec :
  string -> DB -> Result (list (list (string * JsValue)) * list string) * DB.

Definition executeSql (sqlQuery : string) (db : DB) : SqlResponse * DB :=
  let validationResult := validateAnalyticalSql sqlQuery in
  if negb (isValid validationResult) then
    (SqlFailure (default EmptyString (error validationResult)) sqlQuery, db)
  else
    match sql_exec sqlQuery db with
    | (Ok (results, columnNames), db') =>
        (SqlSuccess results (Z.of_nat (length results)) columnNames
                    (queryType validationResult), db')
    | (Throw message, db') => (SqlFailure message sqlQuery, db')
    end.
End Execute.

(** The gate turns the statement down. *)
Definition rejected (sql : string) : Prop := isValid (validateAnalyticalSql sql) = false.

(** The statement matches one of the blocked patterns. *)
Definition blocked (sql : string) : Prop :=
  exists p, In p blockedPatterns /\ test (snd p) sql = true.

(** The trimmed, lower-cased statement starts with an allowed starter. *)
Definition allowed_start (sql : string) : Prop :=
  exists starter, In starter allowedStarters /\
                  startsWith (toLowerCase (trim sql)) starter = true.

End SqlGate.

(** ** Base64 ([btoa] and [atob]) *)

Module Base64.
Import Js JsString.

Definition byte (n : N) : ascii := ascii_of_N n.

(** The character of a sextet. *)
Definition b64_char (n : N) : ascii :=
  if N.ltb n 26 then byte (n + 65)
  else if N.ltb n 52 then byte (n + 71)
  else if N.ltb n 62 then byte (n - 4)
  else if N.eqb n 62 then "+"%char
  else "/"%char.

(** The sextet of a character of the alphabet. *)
Definition b64_index (c : ascii) : option N :=
  if is_upper c then Some (code c - 65)%N
  else if is_lower c then Some (code c - 71)%N
  else if is_digit c then Some (code c + 4)%N
  else if N.eqb (code c) 43 then Some 62%N
  else if N.eqb (code c) 47 then Some 63%N
  else None.

(** [btoa(s)] for a string of code units below 256 (the only strings of
    the model; on others [btoa] throws). *)
Fixpoint btoa (s : string) : string :=
  match s with
  | EmptyString => EmptyString
  | String a EmptyString =>
      String (b64_char (code a / 4))
        (String (b64_char (code a mod 4 * 16)) "==")
  | String a (String b EmptyString) =>
      String (b64_char (code a / 4))
        (String (b64_char (code a mod 4 * 16 + code b / 16))
           (String (b64_char (code b mod 16 * 4)) "="))
  | String a (String b (String c rest)) =>
      String (b64_char (code a / 4))
        (String (b64_char (code a mod 4 * 16 + code b / 16))
           (String (b64_char (code b mod 16 * 4 + code c / 64))
              (String (b64_char (code c mod 64)) (btoa rest))))
  end.

(** [atob(s)]: the forgiving base64 decoder. *)
Definition is_ascii_whitespace (c : ascii) : bool :=
  (N.eqb (code c) 9 || N.eqb (code c) 10 || N.eqb (code c) 12 ||
   N.eqb (code c) 13 || N.eqb (code c) 32)%bool.

Fixpoint remove_whitespace (s : string) : string :=
  match s with
  | EmptyString => EmptyString
  | String c s' =>
      if is_ascii_whitespace c then remove_whitespace s'
      else String c (remove_whitespace s')
  end.

Definition is_equals (c : ascii) : bool := N.eqb (code c) 61.

Fixpoint strip_trailing_equals (s : string) : string :=
  match s with
  | EmptyString => EmptyString
  | String c EmptyString => if is_equals c then EmptyString else s
  | String c s' => String c (strip_trailing_equals s')
  end.

Fixpoint sextets (s : string) : option (list N) :=
  match s with
  | EmptyString => Some []
  | String c s' =>
      match b64_index c, sextets s' with
      | Some n, Some l => Some (n :: l)
      | _, _ => None
      end
  end.

Fixpoint decode (l : list N) : string :=
  match l with
  | a :: b :: c :: d :: rest =>
      String (byte (a * 4 + b / 16))
        (String (byte (b mod 16 * 16 + c / 4))
           (String (byte (c mod 4 * 64 + d)) (decode rest)))
  | [a; b; c] =>
      String (byte (a * 4 + b / 16))
        (String (byte (b mod 16 * 16 + c / 4)) EmptyString)
  | [a; b] => String (byte (a * 4 + b / 16)) EmptyString
  | _ => EmptyString
  end.

Definition atob (s : string) : Result string :=
  let data := remove_whitespace s in
  let data :=
    if Nat.eqb (String.length data mod 4) 0
    then strip_trailing_equals (strip_trailing_equals data)
    else data in
  if Nat.eqb (String.length data mod 4) 1 then Throw "InvalidCharacterError"
  else
    match sextets data with
    | Some l => Ok (decode l)
    | None => Throw "InvalidCharacterError"
    end.

End Base64.

(** ** Chunk store ([ChunkingEngine.ts]) *)

Module ChunkingEngine.
Import Js JsString Base64.

Definition CHUNK_SIZE_THRESHOLD : Z := 32 * 1024.
Definition CHUNK_SIZE : Z := 16 * 1024.
Definition ENABLE_COMPRESSION : bool := true.

Inductive ContentType : Type := json | text.

Record ChunkMetadata : Type := mkChunkMetadata {
  contentId : string;
  totalChunks : Z;
  originalSize : Z;
  contentType : ContentType;
  compressed : bool;
  encoding : option string
}.

Record ChunkRecord : Type := mkChunkRecord {
  content_id : string;
  chunk_index : Z;
  chunk_data : string;
  chunk_size : Z
}.

(** The two system tables of a compartment.  [tables_exist] tells whether
    [ensureChunksTable] has run; a row of [chunk_metadata] is kept in
    the shape [getMetadata] reads it back. *)
Record Store : Type := mkStore {
  tables_exist : bool;
  content_chunks : list ChunkRecord;
  chunk_metadata : list ChunkMetadata
}.

(** What the platform provides.  [CompressionStream] stands for the text
    encoder, the gzip stream and [String.fromCharCode] on its output, that
    is for everything [compress] does before [btoa]; [DecompressionStream]
    for the gzip stream and the text decoder that follow [atob].  Either
    is [None] when the global of that name is undefined.  The flag tells
    whether [cursor.one()] throws on an empty result or yields a falsy
    value. *)
Record Runtime : Type := mkRuntime {
  CompressionStream : option (string -> Result string);
  DecompressionStream : option (string -> Result string);
  one_throws_when_empty : bool
}.

(** Computations on the store that may throw. *)
Definition M (A : Type) : Type := Store -> Result A * Store.

Definition ret {A : Type} (a : A) : M A := fun db => (Ok a, db).

Definition bind {A B : Type} (m : M A) (f : A -> M B) : M B :=
  fun db =>
    match m db with
    | (Ok a, db') => f a db'
    | (Throw e, db') => (Throw e, db')
    end.

Notation "'let!' x ':=' m 'in' k" := (bind m (fun x => k))
  (at level 10, x name, m at level 100, k at level 200).

Definition shouldChunk (content : string) : bool :=
  Z.ltb CHUNK_SIZE_THRESHOLD (len content).

Definition shouldCompress (content : string) : bool :=
  Z.ltb 8192 (len content).

Definition compress (rt : Runtime) (content : string) : Result string :=
  match CompressionStream rt with
  | Some gzip =>
      match gzip content with
      | Ok combined => Ok (btoa combined)
      | Throw e => Throw ("Compression failed: Error: " +:+ e)
      end
  | None => Ok (btoa content)
  end.

Definition decompress (rt : Runtime) (compressedContent : string) : Result string :=
  match atob compressedContent with
  | Ok compressedData =>
      match DecompressionStream rt with
      | Some gunzip =>
          match gunzip compressedData with
          | Ok s => Ok s
          | Throw e => Throw ("Decompression failed: Error: " +:+ e)
          end
      | None => Ok compressedData
      end
  | Throw e => Throw ("Decompression failed: " +:+ e)
  end.

(** The loop of [splitIntoChunks]; [fuel] bounds the iterations. *)
Fixpoint splitLoop (fuel : nat) (size : nat) (content : string) (i : nat)
  : list string :=
  match fuel with
  | O => []
  | S fuel' =>
      if Nat.ltb i (String.length content)
      then slice i (i + size) content :: splitLoop fuel' size content (i + size)
      else []
  end.

Definition splitIntoChunks (content : string) : list string :=
  splitLoop (String.length content) (Z.to_nat CHUNK_SIZE) content 0.

Definition ensureChunksTable : M unit :=
  fun db => (Ok tt, mkStore true (content_chunks db) (chunk_metadata db)).

Definition same_slot (a b : ChunkRecord) : bool :=
  (String.eqb (content_id a) (content_id b) && Z.eqb (chunk_index a) (chunk_index b))%bool.

(** [INSERT INTO content_chunks ...] under [UNIQUE(content_id, chunk_index)]. *)
Definition insertChunk (chunk : ChunkRecord) : M unit :=
  fun db =>
    if negb (tables_exist db) then (Throw "no such table: content_chunks", db)
    else if existsb (same_slot chunk) (content_chunks db)
    then (Throw "UNIQUE constraint failed: content_chunks.content_id, content_chunks.chunk_index", db)
    else (Ok tt, mkStore (tables_exist db) (content_chunks db ++ [chunk]) (chunk_metadata db)).

(** [INSERT INTO chunk_metadata ...] under [content_id PRIMARY KEY]. *)
Definition storeMetadata (metadata : ChunkMetadata) : M unit :=
  fun db =>
    if negb (tables_exist db) then (Throw "no such table: chunk_metadata", db)
    else if existsb (fun m => String.eqb (contentId m) (contentId metadata)) (chunk_metadata db)
    then (Throw "UNIQUE constraint failed: chunk_metadata.content_id", db)
    else (Ok tt, mkStore (tables_exist db) (content_chunks db) (chunk_metadata db ++ [metadata])).

(** The [for] loop of [storeChunkedContent], from index [i]. *)
Fixpoint insertChunks (contentId : string) (chunks : list string) (i : Z) : M unit :=
  match chunks with
  | [] => ret tt
  | chunk :: rest =>
      let! done := insertChunk (mkChunkRecord contentId i chunk (len chunk)) in
      insertChunks contentId rest (i + 1)
  end.

(** The content as it is stored, and the compression flag. *)
Definition processContent (rt : Runtime) (content : string) : string * bool :=
  if (ENABLE_COMPRESSION && shouldCompress content)%bool then
    match compress rt content with
    | Ok processedContent => (processedContent, true)
    | Throw _ => (content, false)
    end
  else (content, false).

(** [storeChunkedContent]; [contentId] is the identifier drawn by
    [generateContentId] for this call. *)
Definition storeChunkedContent (rt : Runtime) (contentId : string)
           (content : string) (contentType : ContentType) : M ChunkMetadata :=
  let '(processedContent, compressed) := processContent rt content in
  let! ensured := ensureChunksTable in
  let chunks := splitIntoChunks processedContent in
  let! inserted := insertChunks contentId chunks 0 in
  let metadata :=
    mkChunkMetadata contentId (Z.of_nat (length chunks)) (len content) contentType
                    compressed (if compressed then Some "gzip" else None) in
  let! stored := storeMetadata metadata in
  ret metadata.

Definition createContentReference (metadata : ChunkMetadata) : string :=
  "__CHUNKED__:" +:+ contentId metadata.

Definition isContentReference (value : JsValue) : bool :=
  match value with
  | JStr s => startsWith s "__CHUNKED__:"
  | _ => false
  end.

Definition extractContentId (reference : string) : string :=
  replace_first "__CHUNKED__:" EmptyString reference.

(** [ORDER BY chunk_index ASC] *)
Fixpoint insert_by_index (r : ChunkRecord) (l : list ChunkRecord) : list ChunkRecord :=
  match l with
  | [] => [r]
  | x :: l' =>
      if Z.leb (chunk_index r) (chunk_index x) then r :: l
      else x :: insert_by_index r l'
  end.

Definition order_by_index (l : list ChunkRecord) : list ChunkRecord :=
  foldr insert_by_index [] l.

(** [SELECT * FROM chunk_metadata WHERE content_id = ?] read with
    [one()], which needs exactly one row. *)
Definition getMetadata (rt : Runtime) (contentId' : string) (db : Store)
  : Result (option ChunkMetadata) :=
  if negb (tables_exist db) then Throw "no such table: chunk_metadata"
  else
    match List.filter (fun m => String.eqb (contentId m) contentId') (chunk_metadata db) with
    | [result] => Ok (Some result)
    | [] =>
        if one_throws_when_empty rt
        then Throw "Expected exactly one result from SQL query, but got no results."
        else Ok None
    | _ => Throw "Expected exactly one result from SQL query, but got multiple results."
    end.

Definition getChunks (contentId' : string) (db : Store) : Result (list string) :=
  if negb (tables_exist db) then Throw "no such table: content_chunks"
  else
    Ok (chunk_data <$>
          order_by_index
            (List.filter (fun r => String.eqb (content_id r) contentId') (content_chunks db))).

(** The [try] block of [retrieveChunkedContent]. *)
Definition retrieve_try (rt : Runtime) (contentId' : string) (db : Store)
  : Result (option string) :=
  match getMetadata rt contentId' db with
  | Throw e => Throw e
  | Ok None => Ok None
  | Ok (Some metadata) =>
      match getChunks contentId' db with
      | Throw e => Throw e
      | Ok chunks =>
          if negb (Z.eqb (Z.of_nat (length chunks)) (totalChunks metadata)) then
            Throw ("Missing chunks: expected " +:+ pretty (totalChunks metadata) +:+
                   ", found " +:+ pretty (Z.of_nat (length chunks)))
          else
            let reassembled := join EmptyString chunks in
            if compressed metadata then
              match decompress rt reassembled with
              | Ok s => Ok (Some s)
              | Throw _ => Throw "Failed to decompress content"
              end
            else Ok (Some reassembled)
      end
  end.

(** [retrieveChunkedContent]: the [catch] clause logs and returns [null]. *)
Definition retrieveChunkedContent (rt : Runtime) (contentId' : string) (db : Store)
  : Result (option string) :=
  match retrieve_try rt contentId' db with
  | Ok r => Ok r
  | Throw _ => Ok None
  end.

(** [smartJsonStringify] on an already serialised value. *)
Definition storeIfLarge (rt : Runtime) (contentId' : string) (jsonString : string)
  : M string :=
  if negb (shouldChunk jsonString) then ret jsonString
  else
    let! metadata := storeChunkedContent rt contentId' jsonString json in
    ret (createContentReference metadata).

(** *** What a successful store leaves behind *)

(** The chunk records of one content item, numbered from [i]. *)
Fixpoint chunkRows (contentId : string) (chunks : list string) (i : Z) : list ChunkRecord :=
  match chunks with
  | [] => []
  | chunk :: rest =>
      mkChunkRecord contentId i chunk (len chunk) :: chunkRows contentId rest (i + 1)
  end.

Definition metadataOf (rt : Runtime) (contentId' content : string) (contentType' : ContentType)
  : ChunkMetadata :=
  let '(processedContent, compressed') := processContent rt content in
  mkChunkMetadata contentId' (Z.of_nat (length (splitIntoChunks processedContent)))
                  (len content) contentType' compressed'
                  (if compressed' then Some "gzip" else None).

Definition storedAfter (rt : Runtime) (contentId' content : string) (contentType' : ContentType)
           (db : Store) : Store :=
  mkStore true
    (content_chunks db ++ chunkRows contentId' (splitIntoChunks (fst (processContent rt content))) 0)
    (chunk_metadata db ++ [metadataOf rt contentId' content contentType']).

(** The identifier drawn by [generateContentId] is not in use: no chunk and
    no metadata record carries it. *)
Definition fresh (contentId' : string) (db : Store) : bool :=
  (forallb (fun r => negb (String.eqb (content_id r) contentId')) (content_chunks db) &&
   forallb (fun m => negb (String.eqb (contentId m) contentId')) (chunk_metadata db))%bool.

(** The platform's decompression inverts its compression, and both streams
    are present or both absent.  [CompressionStream] takes in the text
    encoder and [DecompressionStream] the text decoder: the condition is
    one on the gzip streams for the strings of this model, code units
    0..255, on which decoding inverts encoding ([latin1_decode_encode]).
    On other texts the decoder does not invert the encoder and the
    condition fails; [ChunkingEngineUtf16] follows the store there. *)
Definition runtime_sound (rt : Runtime) : Prop :=
  match CompressionStream rt, DecompressionStream rt with
  | Some gzip, Some gunzip => forall s z, gzip s = Ok z -> gunzip z = Ok s
  | None, None => True
  | _, _ => False
  end.

End ChunkingEngine.

(** ** Reconstitution of chunk references in query results ([do.ts]) *)

Module Reconstitution.
Import Js JsString ChunkingEngine.

Section Resolve.
Variable rt : Runtime.
(** [JSON.parse] *)
Variable JSON_parse : string -> Result JsValue.

(** The body of the inner loop of [resolveChunkedContentInResults] for
    one cell. *)
Definition resolveCell (db : Store) (value : JsValue) : JsValue :=
  if isContentReference value then
    let contentId' := extractContentId (SchemaInferenceEngine.string_of value) in
    match retrieveChunkedContent rt contentId' db with
    | Ok (Some resolvedContent) =>
        match JSON_parse resolvedContent with
        | Ok v => v
        | Throw _ => JStr resolvedContent
        end
    | Ok None => JStr ("[CHUNKED_CONTENT_NOT_FOUND:" +:+ contentId' +:+ "]")
    | Throw e => JStr ("[CHUNKED_CONTENT_ERROR:Error: " +:+ e +:+ "]")
    end
  else value.

Definition resolveChunkedContentInResults (db : Store)
           (results : list (list (string * JsValue))) : list (list (string * JsValue)) :=
  (fun row : list (string * JsValue) =>
     (fun '(key, value) => (key, resolveCell db value)) <$> row) <$> results.
End Resolve.

End Reconstitution.

(** ** Identity memo of the insertion engine ([insertEntityRecord]) *)

Module EntityMemo.
Import Js JsString Junction DataInsertionEngine.

(** A payload object: its identity and its contents.  Two objects with
    the same contents and different addresses are distinct keys of a
    JavaScript [Map]. *)
Record Obj : Type := mkObj {
  address : positive;
  content : JsValue
}.

Section InsertEntity.
(** The SQL handle, and the row composition [mapEntityToSchema] (which
    may write to the chunk store through the same handle).  The memo
    protocol is independent of both. *)
Context {DB : Type}.
Variable sql_exec :
  string -> list JsValue -> DB -> Result (list (list (string * JsValue))) * DB.
Variable mapEntityToSchema :
  JsValue -> TableSchema -> DB -> Result (list (string * JsValue)) * DB.

(** [processedEntities : Map<string, Map<any, number>>] and the handle. *)
Record State : Type := mkState {
  processedEntities : gmap string (gmap positive JsValue);
  sql : DB
}.

(** [cursor.one()?.id || null] *)
Definition one_id (rows : list (list (string * JsValue))) : Result JsValue :=
  match rows with
  | [row] =>
      let id := default JUndefined (assoc "id" row) in
      Ok (if truthy id then id else JNull)
  | _ => Throw "Expected exactly one result from SQL query"
  end.

Definition insertStatement (tableName : string) (rowData : list (string * JsValue))
  : string :=
  "INSERT OR IGNORE INTO " +:+ tableName +:+ " (" +:+ join ", " (fst <$> rowData) +:+
  ") VALUES (" +:+ join ", " ((fun _ => "?") <$> rowData) +:+ ")".

Definition entityMapOf (st : State) (tableName : string) : gmap positive JsValue :=
  default ∅ (processedEntities st !! tableName).

(** The part of [insertEntityRecord] after the memo test. *)
Definition insertFresh (entity : Obj) (tableName : string) (schema : TableSchema)
           (st : State) : Result JsValue * State :=
  let entityMap := entityMapOf st tableName in
  match mapEntityToSchema (content entity) schema (sql st) with
  | (Throw e, db1) => (Throw e, mkState (processedEntities st) db1)
  | (Ok rowData, db1) =>
      if Nat.eqb (length rowData) 0
      then (Ok JNull, mkState (processedEntities st) db1)
      else
        match sql_exec (insertStatement tableName rowData) (snd <$> rowData) db1 with
        | (Throw e, db2) => (Throw e, mkState (processedEntities st) db2)
        | (Ok _, db2) =>
            let rowId := default JUndefined (assoc "id" rowData) in
            let '(insertedId, db3) :=
              if truthy rowId then (Ok rowId, db2)
              else
                match sql_exec "SELECT last_insert_rowid() as id" [] db2 with
                | (Ok rows, db3) => (one_id rows, db3)
                | (Throw e, db3) => (Throw e, db3)
                end in
            match insertedId with
            | Throw e => (Throw e, mkState (processedEntities st) db3)
            | Ok insertedId =>
                if truthy insertedId then
                  (Ok insertedId,
                   mkState
                     (<[tableName := <[address entity := insertedId]> entityMap]>
                        (processedEntities st))
                     db3)
                else (Ok insertedId, mkState (processedEntities st) db3)
            end
        end
  end.

Definition insertEntityRecord (entity : Obj) (tableName : string) (schema : TableSchema)
           (st : State) : Result JsValue * State :=
  match entityMapOf st tableName !! address entity with
  | Some id => (Ok id, st)
  | None => insertFresh entity tableName schema st
  end.

(** [getEntityId] *)
Definition getEntityId (entity : Obj) (entityType : string) (st : State) : JsValue :=
  match processedEntities st !! entityType with
  | Some entityMap =>
      match entityMap !! address entity with
      | Some id => if truthy id then id else JNull
      | None => JNull
      end
  | None => JNull
  end.
End InsertEntity.

End EntityMemo.

(** ** Shape of a normalised identifier *)

Module Shape.
Import Js JsString Identifier.

(** Lower-case letter, digit or underscore. *)
Definition is_low (c : ascii) : bool :=
  (is_lower c || is_digit c || is_underscore c)%bool.

Definition is_alnum (c : ascii) : bool :=
  (is_lower c || is_upper c || is_digit c)%bool.

Fixpoint all_chars (p : ascii -> bool) (s : string) : bool :=
  match s with
  | EmptyString => true
  | String c s' => (p c && all_chars p s')%bool
  end.

Fixpoint any_char (p : ascii -> bool) (s : string) : bool :=
  match s with
  | EmptyString => false
  | String c s' => (p c || any_char p s')%bool
  end.

(** The name contains a letter or a digit. *)
Definition has_alnum (s : string) : bool := any_char is_alnum s.

Definition starts_with_underscore (s : string) : bool :=
  match s with
  | String c _ => is_underscore c
  | EmptyString => false
  end.

(** Every underscore is followed by a character that is not one: no run
    of underscores and no underscore at the end. *)
Fixpoint separated (s : string) : bool :=
  match s with
  | EmptyString => true
  | String c s' =>
      ((if is_underscore c
        then match s' with
             | String c' _ => negb (is_underscore c')
             | EmptyString => false
             end
        else true) && separated s')%bool
  end.

(** No run of two underscores (a single one may end the string). *)
Fixpoint no_run (s : string) : bool :=
  match s with
  | EmptyString => true
  | String c s' =>
      ((if is_underscore c then negb (starts_with_underscore s') else true)
       && no_run s')%bool
  end.

(** [^[a-z0-9_]*$] with underscores only between other characters. *)
Definition normal (s : string) : bool :=
  (all_chars is_low s && negb (starts_with_underscore s) && separated s)%bool.

(** A name on which the table sanitiser does nothing. *)
Definition stable_table (s : string) : bool :=
  (normal s && negb (is_empty s) && negb (starts_with_digit s) &&
   negb (list_includes table_reservedWords s))%bool.

(** The synonym table leaves the name alone. *)
Definition term_fixed (s : string) : bool :=
  match openTargetsTerms_get s with
  | JStr v => String.eqb v s
  | JUndefined => true
  | _ => false
  end.

Definition stable_column (s : string) : bool :=
  (normal s && negb (is_empty s) && negb (starts_with_digit s) &&
   negb (list_includes column_reservedWords s) && term_fixed s)%bool.

Definition stable_fixed (s : string) : bool :=
  (normal s && negb (is_empty s) && negb (starts_with_digit s) &&
   negb (list_includes fix_reservedWords s))%bool.

(** A random suffix as [Math.random().toString(36).substr(2, 9)] gives it,
    unless the draw is 0: a non-empty string of digits and lower-case
    letters. *)
Definition drawn (r : string) : bool :=
  (negb (is_empty r) && all_chars (fun c => (is_lower c || is_digit c)%bool) r)%bool.

(** A name without an underscore. *)
Definition plain (s : string) : bool := all_chars (fun c => negb (is_underscore c)) s.

Definition fix_prefix (k : IdentifierKind) : string :=
  match k with KTable => "table_" | KColumn => "col_" end.

Definition fix_suffix (k : IdentifierKind) : string :=
  match k with KTable => "_tbl" | KColumn => "_col" end.

End Shape.

(** ** Concrete payloads, stores and engines used in the examples *)

Module Examples.
Import Js JsString Junction DataInsertionEngine ChunkingEngine EntityMemo.

(** An entity reached under the key [studies]. *)
Definition study : JsValue := JObj [("id", JStr "S1"); ("name", JStr "x")].

(** The relation recorded for a [drug_warning] entity that holds an array
    of [target] entities. *)
Definition drug_warning_relations : Relationships :=
  recordRelationship [] "drug_warning" "target".

(** A platform without [CompressionStream] and [DecompressionStream]. *)
Definition no_streams : Runtime := mkRuntime None None true.

Definition empty_store : Store := mkStore false [] [].

Fixpoint doubled (n : nat) (s : string) : string :=
  match n with
  | O => s
  | S n' => doubled n' s +:+ doubled n' s
  end.

(** 16384 and 65536 characters. *)
Definition text_16k : string := doubled 14 "a".
Definition text_64k : string := doubled 16 "a".

(** Metadata announcing two chunks, one chunk record present. *)
Definition corrupt_metadata : ChunkMetadata := mkChunkMetadata "c1" 2 6 text false None.
Definition corrupt_store : Store :=
  mkStore true [mkChunkRecord "c1" 0 "abc" 3] [corrupt_metadata].

Definition no_json (s : string) : Result JsValue := Throw "Unexpected token".

(** An SQL handle that records the statements it is given. *)
Definition Log : Type := list (string * list JsValue).

Definition log_exec (statement : string) (args : list JsValue) (db : Log)
  : Result (list (list (string * JsValue))) * Log :=
  if String.eqb statement "SELECT last_insert_rowid() as id"
  then (Ok [[("id", JNum (NFin (inject_Z (Z.of_nat (length db)))))]], db)
  else (Ok [], (db ++ [(statement, args)])%list).

Definition log_query (statement : string) (db : Log)
  : Result (list (list (string * JsValue)) * list string) * Log :=
  (Ok ([], []), (db ++ [(statement, [])])%list).

(** A row mapper that copies the fields of the object.  It gives the row
    [mapEntityToSchema] composes when the keys of the object are the
    columns of the schema, in the same order, and the values are strings. *)
Definition fields_row (v : JsValue) (schema : TableSchema) (db : Log)
  : Result (list (string * JsValue)) * Log :=
  (Ok (match v with JObj fields => fields | _ => [] end), db).

(** Two distinct objects with the same contents. *)
Definition androgen_receptor : JsValue :=
  JObj [("id", JStr "ENSG00000169083"); ("name", JStr "AR")].
Definition ar1 : Obj := mkObj 1 androgen_receptor.
Definition ar2 : Obj := mkObj 2 androgen_receptor.

Definition target_schema : TableSchema :=
  mkTableSchema [("id", "TEXT"); ("name", "TEXT")] [].

Definition empty_state : @State Log := mkState ∅ [].

Definition after_ar1 : @State Log :=
  mkState (<["target" := <[1%positive := JStr "ENSG00000169083"]> ∅]> ∅)
          [("INSERT OR IGNORE INTO target (id, name) VALUES (?, ?)",
            [JStr "ENSG00000169083"; JStr "AR"])].

End Examples.

(** ** Chunk store: clean-up and smart serialisation ([ChunkingEngine.ts]) *)

Module ChunkingMaintenance.
Import Js JsString ChunkingEngine.

(** [DELETE FROM content_chunks WHERE content_id = ?] *)
Definition deleteChunks (contentId' : string) : M unit :=
  fun db =>
    if negb (tables_exist db) then (Throw "no such table: content_chunks", db)
    else (Ok tt,
          mkStore (tables_exist db)
                  (List.filter (fun r => negb (String.eqb (content_id r) contentId'))
                               (content_chunks db))
                  (chunk_metadata db)).

(** [DELETE FROM chunk_metadata WHERE content_id = ?] *)
Definition deleteMetadata (contentId' : string) : M unit :=
  fun db =>
    if negb (tables_exist db) then (Throw "no such table: chunk_metadata", db)
    else (Ok tt,
          mkStore (tables_exist db) (content_chunks db)
                  (List.filter (fun m => negb (String.eqb (contentId m) contentId'))
                               (chunk_metadata db))).

(** [cleanupChunkedContent]: an error of either statement is logged and
    swallowed. *)
Definition cleanupChunkedContent (contentId' : string) : M unit :=
  fun db =>
    match (let! chunks_deleted := deleteChunks contentId' in deleteMetadata contentId') db with
    | (Ok u, db') => (Ok u, db')
    | (Throw _, db') => (Ok tt, db')
    end.

(** A compartment in which the system tables were never created holds no
    row of them. *)
Definition consistent (db : Store) : Prop :=
  tables_exist db = false -> content_chunks db = [] /\ chunk_metadata db = [].

Section SmartJson.
Variable rt : Runtime.
(** [JSON.stringify], which yields [undefined] ([None]) for a value that
    has no JSON text, and [JSON.parse]. *)
Variable JSON_stringify : JsValue -> option string.
Variable JSON_parse : string -> Result JsValue.

(** Reading [.length] of [undefined]. *)
Definition TypeError_length {A : Type} : M A :=
  fun db => (Throw "Cannot read properties of undefined (reading 'length')", db).

Definition smartJsonStringify (contentId' : string) (obj : JsValue) : M string :=
  match JSON_stringify obj with
  | Some jsonString => storeIfLarge rt contentId' jsonString
  | None => TypeError_length
  end.

Definition smartJsonParse (value : string) (db : Store) : Result JsValue :=
  if negb (isContentReference (JStr value)) then JSON_parse value
  else
    let contentId' := extractContentId value in
    match retrieveChunkedContent rt contentId' db with
    | Ok (Some retrievedContent) =>
        if is_empty retrievedContent
        then Throw ("Failed to retrieve chunked content: " +:+ contentId')
        else JSON_parse retrievedContent
    | Ok None => Throw ("Failed to retrieve chunked content: " +:+ contentId')
    | Throw e => Throw e
    end.
End SmartJson.

End ChunkingMaintenance.

(** ** Schema-aware chunking rules ([ChunkingEngine.ts]) *)

Module GraphQL.

(** [GraphQLFieldInfo] *)
Record GraphQLFieldInfo : Type := mkFieldInfo {
  name : string;
  type : string;
  isList : bool;
  isNullable : bool;
  description : option string
}.

(** [GraphQLTypeInfo]; [kind] is kept as the string the parser stores. *)
Record GraphQLTypeInfo : Type := mkTypeInfo {
  type_name : string;
  kind : string;
  fields : list (string * GraphQLFieldInfo);
  type_description : option string
}.

Record Relationship : Type := mkRelationship {
  fromType : string;
  toType : string;
  rel_fieldName : string;
  cardinality : string
}.

(** [GraphQLSchemaInfo] *)
Record GraphQLSchemaInfo : Type := mkSchemaInfo {
  types : list (string * GraphQLTypeInfo);
  relationships : list Relationship
}.

End GraphQL.

Module ChunkingRules.
Import Js JsString ChunkingEngine ChunkingMaintenance GraphQL.

Inductive Priority : Type := always | size_based | never.

(** [chunkThreshold]: a number of code units or [Infinity]. *)
Inductive Threshold : Type := Finite (n : Z) | Infinity.

Record FieldChunkingRule : Type := mkRule {
  fieldName : string;
  typeName : string;
  chunkThreshold : Threshold;
  priority : Priority;
  reason : string
}.

Definition baseRules : list FieldChunkingRule :=
  [mkRule "id" "*" Infinity never "ID fields should never be chunked";
   mkRule "ensemblId" "*" Infinity never "Ensembl ID fields should never be chunked";
   mkRule "efoId" "*" Infinity never "EFO ID fields should never be chunked";
   mkRule "chemblId" "*" Infinity never "ChEMBL ID fields should never be chunked";
   mkRule "description" "Target" (Finite 2048) always
          "Target descriptions are typically very long";
   mkRule "description" "Disease" (Finite 2048) always "Disease descriptions can be extensive";
   mkRule "description" "Drug" (Finite 2048) always "Drug descriptions can be extensive";
   mkRule "synonyms" "*" (Finite 1024) size_based "Synonym arrays can be large";
   mkRule "tractability" "Target" (Finite 4096) size_based
          "Tractability data contains extensive nested information";
   mkRule "geneticConstraint" "Target" (Finite 2048) size_based
          "Genetic constraint data can be detailed";
   mkRule "safety" "Target" (Finite 4096) size_based "Safety information can be extensive";
   mkRule "evidences" "*" (Finite 8192) size_based "Evidence arrays can be very large";
   mkRule "associations" "*" (Finite 8192) size_based "Association arrays can be very large";
   mkRule "studies" "*" (Finite 6144) size_based "Study arrays can be extensive";
   mkRule "pharmacovigilance" "Drug" (Finite 8192) size_based
          "Pharmacovigilance data can be very large";
   mkRule "mechanismsOfAction" "Drug" (Finite 4096) size_based
          "Mechanism of action data can be extensive";
   mkRule "indications" "Drug" (Finite 4096) size_based "Drug indications can be numerous";
   mkRule "ontology" "Disease" (Finite 4096) size_based
          "Ontology data can contain extensive hierarchical information";
   mkRule "therapeuticAreas" "Disease" (Finite 2048) size_based
          "Therapeutic area data can be extensive";
   mkRule "expressions" "Target" (Finite 6144) size_based
          "Expression data can be extensive across tissues";
   mkRule "interactions" "Target" (Finite 6144) size_based "Interaction data can be extensive";
   mkRule "pathways" "Target" (Finite 4096) size_based "Pathway data can be extensive";
   mkRule "approvedName" "*" (Finite 512) size_based
          "Approved names are usually short but can be long";
   mkRule "approvedSymbol" "*" (Finite 256) size_based "Symbols are usually short";
   mkRule "name" "*" (Finite 512) size_based "Names are usually short but can be long"].

Definition largeContentIndicators : list string :=
  ["description"; "summary"; "evidence"; "associations"; "studies";
   "tractability"; "constraint"; "safety"; "pharmacovigilance";
   "mechanisms"; "indications"; "ontology"; "expressions"; "interactions";
   "pathways"; "therapeuticAreas"; "synonyms"; "alternativeNames"].

Definition isLikelyLargeContent (fieldInfo : GraphQLFieldInfo) : bool :=
  existsb
    (fun indicator =>
       (includes (toLowerCase (name fieldInfo)) indicator ||
        match description fieldInfo with
        | Some d => includes (toLowerCase d) indicator
        | None => false
        end)%bool)
    largeContentIndicators.

(** The rules pushed for the fields of one type. *)
Definition fieldRules (typeName' : string) (typeInfo : GraphQLTypeInfo)
  : list FieldChunkingRule :=
  if String.eqb (kind typeInfo) "OBJECT" then
    mjoin
      ((fun '(fieldName', fieldInfo) =>
          if (isList fieldInfo && isLikelyLargeContent fieldInfo)%bool
          then [mkRule fieldName' typeName' (Finite 8192) size_based
                       ("List field " +:+ fieldName' +:+ " on " +:+ typeName' +:+
                        " likely contains large content")]
          else []) <$> fields typeInfo)
  else [].

(** [generateOpenTargetsChunkingRules] for the schema handed to
    [configureSchemaAwareness]. *)
Definition generateOpenTargetsChunkingRules (schemaInfo : GraphQLSchemaInfo)
  : list FieldChunkingRule :=
  (baseRules ++
   mjoin ((fun '(typeName', typeInfo) => fieldRules typeName' typeInfo) <$> types schemaInfo))%list.

Definition getApplicableChunkingRule (chunkingRules : list FieldChunkingRule)
           (fieldName' typeName' : string) : option FieldChunkingRule :=
  match List.find (fun r => (String.eqb (fieldName r) fieldName' &&
                             String.eqb (typeName r) typeName')%bool) chunkingRules with
  | Some rule => Some rule
  | None =>
      List.find (fun r => (String.eqb (fieldName r) fieldName' &&
                           String.eqb (typeName r) "*")%bool) chunkingRules
  end.

(** [n > chunkThreshold] *)
Definition exceeds (n : Z) (t : Threshold) : bool :=
  match t with
  | Finite k => Z.ltb k n
  | Infinity => false
  end.

Section SchemaAware.
Variable rt : Runtime.
Variable JSON_stringify : JsValue -> option string.

(** Store the text and return the reference token. *)
Definition storeAsReference (contentId' : string) (jsonString : string) : M JsValue :=
  let! metadata := storeChunkedContent rt contentId' jsonString json in
  ret (JStr (createContentReference metadata)).

(** The tail of [schemaAwareJsonStringify]: the size rule of
    [smartJsonStringify]. *)
Definition defaultBehaviour (contentId' : string) (jsonString : option string) : M JsValue :=
  match jsonString with
  | None => TypeError_length
  | Some s =>
      if negb (shouldChunk s) then ret (JStr s) else storeAsReference contentId' s
  end.

(** [schemaAwareJsonStringify]; [contentId'] is the identifier drawn if
    the text is stored. *)
Definition schemaAwareJsonStringify (chunkingRules : list FieldChunkingRule)
           (contentId' : string) (obj : JsValue) (typeName' fieldName' : string)
  : M JsValue :=
  let jsonString := JSON_stringify obj in
  match getApplicableChunkingRule chunkingRules fieldName' typeName' with
  | Some applicableRule =>
      match priority applicableRule with
      | never =>
          ret (match jsonString with Some s => JStr s | None => JUndefined end)
      | always =>
          match jsonString with
          | None => TypeError_length
          | Some s =>
              if exceeds (len s) (chunkThreshold applicableRule)
              then storeAsReference contentId' s
              else defaultBehaviour contentId' jsonString
          end
      | size_based =>
          match jsonString with
          | None => TypeError_length
          | Some s =>
              if exceeds (len s) (chunkThreshold applicableRule)
              then storeAsReference contentId' s
              else defaultBehaviour contentId' jsonString
          end
      end
  | None => defaultBehaviour contentId' jsonString
  end.
End SchemaAware.

(** The schema names every field by its key and carries no field
    description, as both parsers produce it. *)
Definition keyed_by_name (schemaInfo : GraphQLSchemaInfo) : Prop :=
  forall typeName' typeInfo fieldName' fieldInfo,
    In (typeName', typeInfo) (types schemaInfo) ->
    In (fieldName', fieldInfo) (fields typeInfo) ->
    name fieldInfo = fieldName' /\ description fieldInfo = None.

(** The name of a field contains one of the indicators. *)
Definition flagged (fieldName' : string) : bool :=
  existsb (fun indicator => includes (toLowerCase fieldName') indicator) largeContentIndicators.

(** The same rule with [always] and [size-based] exchanged. *)
Definition exchange (r : FieldChunkingRule) : FieldChunkingRule :=
  mkRule (fieldName r) (typeName r) (chunkThreshold r)
         (match priority r with
          | always => size_based
          | size_based => always
          | never => never
          end)
         (reason r).

End ChunkingRules.

(** ** Upper case *)

Module JsUpper.
Import JsString.

(** [toUpperCase] on one code unit: a-z and the Latin-1 small letters
    U+00E0..U+00FE (except the division sign U+00F7) move down by 32. *)
Definition upper_unit (c : ascii) : ascii :=
  if (is_lower c || (in_range 224 254 c && negb (N.eqb (code c) 247)))%bool
  then ascii_of_N (code c - 32)
  else c.

(** The upper case of U+00DF is the two units [SS].  The upper-case
    forms of U+00B5 and U+00FF lie above 255; the two units are kept, and
    a text that holds one of them is outside the model of [toUpperCase]. *)
Definition upper_char (c : ascii) : string :=
  if N.eqb (code c) 223 then "SS" else String (upper_unit c) EmptyString.

Fixpoint toUpperCase (s : string) : string :=
  match s with
  | EmptyString => EmptyString
  | String c s' => upper_char c +:+ toUpperCase s'
  end.

Definition upper_in_model (s : string) : bool :=
  Shape.all_chars (fun c => negb (N.eqb (code c) 181 || N.eqb (code c) 255)) s.

End JsUpper.

(** ** Table creation ([do.ts]) *)

Module CreateTables.
Import Js JsString Identifier Junction JsUpper.

Definition validTypes : list string :=
  ["INTEGER"; "REAL"; "TEXT"; "BLOB"; "NUMERIC";
   "INTEGER PRIMARY KEY"; "INTEGER PRIMARY KEY AUTOINCREMENT"; "JSON"].

Definition typeMap : list (string * string) :=
  [("STRING", "TEXT"); ("VARCHAR", "TEXT"); ("CHAR", "TEXT"); ("CLOB", "TEXT");
   ("INT", "INTEGER"); ("BIGINT", "INTEGER"); ("SMALLINT", "INTEGER");
   ("TINYINT", "INTEGER"); ("FLOAT", "REAL"); ("DOUBLE", "REAL");
   ("DECIMAL", "NUMERIC"); ("BOOLEAN", "INTEGER"); ("BOOL", "INTEGER");
   ("DATE", "TEXT"); ("DATETIME", "TEXT"); ("TIMESTAMP", "TEXT")].

(** [validTypes.some(validType => upperType.includes(validType))] *)
Definition recognised (upperType : string) : bool :=
  existsb (fun validType => includes upperType validType) validTypes.

(** [validateSQLiteType].  The key of [typeMap[upperType]] is an
    upper-cased text; every property inherited from [Object.prototype]
    has a lower-case letter in its name, so only own keys are found. *)
Definition validateSQLiteType (type : JsValue) : string :=
  match type with
  | JStr type =>
      if is_empty type then "TEXT"
      else
        let upperType := toUpperCase type in
        if recognised upperType then type
        else default "TEXT" (own_term upperType typeMap)
  | _ => "TEXT"
  end.

Definition columnDef (column : string * string) : string :=
  validateAndFixIdentifier (fst column) KColumn +:+ " " +:+
  validateSQLiteType (JStr (snd column)).

Definition createTableSQL (tableName : string) (schema : TableSchema) : string :=
  "CREATE TABLE IF NOT EXISTS " +:+ validateAndFixIdentifier tableName KTable +:+
  " (" +:+ join ", " (columnDef <$> columns schema) +:+ ")".

Definition fallbackSQL (tableName : string) : string :=
  "CREATE TABLE IF NOT EXISTS " +:+ validateAndFixIdentifier tableName KTable +:+
  " (id INTEGER PRIMARY KEY AUTOINCREMENT, data_json TEXT)".

Section Create.
Context {DB : Type}.
(** [this.ctx.storage.sql.exec(statement)] *)
Variable sql_exec : string -> DB -> Result unit * DB.

(** The body of the loop of [createTables] for one schema: a table
    without columns is skipped; when the statement fails, the fallback
    table is tried and its failure ignored. *)
Definition createTable (entry : string * TableSchema) (db : DB) : DB :=
  let '(tableName, schema) := entry in
  if Nat.eqb (length (columnDef <$> columns schema)) 0 then db
  else
    match sql_exec (createTableSQL tableName schema) db with
    | (Ok _, db') => db'
    | (Throw _, db') => snd (sql_exec (fallbackSQL tableName) db')
    end.

Definition createTables (schemas : list (string * TableSchema)) (db : DB) : DB :=
  fold_left (fun db entry => createTable entry db) schemas db.
End Create.

End CreateTables.

(** ** Query with reconstitution ([do.ts]) *)

Module EnhancedSql.
Import Js JsString ChunkingEngine Reconstitution SqlGate.

(** The response object of [executeEnhancedSql]. *)
Inductive EnhancedResponse : Type :=
| EnhancedSuccess (results : list (list (string * JsValue))) (row_count : Z)
                  (column_names : list string) (query_type : option string)
                  (chunked_content_resolved : bool)
| EnhancedFailure (error : string) (query : string).

(** The rows of a result as the array of objects [toArray()] yields. *)
Definition rows_value (results : list (list (string * JsValue))) : JsValue :=
  JArr (JObj <$> results).

Section Enhanced.
Context {DB : Type}.
Variable sql_exec :
  string -> DB -> Result (list (list (string * JsValue)) * list string) * DB.
(** The two system tables of the chunk store as the database holds them. *)
Variable chunk_tables : DB -> Store.
Variable rt : Runtime.
Variable JSON_parse : string -> Result JsValue.
Variable JSON_stringify : JsValue -> option string.

Definition executeEnhancedSql (sqlQuery : string) (db : DB) : EnhancedResponse * DB :=
  match executeSql sql_exec sqlQuery db with
  | (SqlFailure error query, db') => (EnhancedFailure error query, db')
  | (SqlSuccess results row_count column_names query_type, db') =>
      let enhancedResults :=
        resolveChunkedContentInResults rt JSON_parse (chunk_tables db') results in
      (EnhancedSuccess enhancedResults row_count column_names query_type
         (negb (Nat.eqb (length enhancedResults) (length results)) ||
          negb (bool_decide (JSON_stringify (rows_value enhancedResults) =
                             JSON_stringify (rows_value results)))),
       db')
  end.
End Enhanced.

(** No cell of the result is a reference token. *)
Definition reference_free (results : list (list (string * JsValue))) : Prop :=
  Forall (Forall (fun cell : string * JsValue => isContentReference (snd cell) = false)) results.

End EnhancedSql.

(** ** Entity extraction rules ([SchemaParser.ts]) *)

Module ExtractionRule.
(** [FieldExtractionRule] *)
Record FieldExtractionRule : Type := mkExtractionRule {
  fieldName : string;
  typeName : string;
  shouldExtractEntities : bool;
  targetEntityType : option string;
  isListField : bool
}.
End ExtractionRule.

Module SchemaParser.
Import Js JsString JsUpper GraphQL.
Export ExtractionRule (FieldExtractionRule, mkExtractionRule).

(** The answer of [shouldExtractEntities]. *)
Record Extraction : Type := mkExtraction {
  extract : bool;
  targetType : option string;
  isListField : bool
}.

Definition scalarTypes : list string :=
  ["String"; "Int"; "Float"; "Boolean"; "ID"; "DateTime"; "ISO8601DateTime"].

(** [c === c.toUpperCase()] for a one-unit string; the two units whose
    upper-case form lies above 255 differ from it. *)
Definition own_upper (c : ascii) : bool :=
  (String.eqb (String c EmptyString) (upper_char c) &&
   negb (N.eqb (code c) 181 || N.eqb (code c) 255))%bool.

(** [isEntityType]: [typeName[0]] of the empty text is [undefined]. *)
Definition isEntityType (typeName' : string) : Result bool :=
  if list_includes scalarTypes typeName' then Ok false
  else
    match typeName' with
    | EmptyString => Throw "Cannot read properties of undefined (reading 'toUpperCase')"
    | String c _ => Ok (own_upper c)
    end.

(** The rule pushed for one field: both tests of the loop body evaluate
    [isEntityType] on the type of the field, the first when the field is
    a list and the second when it is not. *)
Definition fieldRule (typeName' fieldName' : string) (fieldInfo : GraphQLFieldInfo)
  : Result FieldExtractionRule :=
  match isEntityType (type fieldInfo) with
  | Throw e => Throw e
  | Ok true =>
      Ok (mkExtractionRule fieldName' typeName' true (Some (type fieldInfo)) (isList fieldInfo))
  | Ok false =>
      Ok (mkExtractionRule fieldName' typeName' false None (isList fieldInfo))
  end.

(** The inner loop: rules are pushed on [this.extractionRules] one by
    one; a throw leaves the rules pushed so far. *)
Fixpoint fieldRules (typeName' : string) (fields' : list (string * GraphQLFieldInfo))
         (extractionRules : list FieldExtractionRule)
  : list FieldExtractionRule * Result unit :=
  match fields' with
  | [] => (extractionRules, Ok tt)
  | (fieldName', fieldInfo) :: rest =>
      match fieldRule typeName' fieldName' fieldInfo with
      | Throw e => (extractionRules, Throw e)
      | Ok rule => fieldRules typeName' rest (extractionRules ++ [rule])
      end
  end.

Fixpoint typeRules (types' : list (string * GraphQLTypeInfo))
         (extractionRules : list FieldExtractionRule)
  : list FieldExtractionRule * Result unit :=
  match types' with
  | [] => (extractionRules, Ok tt)
  | (typeName', typeInfo) :: rest =>
      match fieldRules typeName' (fields typeInfo) extractionRules with
      | (extractionRules, Throw e) => (extractionRules, Throw e)
      | (extractionRules, Ok _) => typeRules rest extractionRules
      end
  end.

Definition globalRules : list FieldExtractionRule :=
  [mkExtractionRule "id" "*" false None false;
   mkExtractionRule "ensemblId" "*" false None false;
   mkExtractionRule "efoId" "*" false None false;
   mkExtractionRule "chemblId" "*" false None false;
   mkExtractionRule "name" "*" false None false;
   mkExtractionRule "description" "*" false None false].

(** [generateExtractionRules] for the schema just parsed: the value of
    [this.extractionRules] it leaves, and its outcome. *)
Definition generateExtractionRules (schemaInfo : GraphQLSchemaInfo)
  : list FieldExtractionRule * Result unit :=
  match typeRules (types schemaInfo) [] with
  | (extractionRules, Throw e) => (extractionRules, Throw e)
  | (extractionRules, Ok _) => ((extractionRules ++ globalRules)%list, Ok tt)
  end.

(** The stems of [entityFieldPatterns]: each pattern is
    [/.*<stem>s?$/i], which matches exactly the texts that end in the
    stem or in the stem followed by [s], letters compared ignoring
    case. *)
Definition entityFieldPatterns : list string :=
  ["target"; "disease"; "drug"; "evidence"; "studie"; "association"; "variant"; "gene"].

Definition pattern_test (stem fieldName' : string) : bool :=
  (endsWith (toLowerCase fieldName') stem ||
   endsWith (toLowerCase fieldName') (stem +:+ "s"))%bool.

(** [inferTargetType] *)
Definition inferTargetType (fieldName' : string) : string :=
  let singular := if endsWith fieldName' "s" then drop_last 1 fieldName' else fieldName' in
  match singular with
  | EmptyString => EmptyString
  | String c rest => upper_char c +:+ rest
  end.

Definition shouldExtractEntities (extractionRules : list FieldExtractionRule)
           (typeName' fieldName' : string) : Extraction :=
  match List.find
          (fun r => ((String.eqb (ExtractionRule.typeName r) typeName' ||
                      String.eqb (ExtractionRule.typeName r) "*") &&
                     String.eqb (ExtractionRule.fieldName r) fieldName')%bool)
          extractionRules with
  | Some rule =>
      mkExtraction (ExtractionRule.shouldExtractEntities rule)
                   (ExtractionRule.targetEntityType rule)
                   (ExtractionRule.isListField rule)
  | None =>
      let suggestsEntities :=
        existsb (fun stem => pattern_test stem fieldName') entityFieldPatterns in
      mkExtraction suggestsEntities (Some (inferTargetType fieldName'))
                   (endsWith fieldName' "s")
  end.

(** The name starts with a letter a-z. *)
Definition starts_lower (s : string) : bool :=
  match s with
  | String c _ => is_lower c
  | EmptyString => false
  end.

(** A rule that extracts names a type that does not start with a-z. *)
Definition capital_target (rule : FieldExtractionRule) : Prop :=
  ExtractionRule.shouldExtractEntities rule = true ->
  exists T, ExtractionRule.targetEntityType rule = Some T /\ starts_lower T = false.

End SchemaParser.

(** ** Own properties of payload values *)

Module Payload.
Import Js JsString.

(** [Object.entries(v)] of an object or an array. *)
Definition entries (v : JsValue) : list (string * JsValue) :=
  match v with
  | JObj fields => fields
  | JArr items => imap (fun i item => (pretty i, item)) items
  | _ => []
  end.

(** [v[k]] for an own enumerable key [k] of [v]. *)
Definition own_get (v : JsValue) (k : string) : JsValue :=
  default JUndefined (assoc k (entries v)).

Definition is_null (v : JsValue) : bool :=
  match v with JNull => true | _ => false end.

Definition is_boolean (v : JsValue) : bool :=
  match v with JBool _ => true | _ => false end.

Definition number (z : Z) : JsValue := JNum (NFin (inject_Z z)).

(** [typeof v === 'boolean' ? (v ? 1 : 0) : v] *)
Definition boolean_as_number (v : JsValue) : JsValue :=
  match v with
  | JBool true => number 1
  | JBool false => number 0
  | _ => v
  end.

(** The text of a property key: a string is its own text; the built-in
    function [Object] prints as V8 prints a native function. *)
Definition key_text (v : JsValue) : string :=
  match v with
  | JStr s => s
  | JFun name => "function " +:+ name +:+ "() { [native code] }"
  | _ => EmptyString
  end.

(** [delete r[k]] on a record. *)
Definition record_delete {X : Type} (r : list (string * X)) (k : string)
  : list (string * X) :=
  List.filter (fun entry => negb (String.eqb (fst entry) k)) r.

(** A value that is not an object: [typeof v !== 'object'] or [null]. *)
Definition scalar (v : JsValue) : bool := (is_null v || negb (typeof_object v))%bool.

End Payload.

(** ** Field extraction and table schemas ([SchemaInferenceEngine.ts]) *)

Module FieldExtraction.
Import Js JsString Identifier SchemaInferenceEngine Junction Payload.

Definition ColumnTypes : Type := list (string * list string).
Definition Row : Type := list (string * JsValue).

Definition ensureIdColumn (columns : list (string * string)) : list (string * string) :=
  match record_get columns "id" with
  | None => record_set columns "id" "INTEGER PRIMARY KEY AUTOINCREMENT"
  | Some t =>
      if is_empty t then record_set columns "id" "INTEGER PRIMARY KEY AUTOINCREMENT"
      else if String.eqb t "INTEGER" then record_set columns "id" "INTEGER PRIMARY KEY"
      else columns
  end.

(** [Object.values(obj).some(value => typeof value !== 'object' || value === null)] *)
Definition hasScalarFields (obj : JsValue) : bool :=
  if (negb (truthy obj) || negb (typeof_object obj))%bool then false
  else existsb (fun entry => (negb (typeof_object (snd entry)) || is_null (snd entry))%bool)
               (entries obj).

Section Extraction.
(** [JSON.stringify], and the sequence of random suffixes
    [Math.random().toString(36).substr(2, 9)]: every call of a sanitiser
    takes the next one. *)
Variable JSON_stringify : JsValue -> option string.
Variable random36 : nat -> string.

Definition json_text (v : JsValue) : JsValue :=
  match JSON_stringify v with
  | Some s => JStr s
  | None => JUndefined
  end.

(** The column name made of a key, as a property key. *)
Definition columnOf (n : nat) (key : string) : string :=
  key_text (sanitizeColumnName (random36 n) (JStr key)).

(** The loop of [extractSimpleFields] over the entries of an object;
    [n] counts the random suffixes taken so far. *)
Fixpoint simpleFieldsLoop (fields : list (string * JsValue)) (columnTypes : ColumnTypes)
         (rowData : Row) (n : nat) : Row * ColumnTypes * nat :=
  match fields with
  | [] => (rowData, columnTypes, n)
  | (key, value) :: rest =>
      let columnName := columnOf n key in
      if scalar value then
        simpleFieldsLoop rest
          (addColumnType columnTypes columnName (getSQLiteType value))
          (record_set rowData columnName (boolean_as_number value)) (S n)
      else
        simpleFieldsLoop rest
          (addColumnType columnTypes (columnName +:+ "_json") "TEXT")
          (record_set rowData (columnName +:+ "_json") (json_text value)) (S n)
  end.

Definition extractSimpleFields (obj : JsValue) (columnTypes : ColumnTypes) (n : nat)
  : Row * ColumnTypes * nat :=
  if scalar obj then
    ([("value", obj)], addColumnType columnTypes "value" (getSQLiteType obj), n)
  else if Array_isArray obj then
    ([("array_data_json", json_text obj)],
     addColumnType columnTypes "array_data_json" "TEXT", n)
  else simpleFieldsLoop (entries obj) columnTypes [] n.

Definition createSchemaFromObject (obj : JsValue) (n : nat) : TableSchema * nat :=
  let '(rowData, columnTypes, n) := extractSimpleFields obj [] n in
  (mkTableSchema (resolveColumnTypes columnTypes) [JObj rowData], n).

(** [items.forEach(item => ...)] of [createSchemaFromPrimitiveOrSimpleArray]:
    every item is read into the column types; [keep] tells whether the
    rows are pushed to the sample. *)
Fixpoint simpleItems (keep : bool) (items : list JsValue) (columnTypes : ColumnTypes)
         (sampleData : list Row) (n : nat) : list Row * ColumnTypes * nat :=
  match items with
  | [] => (sampleData, columnTypes, n)
  | item :: rest =>
      let '(row, columnTypes, n) := extractSimpleFields item columnTypes n in
      simpleItems keep rest columnTypes
                  (if keep then sampleData ++ [row] else sampleData)%list n
  end.

(** [s['value'] = s[c]; delete s[c]] *)
Definition renameToValue (c : string) (s : Row) : Row :=
  record_delete (record_set s "value" (default JUndefined (record_get s c))) c.

Definition createSchemaFromPrimitiveOrSimpleArray (data : JsValue) (n : nat)
  : TableSchema * nat :=
  let '(sampleData, columnTypes, n) :=
    match data with
    | JArr items =>
        let '(sampleData, columnTypes, n) := simpleItems true (take 3 items) [] [] n in
        if Nat.ltb 3 (length items)
        then simpleItems false (drop 3 items) columnTypes sampleData n
        else (sampleData, columnTypes, n)
    | _ =>
        let '(row, columnTypes, n) := extractSimpleFields data [] n in
        ([row], columnTypes, n)
    end in
  let columns := resolveColumnTypes columnTypes in
  let '(columns, sampleData) :=
    if (negb (list_includes (fst <$> columns) "id") &&
        negb (list_includes (fst <$> columns) "value"))%bool then
      match columns with
      | [(c, t)] =>
          if negb (String.eqb c "value")
          then (record_delete (record_set columns "value" t) c, renameToValue c <$> sampleData)
          else (columns, sampleData)
      | _ => (columns, sampleData)
      end
    else (columns, sampleData) in
  let columns :=
    if (Nat.eqb (length columns) 0 && is_null data)%bool
    then record_set columns "value" "TEXT"
    else columns in
  (mkTableSchema columns (JObj <$> sampleData), n).

(** The loop over the entries of a nested object whose scalar fields are
    flattened into prefixed columns. *)
Fixpoint flattenLoop (columnName : string) (fields : list (string * JsValue))
         (columnTypes : ColumnTypes) (rowData : Row) (n : nat)
  : Row * ColumnTypes * nat :=
  match fields with
  | [] => (rowData, columnTypes, n)
  | (subKey, subValue) :: rest =>
      if (negb (Array_isArray subValue) && negb (typeof_object subValue))%bool then
        let prefixedColumn := columnName +:+ "_" +:+ columnOf n subKey in
        flattenLoop columnName rest
          (addColumnType columnTypes prefixedColumn (getSQLiteType subValue))
          (record_set rowData prefixedColumn (boolean_as_number subValue)) (S n)
      else flattenLoop columnName rest columnTypes rowData n
  end.

(** [value[0]] of an array. *)
Definition first_item (items : list JsValue) : JsValue := default JUndefined (head items).

(** The loop of [extractEntityFields] over the entries of an object. *)
Fixpoint entityFieldsLoop (fields : list (string * JsValue)) (columnTypes : ColumnTypes)
         (rowData : Row) (n : nat) : Row * ColumnTypes * nat :=
  match fields with
  | [] => (rowData, columnTypes, n)
  | (key, value) :: rest =>
      let columnName := columnOf n key in
      let n := S n in
      match value with
      | JArr items =>
          if (Nat.ltb 0 (length items) && isEntity (first_item items))%bool
          then entityFieldsLoop rest columnTypes rowData n
          else
            entityFieldsLoop rest
              (addColumnType columnTypes (columnName +:+ "_json") "TEXT")
              (record_set rowData (columnName +:+ "_json") (json_text value)) n
      | JObj nested =>
          if isEntity value then
            let foreignKeyColumn := columnName +:+ "_id" in
            entityFieldsLoop rest
              (addColumnType columnTypes foreignKeyColumn "INTEGER")
              (record_set rowData foreignKeyColumn
                          (if truthy (get value "id") then get value "id" else JNull)) n
          else if hasScalarFields value then
            let '(rowData, columnTypes, n) :=
              flattenLoop columnName nested columnTypes rowData n in
            entityFieldsLoop rest columnTypes rowData n
          else
            entityFieldsLoop rest
              (addColumnType columnTypes (columnName +:+ "_json") "TEXT")
              (record_set rowData (columnName +:+ "_json") (json_text value)) n
      | _ =>
          entityFieldsLoop rest
            (addColumnType columnTypes columnName (getSQLiteType value))
            (record_set rowData columnName (boolean_as_number value)) n
      end
  end.

Definition extractEntityFields (obj : JsValue) (columnTypes : ColumnTypes) (n : nat)
  : Row * ColumnTypes * nat :=
  if (negb (truthy obj) || negb (typeof_object obj))%bool then
    ([("value", obj)], addColumnType columnTypes "value" (getSQLiteType obj), n)
  else entityFieldsLoop (entries obj) columnTypes [] n.

(** The [forEach] of [createSchemasFromEntities] over the entities of one
    type, from index [index]: the first three rows are the sample. *)
Fixpoint entityRows (entities : list JsValue) (index : nat) (columnTypes : ColumnTypes)
         (sampleData : list Row) (n : nat) : list Row * ColumnTypes * nat :=
  match entities with
  | [] => (sampleData, columnTypes, n)
  | entity :: rest =>
      let '(row, columnTypes, n) := extractEntityFields entity columnTypes n in
      entityRows rest (S index) columnTypes
                 (if Nat.ltb index 3 then sampleData ++ [row] else sampleData)%list n
  end.

(** The rows [extractEntityFields] composes for the entities in turn, each
    call starting from the column types and the draws its predecessor
    left. *)
Fixpoint composedRows (entities : list JsValue) (columnTypes : ColumnTypes) (n : nat)
  : list Row :=
  match entities with
  | [] => []
  | entity :: rest =>
      let '(row, columnTypes, n) := extractEntityFields entity columnTypes n in
      row :: composedRows rest columnTypes n
  end.

(** The schema [createSchemasFromEntities] stores for one entity type. *)
Definition entitySchema (entities : list JsValue) (n : nat) : TableSchema * nat :=
  let '(sampleData, columnTypes, n) := entityRows entities 0 [] [] n in
  (mkTableSchema (ensureIdColumn (resolveColumnTypes columnTypes)) (JObj <$> sampleData), n).

End Extraction.

(** The column types an entity table can have. *)
Definition inferredTypes : list string :=
  ["INTEGER"; "REAL"; "TEXT"; "INTEGER PRIMARY KEY"; "INTEGER PRIMARY KEY AUTOINCREMENT"].

(** The record has the key. *)
Definition has_key {X : Type} (r : list (string * X)) (k : string) : Prop :=
  record_get r k <> None.

(** Every observation set holds results of [getSQLiteType] only. *)
Definition base_typed (columnTypes : ColumnTypes) : Prop :=
  Forall (fun entry => Forall (fun t => In t ["INTEGER"; "REAL"; "TEXT"]) (snd entry))
         columnTypes.

(** The keys of the row are columns. *)
Definition row_in (rowData : Row) (columnTypes : ColumnTypes) : Prop :=
  forall k, has_key rowData k -> has_key columnTypes k.

(** The column types only grow. *)
Definition grows (before after : ColumnTypes) : Prop :=
  forall k, has_key before k -> has_key after k.

End FieldExtraction.

(** ** Row composition and simple insertion ([DataInsertionEngine.ts]) *)

Module RowMapping.
Import Js JsString Identifier SchemaInferenceEngine Junction DataInsertionEngine.
Import ChunkingEngine ChunkingMaintenance Payload FieldExtraction.

(** What an insertion run works on: the chunk store, the numbers of
    random suffixes and of content identifiers taken so far, and the
    statements issued on the data tables. *)
Record Env : Type := mkEnv {
  chunk_store : Store;
  draws : nat;
  ids : nat;
  issued : list SqlCall
}.

(** Computations of the insertion engine. *)
Definition I (A : Type) : Type := Env -> Result A * Env.

Definition unit_I {A : Type} (a : A) : I A := fun env => (Ok a, env).

Definition bind_I {A B : Type} (m : I A) (f : A -> I B) : I B :=
  fun env =>
    match m env with
    | (Ok a, env') => f a env'
    | (Throw e, env') => (Throw e, env')
    end.

Notation "'run!' x ':=' m 'in' k" := (bind_I m (fun x => k))
  (at level 10, x name, m at level 100, k at level 200).

(** [s.replace(/-/g, '')] *)
Fixpoint remove_dashes (s : string) : string :=
  match s with
  | EmptyString => EmptyString
  | String c s' => if Ascii.eqb c "-" then remove_dashes s' else String c (remove_dashes s')
  end.

(** [obj.hasOwnProperty(k)]: the own keys and, for an array, [length]. *)
Definition hasOwnProperty (obj : JsValue) (k : string) : bool :=
  (list_includes (Object_keys obj) k || (Array_isArray obj && String.eqb k "length"))%bool.

(** [obj[k]] for a key for which [hasOwnProperty] holds. *)
Definition own_read (obj : JsValue) (k : string) : JsValue :=
  match obj with
  | JArr items =>
      if list_includes (Object_keys obj) k then own_get obj k
      else if String.eqb k "length" then number (Z.of_nat (length items))
      else JUndefined
  | _ => own_get obj k
  end.

(** [schema.columns[k]] is a non-empty text. *)
Definition has_column (schema : TableSchema) (k : string) : bool :=
  match record_get (columns schema) k with
  | Some t => negb (is_empty t)
  | None => false
  end.

Section Mapping.
Variable rt : Runtime.
Variable JSON_stringify : JsValue -> option string.
(** [random36 n] is the suffix drawn by the call number [n] of a
    sanitiser, if that call draws one; [randomUUID n] is the value of
    [crypto.randomUUID()] in the call number [n] of [storeChunkedContent]. *)
Variable random36 : nat -> string.
Variable randomUUID : nat -> string.

Definition generateContentId (n : nat) : string := "chunk_" +:+ remove_dashes (randomUUID n).

(** [chunkingEngine.smartJsonStringify(obj, sql)] *)
Definition stringify (obj : JsValue) : I JsValue :=
  fun env =>
    let stored :=
      match JSON_stringify obj with
      | Some jsonString => shouldChunk jsonString
      | None => false
      end in
    let '(r, db) :=
      smartJsonStringify rt JSON_stringify (generateContentId (ids env)) obj (chunk_store env) in
    (match r with Ok s => Ok (JStr s) | Throw e => Throw e end,
     mkEnv db (draws env) (if stored then S (ids env) else ids env) (issued env)).

(** [keys.find(key => this.sanitizeColumnName(key) === sanitizedKey)] *)
Fixpoint findKey (keys : list string) (sanitizedKey : string) (n : nat)
  : option string * nat :=
  match keys with
  | [] => (None, n)
  | key :: rest =>
      match sanitizeColumnName (random36 n) (JStr key) with
      | JStr s =>
          if String.eqb s sanitizedKey then (Some key, S n)
          else findKey rest sanitizedKey (S n)
      | _ => findKey rest sanitizedKey (S n)
      end
  end.

(** [findOriginalKey]: a key or [null]. *)
Definition findOriginalKey (obj : JsValue) (sanitizedKey : string) : I JsValue :=
  fun env =>
    let keys := Object_keys obj in
    if list_includes keys sanitizedKey then (Ok (JStr sanitizedKey), env)
    else
      let '(found, n) := findKey keys sanitizedKey (draws env) in
      (Ok (match found with
           | Some key => if is_empty key then JNull else JStr key
           | None => JNull
           end),
       mkEnv (chunk_store env) n (ids env) (issued env)).

(** The value [mapEntityToSchema] computes for one column; [null] when
    the column is left out. *)
Definition entityColumnValue (obj : JsValue) (columnName : string) : I JsValue :=
  if (endsWith columnName "_id" && negb (includes columnName "_json"))%bool then
    let baseKey := drop_last 3 columnName in
    run! originalKey := findOriginalKey obj baseKey in
    let related := own_get obj (string_of originalKey) in
    if (truthy originalKey && truthy related && typeof_object related)%bool
    then unit_I (if truthy (get related "id") then get related "id" else JNull)
    else unit_I JNull
  else if (includes columnName "_" && negb (endsWith columnName "_json"))%bool then
    let parts := split_on "_" columnName in
    if Nat.leb 2 (length parts) then
      let baseKey := default EmptyString (head parts) in
      let subKey := join "_" (tail parts) in
      run! originalKey := findOriginalKey obj baseKey in
      let nestedObj := own_get obj (string_of originalKey) in
      if (truthy originalKey && truthy nestedObj && typeof_object nestedObj)%bool then
        run! originalSubKey := findOriginalKey nestedObj subKey in
        if (truthy originalSubKey &&
            negb (is_undefined (own_get nestedObj (string_of originalSubKey))))%bool
        then unit_I (boolean_as_number (own_get nestedObj (string_of originalSubKey)))
        else unit_I JNull
      else unit_I JNull
    else unit_I JNull
  else if endsWith columnName "_json" then
    let baseKey := drop_last 5 columnName in
    run! originalKey := findOriginalKey obj baseKey in
    let nested := own_get obj (string_of originalKey) in
    if (truthy originalKey && truthy nested && typeof_object nested)%bool
    then stringify nested
    else unit_I JNull
  else
    run! originalKey := findOriginalKey obj columnName in
    let value := own_get obj (string_of originalKey) in
    if (truthy originalKey && negb (is_undefined value))%bool then
      match value with
      | JArr items =>
          if (Nat.ltb 0 (length items) && isEntity (first_item items))%bool
          then unit_I JNull
          else unit_I value
      | _ => unit_I (boolean_as_number value)
      end
    else unit_I JNull.

(** The loop of [mapEntityToSchema] over the columns of the schema. *)
Fixpoint entityColumns (obj : JsValue) (schema : TableSchema) (columnNames : list string)
         (rowData : Row) : I Row :=
  match columnNames with
  | [] => unit_I rowData
  | columnName :: rest =>
      if (String.eqb columnName "id" &&
          includes (default EmptyString (record_get (columns schema) columnName))
                   "AUTOINCREMENT")%bool
      then entityColumns obj schema rest rowData
      else
        run! value := entityColumnValue obj columnName in
        entityColumns obj schema rest
          (if (is_null value || is_undefined value)%bool then rowData
           else record_set rowData columnName value)
  end.

Definition mapEntityToSchema (obj : JsValue) (schema : TableSchema) : I Row :=
  if (negb (truthy obj) || negb (typeof_object obj))%bool then
    unit_I (if has_column schema "value" then [("value", obj)] else [])
  else entityColumns obj schema (fst <$> columns schema) [].

(** [typeof val === 'boolean' ? ... : typeof val === 'object' && val !== null
    ? await smartJsonStringify(val) : val] *)
Definition simpleValue (val : JsValue) : I JsValue :=
  if is_boolean val then unit_I (boolean_as_number val)
  else if (typeof_object val && negb (is_null val))%bool then stringify val
  else unit_I val.

(** The last resort of the loop body: [obj.hasOwnProperty(columnName) &&
    obj[columnName] !== undefined].  In an object that has an own
    property called [hasOwnProperty] the method is shadowed by a value
    that cannot be called. *)
Definition directMatch (obj : JsValue) (columnName : string) (rowData : Row) : I Row :=
  if list_includes (Object_keys obj) "hasOwnProperty"
  then fun env => (Throw "obj.hasOwnProperty is not a function", env)
  else if (hasOwnProperty obj columnName && negb (is_undefined (own_read obj columnName)))%bool
  then run! valueToInsert := simpleValue (own_read obj columnName) in
       unit_I (record_set rowData columnName valueToInsert)
  else unit_I rowData.

(** The body of the loop of [mapObjectToSimpleSchema] for one column. *)
Definition simpleColumn (obj : JsValue) (columnName : string) (rowData : Row) : I Row :=
  run! found :=
    (if endsWith columnName "_json" then
       let baseKey := drop_last 5 columnName in
       run! originalKey := findOriginalKey obj baseKey in
       if (truthy originalKey &&
           negb (is_undefined (own_get obj (string_of originalKey))))%bool
       then run! valueToInsert := stringify (own_get obj (string_of originalKey)) in
            unit_I (Some valueToInsert)
       else unit_I None
     else
       run! originalKey := findOriginalKey obj columnName in
       if (truthy originalKey &&
           negb (is_undefined (own_get obj (string_of originalKey))))%bool
       then run! valueToInsert := simpleValue (own_get obj (string_of originalKey)) in
            unit_I (Some valueToInsert)
       else unit_I None) in
  match found with
  | Some valueToInsert =>
      if negb (is_undefined valueToInsert)
      then unit_I (record_set rowData columnName valueToInsert)
      else directMatch obj columnName rowData
  | None => directMatch obj columnName rowData
  end.

Fixpoint simpleColumns (obj : JsValue) (columnNames : list string) (rowData : Row) : I Row :=
  match columnNames with
  | [] => unit_I rowData
  | columnName :: rest =>
      run! rowData := simpleColumn obj columnName rowData in
      simpleColumns obj rest rowData
  end.

Definition mapObjectToSimpleSchema (obj : JsValue) (schema : TableSchema) : I Row :=
  if scalar obj then
    unit_I (if has_column schema "value" then [("value", obj)]
            else match columns schema with
                 | (firstCol, _) :: _ => [(firstCol, obj)]
                 | [] => []
                 end)
  else simpleColumns obj (fst <$> columns schema) [].

Definition insertSQL (tableName : string) (rowData : Row) : string :=
  "INSERT INTO " +:+ tableName +:+ " (" +:+ join ", " (fst <$> rowData) +:+
  ") VALUES (" +:+ join ", " ((fun _ => "?") <$> rowData) +:+ ")".

(** [sql.exec(statement, ...values)] on a data table: the statement is
    recorded; the run is followed as long as the engine accepts what it
    is given. *)
Definition exec (statement : string) (values : list JsValue) : I unit :=
  fun env =>
    (Ok tt, mkEnv (chunk_store env) (draws env) (ids env)
                  (issued env ++ [mkSqlCall statement values])).

Definition insertSimpleRow (obj : JsValue) (tableName : string) (schema : TableSchema)
  : I unit :=
  run! rowData := mapObjectToSimpleSchema obj schema in
  if (Nat.eqb (length rowData) 0 &&
      negb (String.eqb tableName "scalar_data" && is_null obj))%bool
  then unit_I tt
  else exec (insertSQL tableName rowData) (snd <$> rowData).

Fixpoint insertSimpleRows (items : list JsValue) (tableName : string) (schema : TableSchema)
  : I unit :=
  match items with
  | [] => unit_I tt
  | item :: rest =>
      run! inserted := insertSimpleRow item tableName schema in
      insertSimpleRows rest tableName schema
  end.

(** [insertData]; [entityPhases] stands for the two phases that follow
    the test for the fallback schemas. *)
Definition insertData (entityPhases : JsValue -> list (string * TableSchema) -> I unit)
           (data : JsValue) (schemas : list (string * TableSchema)) : I unit :=
  match schemas with
  | [(tableName, schema)] =>
      if (String.eqb tableName "scalar_data" || String.eqb tableName "array_data" ||
          String.eqb tableName "root_object")%bool then
        if (String.eqb tableName "scalar_data" || String.eqb tableName "root_object")%bool
        then insertSimpleRow data tableName schema
        else
          match data with
          | JArr items => insertSimpleRows items tableName schema
          | _ => insertSimpleRow data tableName schema
          end
      else entityPhases data schemas
  | _ => entityPhases data schemas
  end.
End Mapping.

(** No value under a key of the object is an object or an array. *)
Definition flat (fields : list (string * JsValue)) : Prop :=
  Forall (fun entry => scalar (snd entry) = true) fields.

(** The run has changed nothing but the number of random suffixes taken. *)
Definition only_draws (before after : Env) : Prop :=
  chunk_store after = chunk_store before /\ ids after = ids before /\
  issued after = issued before.

(** The statement that inserts one scalar into the fallback table of an
    array. *)
Definition insertItem (item : JsValue) : SqlCall :=
  mkSqlCall "INSERT INTO array_data (value) VALUES (?)" [item].

(** The keys of a flat object normalise, whatever the random suffixes, to
    the column names [names], one each. *)
Definition normalises (fields : list (string * JsValue)) (names : list string) : Prop :=
  Forall2 (fun entry c =>
             Shape.has_alnum (fst entry) = true /\
             forall r, sanitizeColumnName r (JStr (fst entry)) = JStr c)
          fields names.

End RowMapping.

(** ** Entity discovery and [inferFromJSON] ([SchemaInferenceEngine.ts]) *)

Module Discovery.
Import Js JsString Identifier SchemaInferenceEngine Junction Payload FieldExtraction.

(** The state of the engine during discovery: the map
    [discoveredEntities] and the map [entityRelationships], both in
    insertion order, and the number of calls made so far to the functions
    that may draw a random suffix. *)
Record Found : Type := mkFound {
  discoveredEntities : list (string * list JsValue);
  entityRelationships : Relationships;
  calls : nat
}.

(** [const entitiesOfType = this.discoveredEntities.get(t) || [];
     entitiesOfType.push(item); this.discoveredEntities.set(t, entitiesOfType)] *)
Definition push (entityType : string) (item : JsValue) (d : Found) : Found :=
  mkFound (record_set (discoveredEntities d) entityType
                      (default [] (record_get (discoveredEntities d) entityType) ++ [item])%list)
          (entityRelationships d) (calls d).

(** [this.recordRelationship(fromTable, toTable)] *)
Definition relate (fromTable toTable : string) (d : Found) : Found :=
  mkFound (discoveredEntities d)
          (recordRelationship (entityRelationships d) fromTable toTable)
          (calls d).

(** [!s] for a string that may be [null] or [undefined]. *)
Definition missing (s : option string) : bool :=
  match s with
  | Some s => is_empty s
  | None => true
  end.

(** [edges.map(edge => edge.node).filter(Boolean)]: reading [node] of
    [null] or [undefined] throws. *)
Fixpoint nodesOf (edges : list JsValue) : Result (list JsValue) :=
  match edges with
  | [] => Ok []
  | edge :: rest =>
      match edge with
      | JNull => Throw "Cannot read properties of null (reading 'node')"
      | JUndefined => Throw "Cannot read properties of undefined (reading 'node')"
      | _ =>
          match nodesOf rest with
          | Ok nodes => Ok (if truthy (get edge "node") then get edge "node" :: nodes else nodes)
          | Throw e => Throw e
          end
      end
  end.

Definition items_of (v : JsValue) : list JsValue :=
  match v with JArr items => items | _ => [] end.

(** Every discovered value is an entity, and no entry is empty. *)
Definition entities_only (d : Found) : Prop :=
  Forall (fun entry : string * list JsValue =>
            snd entry <> [] /\ Forall (fun v => isEntity v = true) (snd entry))
         (discoveredEntities d).

(** The entities listed under a type. *)
Definition listed (d : Found) (entityType : string) : list JsValue :=
  default [] (record_get (discoveredEntities d) entityType).

(** What is listed stays listed. *)
Definition keeps (d d' : Found) : Prop :=
  forall entityType item, In item (listed d entityType) -> In item (listed d' entityType).

(** A step of discovery keeps what is listed and lists entities only. *)
Definition careful (d d' : Found) : Prop :=
  keeps d d' /\ (entities_only d -> entities_only d').

Definition items_satisfy (P : JsValue -> Prop) (v : JsValue) : Prop :=
  match v with
  | JArr items => Forall P items
  | _ => True
  end.

(** [for (const x of l) body(x)] on a state, and the same loop with a
    body that may throw. *)
Definition forEach {A S : Type} (body : A -> S -> S) (l : list A) (s : S) : S :=
  fold_left (fun s x => body x s) l s.

Definition forEachOk {A S : Type} (body : A -> S -> Result S) (l : list A) (s : S)
  : Result S :=
  fold_left (fun r x => match r with Ok s => body x s | Throw e => Throw e end) l (Ok s).

Section Discover.
(** [random36 n] is the suffix drawn by the call number [n], if that call
    draws one. *)
Variable random36 : nat -> string.

(** [this.inferEntityType(item, path)] *)
Definition infer (item : JsValue) (path : list string) (d : Found) : string * Found :=
  (inferEntityType (random36 (calls d)) item path,
   mkFound (discoveredEntities d) (entityRelationships d) (S (calls d))).

(** The entity found as the value of a property or as an item of an
    array property: it is listed under [relatedEntityType] and its own
    properties are processed by [process]. *)
Definition related (process : JsValue -> string -> Found -> Found)
           (relatedEntityType : string) (item : JsValue) (d : Found) : Found :=
  process item relatedEntityType (push relatedEntityType item d).

(** The body of the loop of [processEntityProperties] for one property;
    [process] is [processEntityProperties] itself. *)
Definition property (process : JsValue -> string -> Found -> Found)
           (entityType key : string) (value : JsValue) (d : Found) : Found :=
  match value with
  | JArr ((_ :: _) as items) =>
      match List.find isEntity items with
      | Some firstItem =>
          let '(relatedEntityType, d) := infer firstItem [key] d in
          let d := relate entityType relatedEntityType d in
          forEach (fun item d =>
                     if isEntity item then related process relatedEntityType item d else d)
                  items d
      | None => d
      end
  | _ =>
      if (truthy value && typeof_object value && isEntity value)%bool then
        let '(relatedEntityType, d) := infer value [key] d in
        let d := relate entityType relatedEntityType d in
        related process relatedEntityType value d
      else d
  end.

(** [processEntityProperties]; it is called on entities only, which are
    objects. *)
Fixpoint processEntityProperties (entity : JsValue) (entityType : string) (d : Found)
         {struct entity} : Found :=
  match entity with
  | JObj fields =>
      forEach (fun field d =>
                 property processEntityProperties entityType (fst field) (snd field) d)
              fields d
  | _ => d
  end.

(** [processEntityProperties] on [v] keeps what is listed and lists
    entities only. *)
Definition sound (v : JsValue) : Prop :=
  forall entityType d, careful d (processEntityProperties v entityType d).

(** The loop of [discoverEntities] over the items of an array;
    [arrayEntityType] is the local variable of that name. *)
Fixpoint arrayItems (items : list JsValue) (path : list string)
         (parentEntityType arrayEntityType : option string) (d : Found) : Found :=
  match items with
  | [] => d
  | item :: rest =>
      if isEntity item then
        let '(entityType, d) :=
          if missing arrayEntityType then infer item path d
          else (default EmptyString arrayEntityType, d) in
        let d := push entityType item d in
        let d :=
          if (negb (missing parentEntityType) && Nat.ltb 0 (length path))%bool then
            let fieldName := from_end path 1 in
            if (negb (String.eqb fieldName "nodes") && negb (String.eqb fieldName "edges"))%bool
            then relate (default EmptyString parentEntityType) entityType d
            else d
          else d in
        let d := processEntityProperties item entityType d in
        arrayItems rest path parentEntityType (Some entityType) d
      else arrayItems rest path parentEntityType arrayEntityType d
  end.

(** [discoverEntities].  A call on an array runs the loop over its items
    and returns, so the calls on [nodes] and on [obj.rows] are written as
    that loop. *)
Fixpoint discoverEntities (obj : JsValue) (path : list string)
         (parentEntityType : option string) (d : Found) {struct obj} : Result Found :=
  match obj with
  | JArr items => Ok (arrayItems items path parentEntityType None d)
  | JObj fields =>
      if (truthy (get obj "edges") && Array_isArray (get obj "edges"))%bool then
        match nodesOf (items_of (get obj "edges")) with
        | Ok nodes =>
            if Nat.ltb 0 (length nodes)
            then Ok (arrayItems nodes path parentEntityType None d)
            else Ok d
        | Throw e => Throw e
        end
      else if (truthy (get obj "rows") && Array_isArray (get obj "rows"))%bool then
        Ok (arrayItems (items_of (get obj "rows")) path parentEntityType None d)
      else if isEntity obj then
        let '(entityType, d) := infer obj path d in
        Ok (processEntityProperties obj entityType (push entityType obj d))
      else
        forEachOk (fun field d =>
                     discoverEntities (snd field) (path ++ [fst field])%list
                                      parentEntityType d)
                  fields d
  | _ => Ok d
  end.

Variable JSON_stringify : JsValue -> option string.

(** The first loop of [createSchemasFromEntities]. *)
Fixpoint entityTables (discovered : list (string * list JsValue))
         (schemas : list (string * TableSchema)) (n : nat)
  : list (string * TableSchema) * nat :=
  match discovered with
  | [] => (schemas, n)
  | (entityType, entities) :: rest =>
      if Nat.eqb (length entities) 0 then entityTables rest schemas n
      else
        let '(schema, n) := entitySchema JSON_stringify random36 entities n in
        entityTables rest (record_set schemas entityType schema) n
  end.

Definition createSchemasFromEntities (d : Found) (schemas : list (string * TableSchema))
  : list (string * TableSchema) * nat :=
  let '(schemas, n) := entityTables (discoveredEntities d) schemas (calls d) in
  (createJunctionTableSchemas (entityRelationships d) schemas, n).

(** [inferFromJSON]; [n] is the number of draws made before the call. *)
Definition inferFromJSON (data : JsValue) (n : nat)
  : Result (list (string * TableSchema)) * nat :=
  match discoverEntities data [] None (mkFound [] [] n) with
  | Throw e => (Throw e, n)
  | Ok d =>
      if Nat.ltb 0 (length (discoveredEntities d)) then
        let '(schemas, n) := createSchemasFromEntities d [] in (Ok schemas, n)
      else if (negb (typeof_object data) || is_null data || Array_isArray data)%bool then
        let tableName := if Array_isArray data then "array_data" else "scalar_data" in
        let '(schema, n) :=
          createSchemaFromPrimitiveOrSimpleArray JSON_stringify random36 data (calls d) in
        (Ok [(tableName, schema)], n)
      else
        let '(schema, n) := createSchemaFromObject JSON_stringify random36 data (calls d) in
        (Ok [("root_object", schema)], n)
  end.

End Discover.

End Discovery.

(** ** Text and bytes of the platform *)

Module Unicode.
Import Js JsString.

(** A JavaScript string: the sequence of its UTF-16 code units, each
    below 65536. *)
Definition Text : Type := list N.

(** A [Uint8Array]. *)
Definition Bytes : Type := list Byte.byte.

(** The byte of a number, modulo 256. *)
Definition byte_of (n : N) : Byte.byte := byte_of_ascii (ascii_of_N n).

Definition is_lead_surrogate (u : N) : bool := (N.leb 55296 u && N.leb u 56319)%bool.
Definition is_trail_surrogate (u : N) : bool := (N.leb 56320 u && N.leb u 57343)%bool.

(** The scalar values of a string: a surrogate pair stands for one code
    point, a surrogate without its partner is read as U+FFFD. *)
Fixpoint scalarValues (t : Text) : list N :=
  match t with
  | [] => []
  | u :: rest =>
      if is_lead_surrogate u then
        match rest with
        | v :: rest' =>
            if is_trail_surrogate v
            then (65536 + (u - 55296) * 1024 + (v - 56320))%N :: scalarValues rest'
            else 65533%N :: scalarValues rest
        | [] => [65533%N]
        end
      else if is_trail_surrogate u then 65533%N :: scalarValues rest
      else u :: scalarValues rest
  end.

(** The UTF-8 bytes of a scalar value. *)
Definition utf8 (c : N) : list N :=
  if N.ltb c 128 then [c]
  else if N.ltb c 2048 then [192 + c / 64; 128 + c mod 64]%N
  else if N.ltb c 65536 then [224 + c / 4096; 128 + c / 64 mod 64; 128 + c mod 64]%N
  else [240 + c / 262144; 128 + c / 4096 mod 64; 128 + c / 64 mod 64; 128 + c mod 64]%N.

(** [new TextEncoder().encode(t)] *)
Definition TextEncoder_encode (t : Text) : Bytes :=
  byte_of <$> concat (utf8 <$> scalarValues t).

(** The state of the UTF-8 decoder. *)
Record Utf8Decoder : Type := mkUtf8Decoder {
  code_point : N;
  bytes_seen : N;
  bytes_needed : N;
  lower_boundary : N;
  upper_boundary : N
}.

Definition utf8_start : Utf8Decoder := mkUtf8Decoder 0 0 0 128 191.

(** A byte read when no byte is needed: the code points given out and
    the state that follows. *)
Definition utf8_lead (b : N) : list N * Utf8Decoder :=
  if N.leb b 127 then ([b], utf8_start)
  else if (N.leb 194 b && N.leb b 223)%bool then
    ([], mkUtf8Decoder (N.land b 31) 0 1 128 191)
  else if (N.leb 224 b && N.leb b 239)%bool then
    ([], mkUtf8Decoder (N.land b 15) 0 2
                       (if N.eqb b 224 then 160 else 128)
                       (if N.eqb b 237 then 159 else 191))
  else if (N.leb 240 b && N.leb b 244)%bool then
    ([], mkUtf8Decoder (N.land b 7) 0 3
                       (if N.eqb b 240 then 144 else 128)
                       (if N.eqb b 244 then 143 else 191))
  else ([65533%N], utf8_start).

(** The UTF-8 decoder with replacement: a byte out of place gives U+FFFD
    and is read again as the first byte of a sequence; so does the end of
    the input inside a sequence. *)
Fixpoint utf8_decode (bytes : list N) (d : Utf8Decoder) : list N :=
  match bytes with
  | [] => if N.eqb (bytes_needed d) 0 then [] else [65533%N]
  | b :: rest =>
      if N.eqb (bytes_needed d) 0 then
        let '(out, d') := utf8_lead b in (out ++ utf8_decode rest d')%list
      else if negb (N.leb (lower_boundary d) b && N.leb b (upper_boundary d)) then
        let '(out, d') := utf8_lead b in (65533%N :: out ++ utf8_decode rest d')%list
      else
        let c := N.lor (N.shiftl (code_point d) 6) (N.land b 63) in
        if N.eqb (bytes_seen d + 1) (bytes_needed d)
        then c :: utf8_decode rest utf8_start
        else utf8_decode rest (mkUtf8Decoder c (bytes_seen d + 1) (bytes_needed d) 128 191)
  end.

(** The UTF-16 code units of a code point. *)
Definition utf16 (c : N) : list N :=
  if N.ltb c 65536 then [c]
  else [55296 + (c - 65536) / 1024; 56320 + (c - 65536) mod 1024]%N.

(** What the decoder hands over: a U+FEFF at the very start is left out
    ([ignoreBOM] is false). *)
Definition without_bom (output : list N) : list N :=
  match output with
  | c :: rest => if N.eqb c 65279 then rest else output
  | [] => []
  end.

(** [new TextDecoder().decode(bytes)] *)
Definition TextDecoder_decode (bytes : Bytes) : Text :=
  concat (utf16 <$> without_bom (utf8_decode (Byte.to_N <$> bytes) utf8_start)).

(** [String.fromCharCode(...bytes)] *)
Definition String_fromCharCode (bytes : Bytes) : Text := Byte.to_N <$> bytes.

(** [Uint8Array.from(t, c => c.charCodeAt(0))] *)
Definition Uint8Array_from (t : Text) : Bytes := byte_of <$> t.

(** A text of code units below 256 and the string of the same units. *)
Definition is_latin1 (t : Text) : bool := forallb (fun u => N.leb u 255) t.

Definition narrow (t : Text) : string := String.string_of_list_ascii (ascii_of_N <$> t).

Definition wide (s : string) : Text := N_of_ascii <$> String.list_ascii_of_string s.

(** [btoa(t)], which throws on a code unit above 255. *)
Definition btoa (t : Text) : Result Text :=
  if is_latin1 t then Ok (wide (Base64.btoa (narrow t)))
  else Throw "InvalidCharacterError".

(** [atob(t)] *)
Definition atob (t : Text) : Result Text :=
  if is_latin1 t then
    match Base64.atob (narrow t) with
    | Ok s => Ok (wide s)
    | Throw e => Throw e
    end
  else Throw "InvalidCharacterError".

(** [t.slice(i, j)] for [0 <= i <= j] *)
Definition slice (i j : nat) (t : Text) : Text := take (j - i) (drop i t).

(** [t.length] *)
Definition len (t : Text) : Z := Z.of_nat (length t).

End Unicode.

(** ** The chunk store on text of any code unit ([ChunkingEngine.ts]) *)

Module ChunkingEngineUtf16.
Import Js JsString.
Import ChunkingEngine.
Import Unicode.

Record ChunkRecord : Type := mkChunkRecord {
  content_id : string;
  chunk_index : Z;
  chunk_data : Text;
  chunk_size : Z
}.

(** The two system tables of a compartment; a table gives back the text
    it was given. *)
Record Store : Type := mkStore {
  tables_exist : bool;
  content_chunks : list ChunkRecord;
  chunk_metadata : list ChunkMetadata
}.

(** What the platform provides.  [CompressionStream] stands for the gzip
    stream written and read to its end and for the spreading of its
    output into the arguments of [String.fromCharCode], which the engine
    may refuse; [DecompressionStream] for the gzip stream read back.
    Either is [None] when the global of that name is undefined.  The flag
    tells whether [cursor.one()] throws on an empty result or yields a
    falsy value. *)
Record Platform : Type := mkPlatform {
  CompressionStream : option (Bytes -> Result Bytes);
  DecompressionStream : option (Bytes -> Result Bytes);
  one_throws_when_empty : bool
}.

(** Computations on the store that may throw. *)
Definition M (A : Type) : Type := Store -> Result A * Store.

Definition ret {A : Type} (a : A) : M A := fun db => (Ok a, db).

Definition bind {A B : Type} (m : M A) (f : A -> M B) : M B :=
  fun db =>
    match m db with
    | (Ok a, db') => f a db'
    | (Throw e, db') => (Throw e, db')
    end.

Notation "'do!' x ':=' m 'in' k" := (bind m (fun x => k))
  (at level 10, x name, m at level 100, k at level 200).

Definition shouldChunk (content : Text) : bool :=
  Z.ltb CHUNK_SIZE_THRESHOLD (len content).

Definition shouldCompress (content : Text) : bool :=
  Z.ltb 8192 (len content).

Definition compress (pf : Platform) (content : Text) : Result Text :=
  let uint8Array := TextEncoder_encode content in
  let attempt :=
    match CompressionStream pf with
    | Some gzip =>
        match gzip uint8Array with
        | Ok combined => btoa (String_fromCharCode combined)
        | Throw e => Throw e
        end
    | None => btoa content
    end in
  match attempt with
  | Ok s => Ok s
  | Throw e => Throw ("Compression failed: " +:+ e)
  end.

Definition decompress (pf : Platform) (compressedContent : Text) : Result Text :=
  let attempt :=
    match DecompressionStream pf with
    | Some gunzip =>
        match atob compressedContent with
        | Ok binary =>
            match gunzip (Uint8Array_from binary) with
            | Ok combined => Ok (TextDecoder_decode combined)
            | Throw e => Throw e
            end
        | Throw e => Throw e
        end
    | None => atob compressedContent
    end in
  match attempt with
  | Ok s => Ok s
  | Throw e => Throw ("Decompression failed: " +:+ e)
  end.

(** The loop of [splitIntoChunks]; [fuel] bounds the iterations. *)
Fixpoint splitLoop (fuel : nat) (size : nat) (content : Text) (i : nat) : list Text :=
  match fuel with
  | O => []
  | S fuel' =>
      if Nat.ltb i (length content)
      then slice i (i + size) content :: splitLoop fuel' size content (i + size)
      else []
  end.

Definition splitIntoChunks (content : Text) : list Text :=
  splitLoop (length content) (Z.to_nat CHUNK_SIZE) content 0.

Definition ensureChunksTable : M unit :=
  fun db => (Ok tt, mkStore true (content_chunks db) (chunk_metadata db)).

Definition same_slot (a b : ChunkRecord) : bool :=
  (String.eqb (content_id a) (content_id b) && Z.eqb (chunk_index a) (chunk_index b))%bool.

(** [INSERT INTO content_chunks ...] under [UNIQUE(content_id, chunk_index)]. *)
Definition insertChunk (chunk : ChunkRecord) : M unit :=
  fun db =>
    if negb (tables_exist db) then (Throw "no such table: content_chunks", db)
    else if existsb (same_slot chunk) (content_chunks db)
    then (Throw "UNIQUE constraint failed: content_chunks.content_id, content_chunks.chunk_index", db)
    else (Ok tt, mkStore (tables_exist db) (content_chunks db ++ [chunk]) (chunk_metadata db)).

(** [INSERT INTO chunk_metadata ...] under [content_id PRIMARY KEY]. *)
Definition storeMetadata (metadata : ChunkMetadata) : M unit :=
  fun db =>
    if negb (tables_exist db) then (Throw "no such table: chunk_metadata", db)
    else if existsb (fun m => String.eqb (contentId m) (contentId metadata)) (chunk_metadata db)
    then (Throw "UNIQUE constraint failed: chunk_metadata.content_id", db)
    else (Ok tt, mkStore (tables_exist db) (content_chunks db) (chunk_metadata db ++ [metadata])).

(** The [for] loop of [storeChunkedContent], from index [i]. *)
Fixpoint insertChunks (contentId : string) (chunks : list Text) (i : Z) : M unit :=
  match chunks with
  | [] => ret tt
  | chunk :: rest =>
      do! done := insertChunk (mkChunkRecord contentId i chunk (len chunk)) in
      insertChunks contentId rest (i + 1)
  end.

(** The content as it is stored, and the compression flag. *)
Definition processContent (pf : Platform) (content : Text) : Text * bool :=
  if (ENABLE_COMPRESSION && shouldCompress content)%bool then
    match compress pf content with
    | Ok processedContent => (processedContent, true)
    | Throw _ => (content, false)
    end
  else (content, false).

(** [storeChunkedContent]; [contentId] is the identifier drawn by
    [generateContentId] for this call. *)
Definition storeChunkedContent (pf : Platform) (contentId : string)
           (content : Text) (contentType : ContentType) : M ChunkMetadata :=
  let '(processedContent, compressed) := processContent pf content in
  do! ensured := ensureChunksTable in
  let chunks := splitIntoChunks processedContent in
  do! inserted := insertChunks contentId chunks 0 in
  let metadata :=
    mkChunkMetadata contentId (Z.of_nat (length chunks)) (len content) contentType
                    compressed (if compressed then Some "gzip" else None) in
  do! stored := storeMetadata metadata in
  ret metadata.

(** [ORDER BY chunk_index ASC] *)
Fixpoint insert_by_index (r : ChunkRecord) (l : list ChunkRecord) : list ChunkRecord :=
  match l with
  | [] => [r]
  | x :: l' =>
      if Z.leb (chunk_index r) (chunk_index x) then r :: l
      else x :: insert_by_index r l'
  end.

Definition order_by_index (l : list ChunkRecord) : list ChunkRecord :=
  foldr insert_by_index [] l.

(** [SELECT * FROM chunk_metadata WHERE content_id = ?] read with
    [one()], which needs exactly one row. *)
Definition getMetadata (pf : Platform) (contentId' : string) (db : Store)
  : Result (option ChunkMetadata) :=
  if negb (tables_exist db) then Throw "no such table: chunk_metadata"
  else
    match List.filter (fun m => String.eqb (contentId m) contentId') (chunk_metadata db) with
    | [result] => Ok (Some result)
    | [] =>
        if one_throws_when_empty pf
        then Throw "Expected exactly one result from SQL query, but got no results."
        else Ok None
    | _ => Throw "Expected exactly one result from SQL query, but got multiple results."
    end.

Definition getChunks (contentId' : string) (db : Store) : Result (list Text) :=
  if negb (tables_exist db) then Throw "no such table: content_chunks"
  else
    Ok (chunk_data <$>
          order_by_index
            (List.filter (fun r => String.eqb (content_id r) contentId') (content_chunks db))).

(** The [try] block of [retrieveChunkedContent]. *)
Definition retrieve_try (pf : Platform) (contentId' : string) (db : Store)
  : Result (option Text) :=
  match getMetadata pf contentId' db with
  | Throw e => Throw e
  | Ok None => Ok None
  | Ok (Some metadata) =>
      match getChunks contentId' db with
      | Throw e => Throw e
      | Ok chunks =>
          if negb (Z.eqb (Z.of_nat (length chunks)) (totalChunks metadata)) then
            Throw ("Missing chunks: expected " +:+ pretty (totalChunks metadata) +:+
                   ", found " +:+ pretty (Z.of_nat (length chunks)))
          else
            let reassembled := concat chunks in
            if compressed metadata then
              match decompress pf reassembled with
              | Ok s => Ok (Some s)
              | Throw _ => Throw "Failed to decompress content"
              end
            else Ok (Some reassembled)
      end
  end.

(** [retrieveChunkedContent]: the [catch] clause logs and returns [null]. *)
Definition retrieveChunkedContent (pf : Platform) (contentId' : string) (db : Store)
  : Result (option Text) :=
  match retrieve_try pf contentId' db with
  | Ok r => Ok r
  | Throw _ => Ok None
  end.

(** The identifier drawn by [generateContentId] is not in use: no chunk and
    no metadata record carries it. *)
Definition fresh (contentId' : string) (db : Store) : bool :=
  (forallb (fun r => negb (String.eqb (content_id r) contentId')) (content_chunks db) &&
   forallb (fun m => negb (String.eqb (contentId m) contentId')) (chunk_metadata db))%bool.

(** The chunk records of one content item, numbered from [i]. *)
Fixpoint chunkRows (contentId : string) (chunks : list Text) (i : Z) : list ChunkRecord :=
  match chunks with
  | [] => []
  | chunk :: rest =>
      mkChunkRecord contentId i chunk (len chunk) :: chunkRows contentId rest (i + 1)
  end.

Definition metadataOf (pf : Platform) (contentId' : string) (content : Text)
           (contentType' : ContentType) : ChunkMetadata :=
  let '(processedContent, compressed') := processContent pf content in
  mkChunkMetadata contentId' (Z.of_nat (length (splitIntoChunks processedContent)))
                  (len content) contentType' compressed'
                  (if compressed' then Some "gzip" else None).

Definition storedAfter (pf : Platform) (contentId' : string) (content : Text)
           (contentType' : ContentType) (db : Store) : Store :=
  mkStore true
    (content_chunks db ++ chunkRows contentId' (splitIntoChunks (fst (processContent pf content))) 0)
    (chunk_metadata db ++ [metadataOf pf contentId' content contentType']).

(** The streams of the platform are both present, and decompression
    inverts compression. *)
Definition inverse_streams (pf : Platform) : Prop :=
  exists gzip gunzip,
    CompressionStream pf = Some gzip /\ DecompressionStream pf = Some gunzip /\
    forall bytes packed, gzip bytes = Ok packed -> gunzip packed = Ok bytes.

(** The compression stream takes the bytes of the text. *)
Definition compressible (pf : Platform) (content : Text) : Prop :=
  exists gzip packed,
    CompressionStream pf = Some gzip /\ gzip (TextEncoder_encode content) = Ok packed.

(** U+FEFF followed by the text. *)
Definition with_bom (body : Text) : Text := 65279%N :: body.

(** Code units below 128 only. *)
Definition is_ascii (t : Text) : bool := forallb (fun u => N.ltb u 128) t.

End ChunkingEngineUtf16.

(** ** Sample inputs *)

Module Samples.
Import Js JsString Junction ChunkingEngine GraphQL RowMapping Discovery.

(** [JSON.stringify] and [JSON.parse] restricted to the literals [null],
    [true] and [false]. *)
Definition literal_stringify (v : JsValue) : option string :=
  match v with
  | JNull => Some "null"
  | JBool true => Some "true"
  | JBool false => Some "false"
  | _ => None
  end.

Definition literal_parse (s : string) : Result JsValue :=
  if String.eqb s "null" then Ok JNull
  else if String.eqb s "true" then Ok (JBool true)
  else if String.eqb s "false" then Ok (JBool false)
  else Throw "Unexpected token".

(** One suffix and one UUID for every draw. *)
Definition one_suffix (n : nat) : string := "k2j9x1q0a".
Definition one_uuid (n : nat) : string := "123e4567-e89b-12d3-a456-426614174000".

(** A parsed schema with the type [Target]. *)
Definition target_type : GraphQLTypeInfo :=
  mkTypeInfo "Target" "OBJECT"
             [("id", mkFieldInfo "id" "String" false false None);
              ("approvedSymbol", mkFieldInfo "approvedSymbol" "String" false true None)]
             None.

Definition target_schema_info : GraphQLSchemaInfo :=
  mkSchemaInfo [("Target", target_type)] [].

(** A target as the API returns it, and the columns inferred for it. *)
Definition target_fields : list (string * JsValue) :=
  [("id", JStr "ENSG00000169083"); ("approvedSymbol", JStr "AR"); ("isActive", JBool true)].

Definition target_columns : list string := ["id"; "approved_symbol"; "is_active"].

Definition target_table : TableSchema :=
  mkTableSchema [("id", "TEXT"); ("approved_symbol", "TEXT"); ("is_active", "INTEGER")] [].

(** Search hits of two types. *)
Definition disease_hit : JsValue :=
  JObj [("__typename", JStr "Disease"); ("id", JStr "EFO_0000270")].

Definition mixed_hits : list JsValue :=
  [JObj [("__typename", JStr "Target"); ("id", JStr "ENSG00000169083")]; disease_hit].

(** Nothing stored, nothing drawn, nothing issued. *)
Definition start : Env := mkEnv Examples.empty_store 0 0 [].

(** Discovery before anything is listed. *)
Definition nothing_found : Found := mkFound [] [] 0.

(** Entity phases that do nothing. *)
Definition no_phases (data : JsValue) (schemas : list (string * TableSchema)) : I unit :=
  unit_I tt.

(** A pair of streams that hand their input on as it is, in the place of
    the gzip streams of the platform. *)
Definition copying_streams : ChunkingEngineUtf16.Platform :=
  ChunkingEngineUtf16.mkPlatform (Some Ok) (Some Ok) true.

(** 40000 times the letter [a]. *)
Definition letters_40000 : Unicode.Text := repeat 97%N (Z.to_nat 40000).

(** A compartment without the chunk tables. *)
Definition no_tables : ChunkingEngineUtf16.Store := ChunkingEngineUtf16.mkStore false [] [].

(** An entity whose identifier is the number 0, and the table inferred
    for it. *)
Definition zero_target : EntityMemo.Obj :=
  EntityMemo.mkObj 1 (JObj [("id", Payload.number 0); ("name", JStr "COX")]).

Definition zero_target_table : TableSchema :=
  mkTableSchema [("id", "INTEGER PRIMARY KEY"); ("name", "TEXT")] [].

(** The SQL handle of a connection on which the row inserted last has
    the rowid 0, as it has after a row with the INTEGER PRIMARY KEY 0
    went in (a later [INSERT OR IGNORE] of the same key is ignored and
    leaves it so): statements are recorded, and [last_insert_rowid()]
    answers 0. *)
Definition rowid_zero_exec (statement : string) (values : list JsValue) (env : Env)
  : Result (list (list (string * JsValue))) * Env :=
  if String.eqb statement "SELECT last_insert_rowid() as id"
  then (Ok [[("id", Payload.number 0)]], env)
  else (Ok [], mkEnv (chunk_store env) (draws env) (ids env)
                     (issued env ++ [DataInsertionEngine.mkSqlCall statement values])).

(** The row composition of the insertion engine on that handle. *)
Definition compose_row (obj : JsValue) (schema : TableSchema) (env : Env)
  : Result (list (string * JsValue)) * Env :=
  mapEntityToSchema Examples.no_streams literal_stringify one_suffix one_uuid obj schema env.

(** No object memoised, nothing issued. *)
Definition no_memo : @EntityMemo.State Env := EntityMemo.mkState ∅ start.

Definition insert_zero_target : DataInsertionEngine.SqlCall :=
  DataInsertionEngine.mkSqlCall "INSERT OR IGNORE INTO target (id, name) VALUES (?, ?)"
                                [Payload.number 0; JStr "COX"].

End Samples.

(** * Properties *)

(** ** Identifier normalisers *)

(** Case analysis on the 256 code units. *)
Ltac each_char c :=
  destruct c as [[] [] [] [] [] [] [] []]; vm_compute;
  try reflexivity; try discriminate; auto.

Section IdentifierProperties.
Import Js JsString Identifier Shape.

Lemma word_replace_id c : is_word c = true -> (if is_word c then c else "_"%char) = c.
Proof. intros ->. reflexivity. Qed.

Lemma low_is_word c : is_low c = true -> is_word c = true.
Proof. each_char c. Qed.

Lemma low_lower_id c : is_low c = true -> lower_char c = c.
Proof. each_char c. Qed.

Lemma low_not_upper c : is_low c = true -> is_upper c = false.
Proof. each_char c. Qed.

Lemma lower_word_low c : is_word c = true -> is_low (lower_char c) = true.
Proof. each_char c. Qed.

Lemma lower_underscore c : is_word c = true -> is_underscore (lower_char c) = is_underscore c.
Proof. each_char c. Qed.

Lemma lower_digit c : is_word c = true -> is_digit (lower_char c) = is_digit c.
Proof. each_char c. Qed.

Lemma replaced_is_word c : is_word (if is_word c then c else "_"%char) = true.
Proof. each_char c. Qed.

Lemma underscore_eq c : is_underscore c = true -> c = "_"%char.
Proof. each_char c. Qed.

(** Characters of a string. *)
Lemma all_chars_map p f s :
  (forall c, p (f c) = true) -> all_chars p (map_chars f s) = true.
Proof. intros H. induction s as [|c s IH]; simpl; [reflexivity|]. now rewrite H, IH. Qed.

Lemma map_chars_id p f s :
  (forall c, p c = true -> f c = c) -> all_chars p s = true -> map_chars f s = s.
Proof.
  intros H. induction s as [|c s IH]; simpl; [reflexivity|].
  intros [Hc Hs]%andb_true_iff. now rewrite (H c Hc), IH.
Qed.

Lemma all_chars_weaken (p q : ascii -> bool) s :
  (forall c, p c = true -> q c = true) -> all_chars p s = true -> all_chars q s = true.
Proof.
  intros H. induction s as [|c s IH]; simpl; [reflexivity|].
  intros [Hc Hs]%andb_true_iff. now rewrite (H c Hc), IH.
Qed.

(** Collapsing runs of underscores. *)
Lemma collapse_cons c s :
  collapse_underscores (String c s) =
  if (is_underscore c && starts_with_underscore s)%bool
  then collapse_underscores s
  else String c (collapse_underscores s).
Proof.
  simpl. destruct (is_underscore c); [|reflexivity].
  destruct s as [|c' s']; [reflexivity|]. simpl.
  destruct (is_underscore c'); reflexivity.
Qed.

Lemma collapse_all p s : all_chars p s = true -> all_chars p (collapse_underscores s) = true.
Proof.
  induction s as [|c s IH]; [reflexivity|].
  intros [Hc Hs]%andb_true_iff. rewrite collapse_cons.
  destruct (_ && _)%bool; [now apply IH|].
  cbn [all_chars]. now rewrite Hc, IH.
Qed.

Lemma collapse_head s :
  starts_with_underscore (collapse_underscores s) = starts_with_underscore s.
Proof.
  induction s as [|c s IH]; [reflexivity|].
  rewrite collapse_cons. cbn [starts_with_underscore].
  destruct (is_underscore c) eqn:Hu; cbn [andb]; [|now cbn; rewrite Hu].
  destruct (starts_with_underscore s) eqn:Hs; [now rewrite IH|now cbn; rewrite Hu].
Qed.

Lemma collapse_no_run s : no_run (collapse_underscores s) = true.
Proof.
  induction s as [|c s IH]; [reflexivity|].
  rewrite collapse_cons.
  destruct (is_underscore c) eqn:Hu; cbn [andb].
  - destruct (starts_with_underscore s) eqn:Hs; [exact IH|].
    cbn [no_run]. now rewrite Hu, collapse_head, Hs, IH.
  - cbn [no_run]. now rewrite Hu, IH.
Qed.

Lemma collapse_id s : no_run s = true -> collapse_underscores s = s.
Proof.
  induction s as [|c s IH]; [reflexivity|].
  cbn [no_run]. intros [Hc Hs]%andb_true_iff. rewrite collapse_cons.
  destruct (is_underscore c) eqn:Hu; cbn [andb].
  - apply negb_true_iff in Hc. rewrite Hc. now rewrite IH.
  - now rewrite IH.
Qed.

(** Stripping the edge underscores. *)
Lemma strip_trailing_cons c s :
  strip_trailing_underscore (String c s) =
  if (is_empty s && is_underscore c)%bool then EmptyString
  else String c (strip_trailing_underscore s).
Proof. destruct s; simpl; [destruct (is_underscore c)|]; reflexivity. Qed.

Lemma strip_trailing_all p s :
  all_chars p s = true -> all_chars p (strip_trailing_underscore s) = true.
Proof.
  induction s as [|c s IH]; [reflexivity|].
  intros [Hc Hs]%andb_true_iff. rewrite strip_trailing_cons.
  destruct (_ && _)%bool; [reflexivity|]. cbn [all_chars]. now rewrite Hc, IH.
Qed.

Lemma strip_trailing_separated s :
  no_run s = true -> separated (strip_trailing_underscore s) = true.
Proof.
  induction s as [|c s IH]; [reflexivity|].
  cbn [no_run]. intros [Hc Hs]%andb_true_iff. rewrite strip_trailing_cons.
  destruct s as [|c' s'].
  - cbn. destruct (is_underscore c) eqn:Hu; cbn; [reflexivity|now rewrite Hu].
  - cbn [is_empty andb]. specialize (IH Hs).
    rewrite strip_trailing_cons in *.
    destruct (is_empty s' && is_underscore c')%bool eqn:He.
    + apply andb_true_iff in He as [_ He]. cbn in Hc. rewrite He in Hc.
      destruct (is_underscore c) eqn:Hu; [discriminate|]. cbn. now rewrite Hu.
    + cbn [separated] in *. rewrite IH.
      destruct (is_underscore c); [|reflexivity]. cbn in Hc. now rewrite Hc.
Qed.

Lemma strip_trailing_head s :
  no_run s = true -> starts_with_underscore s = false ->
  starts_with_underscore (strip_trailing_underscore s) = false.
Proof.
  destruct s as [|c s]; [reflexivity|]. intros _ H. rewrite strip_trailing_cons.
  destruct (_ && _)%bool; [reflexivity|exact H].
Qed.

Lemma strip_leading_all p s :
  all_chars p s = true -> all_chars p (strip_leading_underscore s) = true.
Proof.
  destruct s as [|c s]; [reflexivity|]. cbn. intros [Hc Hs]%andb_true_iff.
  destruct (is_underscore c); [exact Hs|]. cbn. now rewrite Hc, Hs.
Qed.

Lemma strip_leading_no_run s :
  no_run s = true ->
  no_run (strip_leading_underscore s) = true /\
  starts_with_underscore (strip_leading_underscore s) = false.
Proof.
  destruct s as [|c s]; [now split|]. cbn [no_run strip_leading_underscore].
  intros [Hc Hs]%andb_true_iff.
  destruct (is_underscore c) eqn:Hu.
  - split; [exact Hs|]. now apply negb_true_iff in Hc.
  - split; [|exact Hu]. cbn [no_run]. now rewrite Hu, Hs.
Qed.

Lemma separated_no_run s : separated s = true -> no_run s = true.
Proof.
  induction s as [|c s IH]; [reflexivity|]. cbn [separated no_run].
  intros [Hc Hs]%andb_true_iff. rewrite (IH Hs), andb_true_r.
  destruct (is_underscore c); [|reflexivity].
  destruct s; [discriminate|exact Hc].
Qed.

Lemma strip_trailing_id s : separated s = true -> strip_trailing_underscore s = s.
Proof.
  induction s as [|c s IH]; [reflexivity|]. cbn [separated].
  intros [Hc Hs]%andb_true_iff. rewrite strip_trailing_cons, (IH Hs).
  destruct s; [|reflexivity]. cbn. destruct (is_underscore c); [discriminate|reflexivity].
Qed.

Lemma strip_leading_id s : starts_with_underscore s = false -> strip_leading_underscore s = s.
Proof. destruct s as [|c s]; [reflexivity|]. cbn. now intros ->. Qed.

(** The three clean-up steps produce a normal shape (apart from case). *)
Lemma strip_collapse_shape p s :
  all_chars p s = true ->
  let t := strip_edge_underscores (collapse_underscores s) in
  all_chars p t = true /\ starts_with_underscore t = false /\ separated t = true.
Proof.
  intros Hp t. subst t. unfold strip_edge_underscores.
  pose proof (collapse_no_run s) as Hn.
  apply strip_leading_no_run in Hn as [Hn Hh].
  split; [|split].
  - now apply strip_trailing_all, strip_leading_all, collapse_all.
  - now apply strip_trailing_head.
  - now apply strip_trailing_separated.
Qed.

Lemma strip_collapse_id s :
  starts_with_underscore s = false -> separated s = true ->
  strip_edge_underscores (collapse_underscores s) = s.
Proof.
  intros Hh Hs. unfold strip_edge_underscores.
  rewrite collapse_id by now apply separated_no_run.
  now rewrite strip_leading_id, strip_trailing_id.
Qed.

(** Lower-casing a string of word characters. *)
Lemma lower_all_low t : all_chars is_word t = true -> all_chars is_low (toLowerCase t) = true.
Proof.
  unfold toLowerCase.
  induction t as [|c t IH]; [reflexivity|]. cbn. intros [Hc Ht]%andb_true_iff.
  now rewrite lower_word_low, IH.
Qed.

Lemma lower_head t :
  all_chars is_word t = true ->
  starts_with_underscore (toLowerCase t) = starts_with_underscore t.
Proof.
  destruct t as [|c t]; [reflexivity|]. cbn. intros [Hc _]%andb_true_iff.
  now apply lower_underscore.
Qed.

Lemma lower_separated t :
  all_chars is_word t = true -> separated (toLowerCase t) = separated t.
Proof.
  unfold toLowerCase.
  induction t as [|c t IH]; [reflexivity|]. cbn [all_chars]. intros [Hc Ht]%andb_true_iff.
  cbn [map_chars separated]. rewrite (IH Ht), lower_underscore by exact Hc.
  destruct t as [|c' t']; [reflexivity|]. cbn. cbn in Ht. apply andb_true_iff in Ht as [Hc' _].
  now rewrite lower_underscore.
Qed.

Lemma lower_starts_digit t :
  all_chars is_word t = true -> starts_with_digit (toLowerCase t) = starts_with_digit t.
Proof.
  destruct t as [|c t]; [reflexivity|]. cbn. intros [Hc _]%andb_true_iff. now apply lower_digit.
Qed.

Lemma lower_is_empty t : is_empty (toLowerCase t) = is_empty t.
Proof. destruct t; reflexivity. Qed.

Lemma lower_normal_id s : all_chars is_low s = true -> toLowerCase s = s.
Proof. apply map_chars_id. apply low_lower_id. Qed.

Lemma replace_word_id s : all_chars is_word s = true -> replace_non_word s = s.
Proof. apply map_chars_id. intros c ->. reflexivity. Qed.

Lemma replace_all_word s : all_chars is_word (replace_non_word s) = true.
Proof. apply all_chars_map. apply replaced_is_word. Qed.

Lemma normal_parts s :
  normal s = true ->
  all_chars is_low s = true /\ starts_with_underscore s = false /\ separated s = true.
Proof.
  unfold normal. intros [[H1 H2]%andb_true_iff H3]%andb_true_iff.
  apply negb_true_iff in H2. auto.
Qed.

Lemma table_core_normal x : normal (table_core x) = true.
Proof.
  unfold table_core, normal.
  destruct (strip_collapse_shape is_word (replace_non_word x) (replace_all_word x))
    as (Ha & Hh & Hs).
  now rewrite lower_all_low, lower_head, lower_separated, Hh, Hs.
Qed.

Lemma table_core_id s : normal s = true -> table_core s = s.
Proof.
  intros (Ha & Hh & Hs)%normal_parts. unfold table_core.
  rewrite replace_word_id by (eapply all_chars_weaken; [apply low_is_word|exact Ha]).
  rewrite strip_collapse_id by assumption. now apply lower_normal_id.
Qed.

(** A letter or digit survives the clean-up. *)
Lemma any_char_nonempty p s : any_char p s = true -> is_empty s = false.
Proof. destruct s; [discriminate|reflexivity]. Qed.

Lemma any_char_map (p q : ascii -> bool) f s :
  (forall c, p c = true -> q (f c) = true) ->
  any_char p s = true -> any_char q (map_chars f s) = true.
Proof.
  intros H. induction s as [|c s IH]; [discriminate|]. cbn.
  intros [Hc|Hs]%orb_true_iff; [now rewrite (H c Hc)|]. rewrite (IH Hs). apply orb_true_r.
Qed.

Lemma collapse_any p s :
  (forall c, p c = true -> is_underscore c = false) ->
  any_char p (collapse_underscores s) = any_char p s.
Proof.
  intros H. induction s as [|c s IH]; [reflexivity|]. rewrite collapse_cons.
  destruct (is_underscore c) eqn:Hu; cbn [andb].
  - assert (p c = false) as Hp.
    { destruct (p c) eqn:Hp; [|reflexivity]. apply H in Hp. congruence. }
    destruct (starts_with_underscore s); cbn [any_char]; now rewrite ?Hp, IH.
  - cbn [any_char]. now rewrite IH.
Qed.

Lemma strip_trailing_any p s :
  (forall c, p c = true -> is_underscore c = false) ->
  any_char p (strip_trailing_underscore s) = any_char p s.
Proof.
  intros H. induction s as [|c s IH]; [reflexivity|]. rewrite strip_trailing_cons.
  destruct (is_empty s && is_underscore c)%bool eqn:He.
  - apply andb_true_iff in He as [He Hu]. destruct s; [|discriminate]. cbn.
    destruct (p c) eqn:Hp; [|reflexivity]. apply H in Hp. congruence.
  - cbn [any_char]. now rewrite IH.
Qed.

Lemma strip_leading_any p s :
  (forall c, p c = true -> is_underscore c = false) ->
  any_char p (strip_leading_underscore s) = any_char p s.
Proof.
  intros H. destruct s as [|c s]; [reflexivity|]. cbn.
  destruct (is_underscore c) eqn:Hu; [|reflexivity].
  destruct (p c) eqn:Hp; [|reflexivity]. apply H in Hp. congruence.
Qed.

Lemma alnum_not_underscore c : is_alnum c = true -> is_underscore c = false.
Proof. each_char c. Qed.

Lemma alnum_replaced c : is_alnum c = true -> is_alnum (if is_word c then c else "_"%char) = true.
Proof. each_char c. Qed.

Lemma alnum_lower c : is_alnum c = true -> is_alnum (lower_char c) = true.
Proof. each_char c. Qed.

Lemma table_core_nonempty x : has_alnum x = true -> is_empty (table_core x) = false.
Proof.
  intros H. apply (any_char_nonempty is_alnum). unfold table_core, toLowerCase.
  apply (any_char_map is_alnum is_alnum); [apply alnum_lower|].
  unfold strip_edge_underscores.
  rewrite strip_trailing_any, strip_leading_any, collapse_any by apply alnum_not_underscore.
  apply (any_char_map is_alnum is_alnum); [apply alnum_replaced|exact H].
Qed.

Lemma list_includes_In l x : list_includes l x = true -> In x l.
Proof.
  unfold list_includes. intros (y & Hy & He)%existsb_exists.
  apply String.eqb_eq in He. now subst.
Qed.

Lemma has_alnum_nonempty x : has_alnum x = true -> is_empty x = false.
Proof. apply any_char_nonempty. Qed.

Lemma table_prefix_not_reserved t :
  list_includes table_reservedWords ("table_" +:+ t) = false.
Proof. reflexivity. Qed.

Lemma base36_low c : (is_lower c || is_digit c)%bool = true -> is_low c = true.
Proof. each_char c. Qed.

Lemma base36_not_underscore c :
  (is_lower c || is_digit c)%bool = true -> is_underscore c = false.
Proof. each_char c. Qed.

Lemma drawn_shape r :
  drawn r = true ->
  is_empty r = false /\ all_chars is_low r = true /\
  starts_with_underscore r = false /\ separated r = true.
Proof.
  unfold drawn. intros [He Ha]%andb_true_iff. apply negb_true_iff in He.
  split; [exact He|]. split; [eapply all_chars_weaken; [apply base36_low|exact Ha]|].
  split.
  - destruct r as [|c r]; [reflexivity|]. cbn in Ha |- *.
    apply andb_true_iff in Ha as [Hc _]. now apply base36_not_underscore.
  - clear He. induction r as [|c r IH]; [reflexivity|]. cbn [all_chars separated] in *.
    apply andb_true_iff in Ha as [Hc Ha]. now rewrite (base36_not_underscore c Hc), IH.
Qed.

(** A name made of a prefix and a random suffix is left alone. *)
Lemma random_table_name_stable r : drawn r = true -> stable_table ("table_" +:+ r) = true.
Proof.
  intros (He & Ha & Hh & Hs)%drawn_shape. unfold stable_table, normal.
  rewrite table_prefix_not_reserved. destruct r as [|c r]; [discriminate|].
  change ("table_" +:+ String c r) with
    (String "t" (String "a" (String "b" (String "l" (String "e" (String "_" (String c r))))))).
  cbn [all_chars separated starts_with_underscore is_empty starts_with_digit] in Ha, Hs, Hh |- *.
  rewrite Ha, Hs, Hh. reflexivity.
Qed.

Lemma sanitizeTableName_stable_gen r x :
  is_empty (table_core x) = false \/ drawn r = true ->
  stable_table (sanitizeTableName r (JStr x)) = true.
Proof.
  intros H. unfold sanitizeTableName.
  destruct x as [|x0 x'] eqn:Hx; cbn [is_empty].
  { destruct H as [H|H]; [discriminate H|now apply random_table_name_stable]. }
  rewrite <- Hx in *. clear Hx x0 x'.
  pose proof (table_core_normal x) as Hn.
  destruct (table_core x) as [|d t] eqn:Hc.
  { cbn [starts_with_digit is_empty]. rewrite table_prefix_not_reserved.
    destruct H as [H|H]; [discriminate H|now apply random_table_name_stable]. }
  clear H. cbn [starts_with_digit]. destruct (is_digit d) eqn:Hd.
  - cbn [is_empty]. apply normal_parts in Hn as (Ha & Hh & Hs).
    change (is_empty ("table_" +:+ String d t)) with false. cbn iota.
    rewrite table_prefix_not_reserved. unfold stable_table.
    rewrite table_prefix_not_reserved. unfold normal.
    change ("table_" +:+ String d t) with
      (String "t" (String "a" (String "b" (String "l" (String "e" (String "_" (String d t))))))).
    cbn [all_chars separated starts_with_underscore is_empty starts_with_digit] in Ha, Hs, Hh |- *.
    rewrite Ha, Hs, Hh. reflexivity.
  - cbn [is_empty]. destruct (list_includes table_reservedWords (String d t)) eqn:Hr.
    + apply list_includes_In in Hr. cbn in Hr.
      repeat (destruct Hr as [Hr|Hr]; [rewrite <- Hr; vm_compute; reflexivity|]). destruct Hr.
    + unfold stable_table. rewrite Hn, Hr. cbn. now rewrite Hd.
Qed.

Lemma sanitizeTableName_stable r x :
  has_alnum x = true -> stable_table (sanitizeTableName r (JStr x)) = true.
Proof. intros H. apply sanitizeTableName_stable_gen. left. now apply table_core_nonempty. Qed.

Lemma stable_table_fixed r n :
  stable_table n = true -> sanitizeTableName r (JStr n) = n.
Proof.
  unfold stable_table.
  intros [[[Hn He]%andb_true_iff Hd]%andb_true_iff Hr]%andb_true_iff.
  apply negb_true_iff in He, Hd, Hr.
  unfold sanitizeTableName. now rewrite He, (table_core_id n Hn), Hd, He, Hr.
Qed.

(** The column pipeline. *)
Lemma low_of_lowered c :
  is_low (if is_word (lower_char c) then lower_char c else "_"%char) = true.
Proof. each_char c. Qed.

Lemma lowered_replaced_low s : all_chars is_low (replace_non_word (toLowerCase s)) = true.
Proof.
  unfold replace_non_word, toLowerCase.
  induction s as [|c s IH]; [reflexivity|]. cbn [map_chars all_chars].
  now rewrite low_of_lowered, IH.
Qed.

Lemma column_core_normal x : normal (column_core x) = true.
Proof.
  unfold column_core, normal.
  destruct (strip_collapse_shape is_low _ (lowered_replaced_low (underscore_before_upper x)))
    as (Ha & Hh & Hs).
  now rewrite Ha, Hh, Hs.
Qed.

Lemma before_upper_id s : all_chars is_low s = true -> underscore_before_upper s = s.
Proof.
  induction s as [|c s IH]; [reflexivity|]. cbn. intros [Hc Hs]%andb_true_iff.
  now rewrite (low_not_upper c Hc), IH.
Qed.

Lemma column_core_id s : normal s = true -> column_core s = s.
Proof.
  intros (Ha & Hh & Hs)%normal_parts. unfold column_core.
  rewrite before_upper_id, lower_normal_id by assumption.
  rewrite replace_word_id by (eapply all_chars_weaken; [apply low_is_word|exact Ha]).
  now apply strip_collapse_id.
Qed.

Lemma before_upper_any p s :
  any_char p s = true -> any_char p (underscore_before_upper s) = true.
Proof.
  induction s as [|c s IH]; [discriminate|]. cbn.
  intros [Hc|Hs]%orb_true_iff; destruct (is_upper c); cbn; rewrite ?Hc, ?(IH Hs), ?orb_true_r;
    reflexivity.
Qed.

Lemma column_core_nonempty x : has_alnum x = true -> is_empty (column_core x) = false.
Proof.
  intros H. apply (any_char_nonempty is_alnum). unfold column_core, strip_edge_underscores.
  rewrite strip_trailing_any, strip_leading_any, collapse_any by apply alnum_not_underscore.
  apply (any_char_map is_alnum is_alnum); [apply alnum_replaced|].
  apply (any_char_map is_alnum is_alnum); [apply alnum_lower|].
  now apply before_upper_any.
Qed.

Lemma own_term_In k terms v : own_term k terms = Some v -> In (k, v) terms.
Proof.
  induction terms as [|[k' v'] terms IH]; [discriminate|]. cbn.
  destruct (String.eqb k k') eqn:He.
  - apply String.eqb_eq in He. intros [= ->]. left. now subst.
  - intros Hv. right. now apply IH.
Qed.

Lemma column_prefix_plain t :
  openTargetsTerms_get ("col_" +:+ t) = JUndefined /\
  list_includes column_reservedWords ("col_" +:+ t) = false.
Proof. split; reflexivity. Qed.

Lemma column_random_plain t :
  openTargetsTerms_get ("column_" +:+ t) = JUndefined /\
  list_includes column_reservedWords ("column_" +:+ t) = false.
Proof. split; reflexivity. Qed.

Lemma random_column_name_stable r : drawn r = true -> stable_column ("column_" +:+ r) = true.
Proof.
  intros (He & Ha & Hh & Hs)%drawn_shape. unfold stable_column, term_fixed, normal.
  destruct (column_random_plain r) as [-> ->]. destruct r as [|c r]; [discriminate|].
  change ("column_" +:+ String c r) with
    (String "c" (String "o" (String "l" (String "u" (String "m" (String "n"
       (String "_" (String c r)))))))).
  cbn [all_chars separated starts_with_underscore is_empty starts_with_digit] in Ha, Hs, Hh |- *.
  rewrite Ha, Hs, Hh. reflexivity.
Qed.

Lemma sanitizeColumnName_stable_gen r x y :
  is_empty (column_core x) = false \/ drawn r = true ->
  sanitizeColumnName r (JStr x) = JStr y -> stable_column y = true.
Proof.
  intros H. unfold sanitizeColumnName.
  destruct x as [|x0 x'] eqn:Hx; cbn [is_empty].
  { intros [= <-]. destruct H as [H|H]; [discriminate H|now apply random_column_name_stable]. }
  rewrite <- Hx in *. clear Hx x0 x'.
  pose proof (column_core_normal x) as Hn.
  destruct (column_core x) as [|d t] eqn:Hc.
  { cbn [starts_with_digit is_empty].
    destruct (column_random_plain r) as [-> Hr]. cbn [truthy]. rewrite Hr. intros [= <-].
    destruct H as [H|H]; [discriminate H|now apply random_column_name_stable]. }
  clear H. cbn [starts_with_digit]. destruct (is_digit d) eqn:Hd.
  - change (is_empty ("col_" +:+ String d t)) with false. cbn iota.
    destruct (column_prefix_plain (String d t)) as [-> Hr]. cbn [truthy]. rewrite Hr.
    intros [= <-]. unfold stable_column, term_fixed.
    destruct (column_prefix_plain (String d t)) as [-> ->].
    apply normal_parts in Hn as (Ha & Hh & Hs). unfold normal.
    change ("col_" +:+ String d t) with
      (String "c" (String "o" (String "l" (String "_" (String d t))))).
    cbn [all_chars separated starts_with_underscore is_empty starts_with_digit] in Ha, Hs, Hh |- *.
    rewrite Ha, Hs, Hh. reflexivity.
  - cbn [is_empty]. unfold openTargetsTerms_get.
    destruct (own_term (String d t) openTargetsTerms) as [v|] eqn:Ht.
    + apply own_term_In in Ht. cbn in Ht.
      intros Hy.
      repeat (destruct Ht as [Ht|Ht];
              [apply pair_equal_spec in Ht as [_ <-]; vm_compute in Hy;
               injection Hy as <-; reflexivity|]).
      destruct Ht.
    + destruct (String.eqb (String d t) "constructor") eqn:Hk; cbn [truthy]; [discriminate|].
      destruct (list_includes column_reservedWords (String d t)) eqn:Hr.
      * apply list_includes_In in Hr. cbn in Hr. intros [= <-].
        repeat (destruct Hr as [Hr|Hr]; [rewrite <- Hr; vm_compute; reflexivity|]). destruct Hr.
      * intros [= <-]. unfold stable_column, term_fixed, openTargetsTerms_get.
        rewrite Hn, Hr, Ht, Hk. cbn. now rewrite Hd.
Qed.

Lemma sanitizeColumnName_stable r x y :
  has_alnum x = true ->
  sanitizeColumnName r (JStr x) = JStr y -> stable_column y = true.
Proof. intros H. apply sanitizeColumnName_stable_gen. left. now apply column_core_nonempty. Qed.

Lemma stable_column_fixed r n :
  stable_column n = true -> sanitizeColumnName r (JStr n) = JStr n.
Proof.
  unfold stable_column.
  intros [[[[Hn He]%andb_true_iff Hd]%andb_true_iff Hr]%andb_true_iff Ht]%andb_true_iff.
  apply negb_true_iff in He, Hd, Hr.
  unfold sanitizeColumnName. rewrite He, (column_core_id n Hn), Hd, He.
  unfold term_fixed in Ht.
  destruct (openTargetsTerms_get n) as [| | | |v| | |] eqn:Hg; try discriminate.
  - cbn [truthy]. now rewrite Hr.
  - apply String.eqb_eq in Ht. subst v. cbn [truthy].
    assert (String.eqb n EmptyString = false) as -> by (destruct n; [discriminate|reflexivity]).
    cbn [negb]. now rewrite Hr.
Qed.

(** The identifier fixer of [do.ts]. *)
Lemma toLowerCase_app a b : toLowerCase (a +:+ b) = toLowerCase a +:+ toLowerCase b.
Proof.
  unfold toLowerCase. induction a as [|c a IH]; [reflexivity|].
  simpl. now rewrite IH.
Qed.

Lemma fix_prefix_not_reserved t :
  list_includes fix_reservedWords ("table_" +:+ t) = false /\
  list_includes fix_reservedWords ("col_" +:+ t) = false.
Proof. split; reflexivity. Qed.

Lemma digit_not_underscore c : is_digit c = true -> is_underscore c = false.
Proof. each_char c. Qed.

Lemma prefixed_stable_fixed k s :
  all_chars is_low s = true -> separated s = true -> starts_with_digit s = true ->
  stable_fixed (fix_prefix k +:+ s) = true.
Proof.
  intros Ha Hs Hd. unfold stable_fixed.
  assert (list_includes fix_reservedWords (fix_prefix k +:+ s) = false) as ->
    by (destruct k; apply fix_prefix_not_reserved).
  destruct s as [|d t]; [discriminate|]. cbn [starts_with_digit] in Hd.
  pose proof (digit_not_underscore d Hd) as Hu. unfold normal.
  cbn [all_chars separated] in Ha, Hs. rewrite Hu in Hs. cbn [andb] in Hs.
  apply andb_true_iff in Ha as [Hlow Hall].
  destruct k; simpl; rewrite Hlow, Hall, Hu, Hs; reflexivity.
Qed.

Lemma validateAndFixIdentifier_stable x k :
  stable_fixed (validateAndFixIdentifier x k) = true.
Proof.
  unfold validateAndFixIdentifier.
  destruct (is_empty x); [destruct k; reflexivity|].
  destruct (strip_collapse_shape is_word (replace_non_word x) (replace_all_word x))
    as (Ha & Hh & Hs).
  destruct (strip_edge_underscores (collapse_underscores (replace_non_word x)))
    as [|d t] eqn:Hc; [destruct k; reflexivity|].
  pose proof (lower_all_low _ Ha) as Ha'.
  pose proof (lower_separated _ Ha) as Hs'. rewrite Hs in Hs'.
  pose proof (lower_head _ Ha) as Hh'. rewrite Hh in Hh'.
  pose proof (lower_starts_digit _ Ha) as Hd'.
  pose proof (lower_is_empty (String d t)) as He'. cbn [is_empty] in He'.
  remember (toLowerCase (String d t)) as L eqn:HL.
  cbn [starts_with_digit] in Hd' |- *. destruct (is_digit d) eqn:Hd.
  - fold (fix_prefix k).
    assert (is_empty (fix_prefix k +:+ String d t) = false) as -> by now destruct k.
    rewrite toLowerCase_app.
    assert (toLowerCase (fix_prefix k) = fix_prefix k) as -> by now destruct k.
    rewrite <- HL.
    assert (list_includes fix_reservedWords (fix_prefix k +:+ L) = false)
      as -> by (destruct k; apply fix_prefix_not_reserved).
    rewrite toLowerCase_app, <- HL.
    assert (toLowerCase (fix_prefix k) = fix_prefix k) as -> by now destruct k.
    now apply prefixed_stable_fixed.
  - cbn [is_empty]. fold (fix_suffix k). rewrite <- HL.
    destruct (list_includes fix_reservedWords L) eqn:Hr.
    + rewrite toLowerCase_app, <- HL. apply list_includes_In in Hr. cbn in Hr.
      repeat (destruct Hr as [Hr|Hr]; [rewrite <- Hr; destruct k; vm_compute; reflexivity|]).
      destruct Hr.
    + rewrite <- HL. unfold stable_fixed, normal. now rewrite Ha', Hh', Hs', He', Hd', Hr.
Qed.

Lemma stable_fixed_fixed n k :
  stable_fixed n = true -> validateAndFixIdentifier n k = n.
Proof.
  unfold stable_fixed.
  intros [[[Hn He]%andb_true_iff Hd]%andb_true_iff Hr]%andb_true_iff.
  apply negb_true_iff in He, Hd, Hr. apply normal_parts in Hn as (Ha & Hh & Hs).
  unfold validateAndFixIdentifier. rewrite He.
  rewrite replace_word_id by (eapply all_chars_weaken; [apply low_is_word|exact Ha]).
  rewrite strip_collapse_id by assumption.
  rewrite Hd, He, (lower_normal_id n Ha), Hr. now apply lower_normal_id.
Qed.

Lemma sanitizeTableName_deterministic r1 r2 x :
  has_alnum x = true -> sanitizeTableName r1 (JStr x) = sanitizeTableName r2 (JStr x).
Proof.
  intros H. unfold sanitizeTableName. rewrite (has_alnum_nonempty x H).
  pose proof (table_core_nonempty x H) as He.
  destruct (table_core x) as [|d t]; [discriminate|].
  cbn [starts_with_digit]. destruct (is_digit d); reflexivity.
Qed.

Lemma sanitizeColumnName_deterministic r1 r2 x :
  has_alnum x = true -> sanitizeColumnName r1 (JStr x) = sanitizeColumnName r2 (JStr x).
Proof.
  intros H. unfold sanitizeColumnName. rewrite (has_alnum_nonempty x H).
  pose proof (column_core_nonempty x H) as He.
  destruct (column_core x) as [|d t]; [discriminate|].
  cbn [starts_with_digit]. destruct (is_digit d); reflexivity.
Qed.

(** The value the column sanitiser returns for the key [constructor] is
    not a string: the synonym table is an object literal and the lookup
    finds the inherited [Object]. *)
Example sanitizeColumnName_constructor r :
  sanitizeColumnName r (JStr "constructor") = JFun "Object".
Proof. reflexivity. Qed.

(** C9, as stated, fails: on the empty name and on the names [??] and
    [--] the sanitisers return a prefix followed by a random draw, so
    two calls on the same input give different names. *)
Lemma normalisers_depend_on_random_draw :
  sanitizeTableName "k2j9x1q0a" (JStr EmptyString) <>
    sanitizeTableName "z81hd03mm" (JStr EmptyString) /\
  sanitizeTableName "k2j9x1q0a" (JStr "??") <> sanitizeTableName "z81hd03mm" (JStr "??") /\
  sanitizeColumnName "k2j9x1q0a" (JStr "--") <> sanitizeColumnName "z81hd03mm" (JStr "--").
Proof. repeat split; discriminate. Qed.

(** When the draw is 0 the suffix is empty, and the name made of the bare
    prefix is not left alone. *)
Example empty_draw_not_stable :
  sanitizeTableName EmptyString (JStr "??") = "table_" /\
  sanitizeTableName EmptyString (JStr "table_") = "table_table".
Proof. split; reflexivity. Qed.

(** C9, amended: the normalisers are total functions.  The identifier
    fixer of the gate is deterministic and idempotent on every string.
    On a name that contains a letter or a digit the table and column
    sanitisers do not depend on the random draw at all: two calls return
    the same result, and normalising a result again returns it
    unchanged, whatever is drawn.  On any name, normalising a result
    again returns it unchanged when the suffix drawn at the first call
    is a non-empty string of lower-case letters and digits.  For the
    column sanitiser this is said of the results that are strings. *)
Theorem normalisers_idempotent :
  (forall x k,
      validateAndFixIdentifier (validateAndFixIdentifier x k) k = validateAndFixIdentifier x k) /\
  (forall x r r', drawn r = true ->
      sanitizeTableName r' (JStr (sanitizeTableName r (JStr x))) = sanitizeTableName r (JStr x)) /\
  (forall x r r' y, drawn r = true ->
      sanitizeColumnName r (JStr x) = JStr y -> sanitizeColumnName r' (JStr y) = JStr y) /\
  (forall x, has_alnum x = true ->
     (forall r1 r2, sanitizeTableName r1 (JStr x) = sanitizeTableName r2 (JStr x)) /\
     (forall r r', sanitizeTableName r' (JStr (sanitizeTableName r (JStr x)))
                   = sanitizeTableName r (JStr x)) /\
     (forall r1 r2, sanitizeColumnName r1 (JStr x) = sanitizeColumnName r2 (JStr x)) /\
     (forall r r' y, sanitizeColumnName r (JStr x) = JStr y ->
                     sanitizeColumnName r' (JStr y) = JStr y)).
Proof.
  split; [|split; [|split]].
  - intros x k. apply stable_fixed_fixed, validateAndFixIdentifier_stable.
  - intros x r r' Hr. apply stable_table_fixed, sanitizeTableName_stable_gen. now right.
  - intros x r r' y Hr Hy. eapply stable_column_fixed, sanitizeColumnName_stable_gen;
      [right; exact Hr|exact Hy].
  - intros x H. repeat split.
    + intros r1 r2. now apply sanitizeTableName_deterministic.
    + intros r r'. now apply stable_table_fixed, sanitizeTableName_stable.
    + intros r1 r2. now apply sanitizeColumnName_deterministic.
    + intros r r' y Hy. eapply stable_column_fixed, sanitizeColumnName_stable; eassumption.
Qed.

Lemma normalisers_idempotent_witness :
  has_alnum "approvedSymbol" = true /\ drawn "k2j9x1q0a" = true /\
  validateAndFixIdentifier (validateAndFixIdentifier "Order By" KColumn) KColumn
    = validateAndFixIdentifier "Order By" KColumn /\
  sanitizeTableName "z81hd03mm" (JStr (sanitizeTableName "k2j9x1q0a" (JStr "??")))
    = sanitizeTableName "k2j9x1q0a" (JStr "??") /\
  sanitizeTableName "r2" (JStr (sanitizeTableName "r1" (JStr "approvedSymbol")))
    = sanitizeTableName "r1" (JStr "approvedSymbol") /\
  sanitizeColumnName "r2" (JStr "approved_symbol") = JStr "approved_symbol".
Proof.
  destruct normalisers_idempotent as (Hfix & Hdrawn & _ & Hsan).
  destruct (Hsan "approvedSymbol" eq_refl) as (_ & Htable & _ & Hcolumn).
  split; [reflexivity|]. split; [reflexivity|]. split; [apply Hfix|].
  split; [apply Hdrawn; reflexivity|]. split; [apply Htable|].
  apply (Hcolumn "r1"). reflexivity.
Defined.

End IdentifierProperties.

(** ** Type resolver *)

Section TypeResolver.
Import Js JsString SchemaInferenceEngine.

Lemma record_get_fmap {X Y : Type} (f : X -> Y) (r : list (string * X)) k :
  record_get ((fun '(c, x) => (c, f x)) <$> r) k = f <$> record_get r k.
Proof.
  induction r as [|[k' x] r IH]; [reflexivity|]. cbn.
  destruct (String.eqb k k'); [reflexivity|exact IH].
Qed.

Lemma resolveColumnType_conflict types :
  (1 < length types)%nat ->
  resolveColumnType types =
    if set_has types "TEXT" then "TEXT"
    else if set_has types "REAL" then "REAL" else "INTEGER".
Proof. destruct types as [|t [|t' types]]; cbn [length]; try lia. reflexivity. Qed.

(** What [addColumnType] leaves in the column's set. *)
Lemma addColumnType_get columnTypes column type :
  record_get (addColumnType columnTypes column type) column =
    Some (set_add (default [] (record_get columnTypes column)) type).
Proof.
  unfold addColumnType. generalize (set_add (default [] (record_get columnTypes column)) type).
  intros v. induction columnTypes as [|[k x] r IH]; cbn.
  - now rewrite String.eqb_refl.
  - destruct (String.eqb column k) eqn:He; cbn; rewrite He; [reflexivity|exact IH].
Qed.

Lemma set_has_add types t t' :
  set_has (set_add types t) t' = (set_has types t' || String.eqb t' t)%bool.
Proof.
  unfold set_add, set_has, list_includes.
  destruct (existsb (String.eqb t) types) eqn:Ht.
  - destruct (String.eqb_spec t' t) as [->|Hne]; [now rewrite Ht|now rewrite orb_false_r].
  - rewrite existsb_app. cbn. now rewrite orb_false_r.
Qed.

Lemma set_has_observe types values t :
  set_has (observe types values) t = (set_has types t || existsb (observes t) values)%bool.
Proof.
  revert types. induction values as [|v values IH]; intros types.
  - cbn. now rewrite orb_false_r.
  - change (observe types (v :: values)) with (observe (set_add types (getSQLiteType v)) values).
    rewrite IH, set_has_add. cbn [existsb]. unfold observes at 2. now rewrite orb_assoc.
Qed.

Lemma getSQLiteType_class v :
  getSQLiteType v = "TEXT" \/ getSQLiteType v = "REAL" \/ getSQLiteType v = "INTEGER".
Proof. destruct v; cbn; auto. destruct (Number_isInteger n); auto. Qed.

Lemma set_add_nonempty types t : set_add types t <> [].
Proof. unfold set_add. destruct (set_has types t) eqn:H; [now destruct types|now destruct types]. Qed.

Lemma observe_nonempty types values : types <> [] -> observe types values <> [].
Proof.
  revert types. induction values as [|v values IH]; intros types H; [exact H|].
  cbn. apply IH, set_add_nonempty.
Qed.

Lemma set_has_single t t' : set_has [t] t' = String.eqb t' t.
Proof. unfold set_has, list_includes. cbn. now rewrite orb_false_r. Qed.

(** The class of a column whose values are [v :: values]: TEXT if some
    value is observed as TEXT, else REAL if some value is observed as REAL,
    else INTEGER, also when all observations agree. *)
Lemma resolve_observed v values :
  resolveColumnType (observe [] (v :: values)) =
    if existsb (observes "TEXT") (v :: values) then "TEXT"
    else if existsb (observes "REAL") (v :: values) then "REAL"
    else "INTEGER".
Proof.
  pose proof (set_has_observe [] (v :: values)) as Hhas. cbn [set_has list_includes existsb orb] in Hhas.
  cbn [existsb]. rewrite <- !Hhas. clear Hhas.
  assert (forall t, set_has (observe [] (v :: values)) t = true ->
                    t = "TEXT" \/ t = "REAL" \/ t = "INTEGER") as Hclass.
  { intros t. rewrite set_has_observe. cbn [set_has list_includes orb].
    change (existsb (String.eqb t) []) with false. cbn [orb].
    intros (w & _ & Hw)%existsb_exists. unfold observes in Hw. apply String.eqb_eq in Hw.
    subst t. apply getSQLiteType_class. }
  assert (observe [] (v :: values) <> []) as Hne.
  { change (observe [] (v :: values)) with (observe (set_add [] (getSQLiteType v)) values).
    apply observe_nonempty, set_add_nonempty. }
  destruct (observe [] (v :: values)) as [|t [|t' rest]]; [congruence| |reflexivity].
  cbn [resolveColumnType]. rewrite !set_has_single.
  destruct (Hclass t) as [->| [->| ->]]; try reflexivity.
  rewrite set_has_single. apply String.eqb_refl.
Qed.

(** C5: the observation of each kind of value, and the class a column
    resolves to when its observation set holds more than one class. *)
Theorem column_type_resolution :
  (getSQLiteType JNull = "TEXT" /\ getSQLiteType JUndefined = "TEXT") /\
  (forall b, getSQLiteType (JBool b) = "INTEGER") /\
  (forall n, Number_isInteger n = true -> getSQLiteType (JNum n) = "INTEGER") /\
  (forall n, Number_isInteger n = false -> getSQLiteType (JNum n) = "REAL") /\
  (forall s, getSQLiteType (JStr s) = "TEXT") /\
  (forall v, (forall b, v <> JBool b) -> (forall n, v <> JNum n) -> getSQLiteType v = "TEXT") /\
  (forall columnTypes columnName types,
      record_get columnTypes columnName = Some types ->
      (1 < length types)%nat ->
      record_get (resolveColumnTypes columnTypes) columnName =
        Some (if set_has types "TEXT" then "TEXT"
              else if set_has types "REAL" then "REAL" else "INTEGER")).
Proof.
  repeat split; try reflexivity.
  - intros n H. cbn. now rewrite H.
  - intros n H. cbn. now rewrite H.
  - intros v Hb Hn. destruct v; try reflexivity; [now destruct (Hb b)|now destruct (Hn n)].
  - intros cts c types Hget Hlen. unfold resolveColumnTypes.
    rewrite record_get_fmap, Hget. cbn. f_equal. now apply resolveColumnType_conflict.
Qed.

Lemma column_type_resolution_witness :
  getSQLiteType (JNum (NFin (3 # 2))) = "REAL" /\
  record_get
    (resolveColumnTypes
       (addColumnType (addColumnType (addColumnType [] "v" (getSQLiteType (JNum (NFin 1))))
                                     "v" (getSQLiteType (JNum (NFin (3 # 2)))))
                      "v" (getSQLiteType (JStr "a"))))
    "v" = Some "TEXT".
Proof.
  destruct column_type_resolution as (_ & _ & _ & Hreal & _ & _ & Hwide).
  split; [apply Hreal; reflexivity|].
  apply (Hwide _ "v" ["INTEGER"; "REAL"; "TEXT"]); [reflexivity|cbn; lia].
Defined.

End TypeResolver.

(** ** Entity typing in the two engines *)

Section EntityTyping.
Import Js JsString Identifier Examples.

(** When the node carries a truthy type discriminator [__typename] both
    engines name the entity by it. *)
Lemma inferEntityType_typename rnd obj path :
  truthy (get obj "__typename") = true ->
  DataInsertionEngine.inferEntityType rnd obj path =
    SchemaInferenceEngine.inferEntityType rnd obj path.
Proof.
  intros H. unfold DataInsertionEngine.inferEntityType, SchemaInferenceEngine.inferEntityType.
  now rewrite H.
Qed.

(** C3 fails on the code: for the payload [{"studies": [{"id": "S1",
    "name": "x"}]}] both traversals reach the inner object under the path
    [studies]; both engines take it for an entity; inference names its
    table [study], insertion looks for a table [studie]. *)
Theorem entity_typing_diverges :
  SchemaInferenceEngine.isEntity study = true /\
  DataInsertionEngine.isEntity study = true /\
  (forall rnd, SchemaInferenceEngine.inferEntityType rnd study ["studies"] = "study") /\
  (forall rnd, DataInsertionEngine.inferEntityType rnd study ["studies"] = "studie").
Proof. repeat split. Qed.

End EntityTyping.

(** ** Junction tables *)

Section JunctionTables.
Import Js JsString SchemaInferenceEngine Junction DataInsertionEngine Examples Shape.

Lemma ltb_asym a b : String.ltb a b = true -> String.ltb b a = false.
Proof.
  unfold String.ltb. rewrite (String.compare_antisym a b).
  destruct (String.compare b a); cbn; congruence.
Qed.

Lemma ltb_total a b : a <> b -> String.ltb a b = false -> String.ltb b a = true.
Proof.
  unfold String.ltb. intros Hne. rewrite (String.compare_antisym a b).
  destruct (String.compare b a) eqn:H; cbn; try congruence.
  apply String.compare_eq_iff in H. congruence.
Qed.

(** The junction name does not depend on the direction of the relation. *)
Lemma junctionName_comm a b : junctionName a b = junctionName b a.
Proof.
  unfold junctionName, sort2.
  destruct (String.eqb_spec a b) as [->|Hne]; [reflexivity|].
  destruct (String.ltb b a) eqn:Hba.
  - now rewrite (ltb_asym _ _ Hba).
  - now rewrite (ltb_total b a) by congruence.
Qed.

(** A relation of a type with itself is not recorded. *)
Lemma recordRelationship_self rels a : recordRelationship rels a a = rels.
Proof. unfold recordRelationship. now rewrite String.eqb_refl. Qed.

Lemma underscore_char c : Ascii.eqb c "_" = is_underscore c.
Proof. destruct c as [[] [] [] [] [] [] [] []]; reflexivity. Qed.

Lemma split_on_plain s : plain s = true -> split_on "_" s = [s].
Proof.
  induction s as [|c s IH]; [reflexivity|]. cbn [plain all_chars].
  intros [Hc Hs]%andb_true_iff. cbn [split_on]. rewrite underscore_char.
  apply negb_true_iff in Hc. rewrite Hc. fold (plain s) in Hs. now rewrite (IH Hs).
Qed.

Lemma split_on_first a b :
  plain a = true -> split_on "_" (a +:+ "_" +:+ b) = a :: split_on "_" b.
Proof.
  induction a as [|c a IH]; [reflexivity|]. cbn [plain all_chars].
  intros [Hc Ha]%andb_true_iff.
  change (String c a +:+ "_" +:+ b) with (String c (a +:+ "_" +:+ b)).
  cbn [split_on]. rewrite underscore_char.
  apply negb_true_iff in Hc. rewrite Hc. fold (plain a) in Ha. now rewrite (IH Ha).
Qed.

(** For type names without an underscore phase B addresses the columns of
    the two names in the order of the junction name. *)
Lemma junctionEndpoints_plain a b :
  plain a = true -> plain b = true ->
  junctionEndpoints (junctionName a b) =
    if String.ltb b a then (b +:+ "_id", a +:+ "_id") else (a +:+ "_id", b +:+ "_id").
Proof.
  intros Ha Hb. unfold junctionEndpoints, junctionName, sort2, join.
  destruct (String.ltb b a); cbn [String.concat];
    rewrite split_on_first, split_on_plain by assumption; reflexivity.
Qed.

Lemma record_set_get {X : Type} (r : list (string * X)) k x k' :
  record_get (record_set r k x) k' =
    if String.eqb k' k then Some x else record_get r k'.
Proof.
  induction r as [|[k0 x0] r IH]; cbn.
  - reflexivity.
  - destruct (String.eqb_spec k k0) as [->|Hne]; cbn.
    + destruct (String.eqb k' k0); reflexivity.
    + rewrite IH. destruct (String.eqb_spec k' k0) as [->|Hne'];
        [|reflexivity].
      destruct (String.eqb_spec k0 k); [congruence|reflexivity].
Qed.

Lemma junctionsOf_spec fromTable relatedTables acc :
  junctions_exist acc ->
  junctions_exist (junctionsOf fromTable relatedTables acc) /\
  (forall n, record_get (snd acc) n <> None ->
             record_get (snd (junctionsOf fromTable relatedTables acc)) n <> None) /\
  (forall toTable, In toTable relatedTables ->
     record_get (snd (junctionsOf fromTable relatedTables acc)) (junctionName fromTable toTable)
     <> None).
Proof.
  revert acc. induction relatedTables as [|t rest IH]; intros [names schemas] Hacc.
  - cbn. split; [exact Hacc|]. split; [auto|]. intros ? [].
  - cbn [junctionsOf].
    set (acc' := if set_has names (junctionName fromTable t) then (names, schemas)
                 else (set_add names (junctionName fromTable t),
                       record_set schemas (junctionName fromTable t)
                                  (junctionSchema fromTable t))).
    assert (junctions_exist acc' /\
            (forall n, record_get schemas n <> None -> record_get (snd acc') n <> None) /\
            record_get (snd acc') (junctionName fromTable t) <> None) as (H1 & H2 & H3).
    { subst acc'. destruct (set_has names (junctionName fromTable t)) eqn:Hh.
      - split; [exact Hacc|]. split; [auto|]. now apply Hacc.
      - cbn [fst snd]. split; [|split].
        + intros n. cbn [fst snd]. rewrite set_has_add, record_set_get.
          destruct (String.eqb n (junctionName fromTable t)); [discriminate|].
          rewrite orb_false_r. apply Hacc.
        + intros n Hn. rewrite record_set_get.
          destruct (String.eqb n (junctionName fromTable t)); [discriminate|exact Hn].
        + rewrite record_set_get, String.eqb_refl. discriminate. }
    destruct (IH acc' H1) as (I1 & I2 & I3). split; [exact I1|]. split.
    + intros n Hn. apply I2, H2, Hn.
    + intros toTable [<-|Hin]; [now apply I2|now apply I3].
Qed.

Lemma junctionsLoop_spec rels acc :
  junctions_exist acc ->
  (forall n, record_get (snd acc) n <> None ->
             record_get (snd (junctionsLoop rels acc)) n <> None) /\
  (forall fromTable relatedTables toTable,
      In (fromTable, relatedTables) rels -> In toTable relatedTables ->
      record_get (snd (junctionsLoop rels acc)) (junctionName fromTable toTable) <> None).
Proof.
  revert acc. induction rels as [|[f ts] rels IH]; intros acc Hacc.
  - cbn. split; [auto|]. intros ? ? ? [].
  - cbn [junctionsLoop]. destruct (junctionsOf_spec f ts acc Hacc) as (H1 & H2 & H3).
    destruct (IH _ H1) as (I1 & I2). split.
    + intros n Hn. apply I1, H2, Hn.
    + intros f' ts' t' [[= <- <-]|Hin] Ht; [apply I1, H3, Ht|eapply I2; eassumption].
Qed.

(** Every recorded relation has its junction table, under the name made of
    the two type names in sorted order. *)
Lemma junction_table_created rels schemas fromTable relatedTables toTable :
  In (fromTable, relatedTables) rels -> In toTable relatedTables ->
  record_get (createJunctionTableSchemas rels schemas) (junctionName fromTable toTable) <> None.
Proof.
  intros H1 H2. unfold createJunctionTableSchemas.
  eapply junctionsLoop_spec; [|eassumption..]. intros n Hn. discriminate.
Qed.

(** C6 fails on the code: for the types [drug_warning] and [target] the
    junction table is named and shaped as the claim says, but phase B
    recovers the endpoint names by splitting the table name at every
    underscore and addresses the columns [drug_id] and [warning_id], which
    the table does not have. *)
Theorem junction_columns_split_wrong :
  let schemas := createJunctionTableSchemas drug_warning_relations [] in
  junctionName "drug_warning" "target" = "drug_warning_target" /\
  (columns <$> record_get schemas "drug_warning_target") =
    Some [("id", "INTEGER PRIMARY KEY AUTOINCREMENT");
          ("drug_warning_id", "INTEGER"); ("target_id", "INTEGER")] /\
  junctionEndpoints "drug_warning_target" = ("drug_id", "warning_id") /\
  (forall Number,
      statement <$> insertJunctionTableRecords Number [("drug_warning_target", ["7_9"])] schemas =
      ["INSERT OR IGNORE INTO drug_warning_target (drug_id, warning_id) VALUES (?, ?)"]).
Proof. repeat split. Qed.

End JunctionTables.

(** ** SQL gate *)

Section SqlGateProperties.
Import Js JsString Regex SqlGate Examples.

Lemma star_spec p k prev s :
  star p k prev s = true <->
  k prev s = true \/ exists prev' s', run p prev s prev' s' /\ k prev' s' = true.
Proof.
  revert prev. induction s as [|d s IH]; intros prev; cbn [star].
  - rewrite orb_false_r. split; [now left|]. intros [H|(p' & s' & Hr & _)]; [exact H|inversion Hr].
  - rewrite orb_true_iff, andb_true_iff, IH. split.
    + intros [H|[Hd [H|(p' & s' & Hr & Hk)]]]; [now left|right..].
      * exists (Some d), s. split; [now constructor|exact H].
      * exists p', s'. split; [now apply run_more|exact Hk].
    + intros [H|(p' & s' & Hr & Hk)]; [now left|right].
      inversion Hr; subst; (split; [assumption|]); [now left|right; eauto].
Qed.

Lemma plus_spec p k prev s :
  plus p k prev s = true <-> exists prev' s', run p prev s prev' s' /\ k prev' s' = true.
Proof.
  destruct s as [|d s]; cbn [plus].
  - split; [discriminate|]. intros (p' & s' & Hr & _). inversion Hr.
  - rewrite andb_true_iff, star_spec. split.
    + intros [Hd [H|(p' & s' & Hr & Hk)]].
      * exists (Some d), s. split; [now constructor|exact H].
      * exists p', s'. split; [now apply run_more|exact Hk].
    + intros (p' & s' & Hr & Hk).
      inversion Hr; subst; (split; [assumption|]); [now left|right; eauto].
Qed.

(** The matcher decides the relational reading of the patterns. *)
Lemma matches_spec r : forall prev s k,
  matches r prev s k = true <->
  exists prev' s', sem r prev s prev' s' /\ k prev' s' = true.
Proof.
  induction r as [|c| | | |r1 IH1 r2 IH2|r1 IH1 r2 IH2|r IH]; intros prev s k; cbn [matches sem].
  - split; [intros H; now exists prev, s|]. now intros (p' & s' & [-> ->] & H).
  - destruct s as [|d s].
    + split; [discriminate|]. intros (p' & s' & (d & Hd & _) & _). discriminate.
    + destruct (Ascii.eqb_spec (lower_char d) (lower_char c)) as [He|Hne].
      * split; [intros Hk; exists (Some d), s; eauto|].
        intros (p' & s' & (d' & [= <- <-] & -> & _) & Hk). exact Hk.
      * split; [discriminate|].
        intros (p' & s' & (d' & [= <- <-] & _ & He') & _). contradiction.
  - apply plus_spec.
  - apply plus_spec.
  - destruct (xorb _ _).
    + split; [intros H; now exists prev, s|]. now intros (p' & s' & (_ & -> & ->) & H).
    + split; [discriminate|]. intros (p' & s' & (H & _) & _). discriminate.
  - rewrite IH1. split.
    + intros (p1 & s1 & H1 & (p2 & s2 & H2 & Hk)%IH2). exists p2, s2. eauto.
    + intros (p2 & s2 & (p1 & s1 & H1 & H2) & Hk). exists p1, s1. split; [exact H1|].
      apply IH2. eauto.
  - rewrite orb_true_iff, IH1, IH2. split.
    + intros [(p' & s' & H & Hk)|(p' & s' & H & Hk)]; exists p', s'; tauto.
    + intros (p' & s' & [H|H] & Hk); [left|right]; eauto.
  - destruct (matches r prev s (fun _ _ => true)) eqn:Hm.
    + apply IH in Hm as (p1 & s1 & H1 & _). split; [discriminate|].
      intros (p' & s' & (Hn & _) & _). destruct Hn. eauto.
    + split.
      * intros H. exists prev, s. repeat split; [|exact H].
        intros (p1 & s1 & H1). assert (matches r prev s (fun _ _ => true) = true) as Ht
          by (apply IH; eauto). congruence.
      * now intros (p' & s' & (_ & -> & ->) & H).
Qed.

(** [search] tries every position of the input. *)
Lemma search_spec r s : forall prev,
  search r prev s = true <->
  exists before after p1 s1,
    s = before +:+ after /\ sem r (last_of prev before) after p1 s1.
Proof.
  induction s as [|c s IH]; intros prev; cbn [search].
  - rewrite orb_false_r, matches_spec. split.
    + intros (p1 & s1 & H & _). now exists EmptyString, EmptyString, p1, s1.
    + intros (before & after & p1 & s1 & He & H).
      destruct before; [|discriminate].
      change (EmptyString +:+ after) with after in He. cbn in H. subst after. eauto.
  - rewrite orb_true_iff, matches_spec, IH. split.
    + intros [(p1 & s1 & H & _)|(before & after & p1 & s1 & -> & H)].
      * now exists EmptyString, (String c s), p1, s1.
      * now exists (String c before), after, p1, s1.
    + intros (before & after & p1 & s1 & He & H). destruct before as [|c' before].
      * left. change (EmptyString +:+ after) with after in He. cbn in H. subst after. eauto.
      * right. change (String c' before +:+ after) with (String c' (before +:+ after)) in He.
        injection He as -> ->. now exists before, after, p1, s1.
Qed.

(** [pattern.test(s)] holds exactly when the pattern matches somewhere. *)
Lemma test_spec r s :
  test r s = true <->
  exists before after p1 s1,
    s = before +:+ after /\ sem r (last_of None before) after p1 s1.
Proof. apply search_spec. Qed.

Lemma startsWithAllowed_spec sql :
  startsWithAllowed (toLowerCase (trim sql)) = true <-> allowed_start sql.
Proof. unfold startsWithAllowed, allowed_start. apply existsb_exists. Qed.

Lemma firstBlocked_None sql : firstBlocked sql = None <-> ~ blocked sql.
Proof.
  unfold firstBlocked, blocked. split.
  - intros H (p & Hin & Hp). eapply find_none in H; [|exact Hin]. cbn in H. congruence.
  - intros H. destruct (find _ _) as [p|] eqn:Hf; [|reflexivity].
    apply find_some in Hf. destruct H. now exists p.
Qed.

Lemma rejected_iff sql : rejected sql <-> ~ allowed_start sql \/ blocked sql.
Proof.
  unfold rejected, validateAnalyticalSql. rewrite <- startsWithAllowed_spec.
  destruct (startsWithAllowed (toLowerCase (trim sql))) eqn:Hs; cbn [negb].
  - destruct (firstBlocked sql) as [p|] eqn:Hf; cbn [isValid].
    + split; [|reflexivity]. intros _. right. apply find_some in Hf. now exists p.
    + apply firstBlocked_None in Hf. split; [discriminate|]. intros [H|H]; tauto.
  - cbn. split; [|reflexivity]. intros _. left. discriminate.
Qed.

(** C1: a statement is turned down exactly when it has no allowed start or
    matches a blocked pattern; a statement turned down yields a failure
    response and leaves the database as it was, whatever the engine; any
    other statement is handed to the engine and the response is built from
    the engine's answer. *)
Theorem sql_gate {DB : Type}
        (sql_exec : string -> DB -> Result (list (list (string * JsValue)) * list string) * DB)
        (q : string) (db : DB) :
  (rejected q <-> ~ allowed_start q \/ blocked q) /\
  (rejected q -> exists e, executeSql sql_exec q db = (SqlFailure e q, db)) /\
  (~ rejected q ->
   executeSql sql_exec q db =
     match sql_exec q db with
     | (Ok (results, columnNames), db') =>
         (SqlSuccess results (Z.of_nat (length results)) columnNames
                     (queryType (validateAnalyticalSql q)), db')
     | (Throw message, db') => (SqlFailure message q, db')
     end).
Proof.
  split; [apply rejected_iff|]. unfold rejected, executeSql. split.
  - intros ->. cbn. eauto.
  - intros H. destruct (isValid (validateAnalyticalSql q)); [reflexivity|congruence].
Qed.

Lemma sql_gate_witness :
  rejected "DROP TABLE foo" /\
  (exists e, executeSql log_query "DROP TABLE foo" [] = (SqlFailure e "DROP TABLE foo", [])) /\
  ~ rejected "CREATE TEMP VIEW v AS SELECT 1" /\
  executeSql log_query "CREATE TEMP VIEW v AS SELECT 1" [] =
    (SqlSuccess [] 0 [] (Some "create_temp"), [("CREATE TEMP VIEW v AS SELECT 1", [])]).
Proof.
  assert (rejected "DROP TABLE foo") as Hr by reflexivity.
  assert (~ rejected "CREATE TEMP VIEW v AS SELECT 1") as Ha by (intros H; discriminate H).
  split; [exact Hr|]. split.
  - apply (proj1 (proj2 (sql_gate log_query "DROP TABLE foo" []))). exact Hr.
  - split; [exact Ha|].
    rewrite (proj2 (proj2 (sql_gate log_query "CREATE TEMP VIEW v AS SELECT 1" [])) Ha).
    reflexivity.
Defined.

(** The gate looks at the text only: a blocked phrase inside a string
    literal turns the statement down as well. *)
Example blocked_phrase_in_literal : rejected "select 'x delete  From'".
Proof. reflexivity. Qed.

End SqlGateProperties.

(** ** Base64 *)

Section ChunkStoreProperties.
Import Js JsString Base64 ChunkingEngine Reconstitution Examples.

Lemma string_ind3 (P : string -> Prop) :
  P EmptyString ->
  (forall a, P (String a EmptyString)) ->
  (forall a b, P (String a (String b EmptyString))) ->
  (forall a b c rest, P rest -> P (String a (String b (String c rest)))) ->
  forall s, P s.
Proof.
  intros H0 H1 H2 H3.
  assert (forall s, P s /\ (forall a, P (String a s)) /\ (forall a b, P (String a (String b s))))
    as H; [|intros s; apply H].
  induction s as [|c s (IH0 & IH1 & IH2)]; [now auto|].
  repeat split; [apply IH1|intros; apply IH2|intros; now apply H3].
Qed.

Lemma code_lt c : (code c < 256)%N.
Proof. each_char c. Qed.

Lemma b64_index_char n : (n < 64)%N -> b64_index (b64_char n) = Some n.
Proof.
  intros H.
  assert (In n (N.of_nat <$> seq 0 64)) as Hin.
  { apply in_map_iff. exists (N.to_nat n). split; [lia|]. apply in_seq. lia. }
  vm_compute in Hin.
  repeat (destruct Hin as [<-|Hin]; [reflexivity|]). destruct Hin.
Qed.

Lemma b64_char_plain n :
  is_ascii_whitespace (b64_char n) = false /\ is_equals (b64_char n) = false.
Proof.
  destruct (N.ltb n 64) eqn:H.
  - apply N.ltb_lt in H.
    assert (In n (N.of_nat <$> seq 0 64)) as Hin.
    { apply in_map_iff. exists (N.to_nat n). split; [lia|]. apply in_seq. lia. }
    vm_compute in Hin.
    repeat (destruct Hin as [<-|Hin]; [split; reflexivity|]). destruct Hin.
  - apply N.ltb_ge in H. unfold b64_char.
    destruct (N.ltb_spec n 26); [lia|]. destruct (N.ltb_spec n 52); [lia|].
    destruct (N.ltb_spec n 62); [lia|]. destruct (N.eqb_spec n 62); [lia|].
    split; reflexivity.
Qed.

Lemma strip_equals_cons c s :
  is_equals c = false ->
  strip_trailing_equals (String c s) = String c (strip_trailing_equals s).
Proof. intros H. destruct s; simpl; now rewrite ?H. Qed.

Lemma strip2_cons n s :
  strip_trailing_equals (strip_trailing_equals (String (b64_char n) s)) =
  String (b64_char n) (strip_trailing_equals (strip_trailing_equals s)).
Proof. now rewrite !strip_equals_cons by apply b64_char_plain. Qed.

Lemma btoa_no_whitespace s : remove_whitespace (btoa s) = btoa s.
Proof.
  induction s as [|a|a b|a b c rest IH] using string_ind3;
    cbn [btoa remove_whitespace];
    rewrite ?(proj1 (b64_char_plain _)), ?IH; reflexivity.
Qed.

Lemma btoa_length s : exists k, String.length (btoa s) = (4 * k)%nat.
Proof.
  induction s as [|a|a b|a b c rest [k IH]] using string_ind3.
  - now exists 0%nat.
  - now exists 1%nat.
  - now exists 1%nat.
  - exists (S k). cbn [btoa String.length]. rewrite IH. lia.
Qed.

Lemma byte_code a : byte (code a) = a.
Proof. apply ascii_N_embedding. Qed.

Ltac euclid := zify; Z.to_euclidean_division_equations; lia.

Lemma sextet_bounds (a b c : N) :
  (a < 256 -> b < 256 -> c < 256 ->
   a / 4 < 64 /\ a mod 4 * 16 + b / 16 < 64 /\ b mod 16 * 4 + c / 64 < 64 /\ c mod 64 < 64 /\
   a mod 4 * 16 < 64 /\ b mod 16 * 4 < 64)%N.
Proof. intros. repeat split; euclid. Qed.

Lemma sextet_join (a b c : N) :
  (a < 256 -> b < 256 -> c < 256 ->
   a / 4 * 4 + (a mod 4 * 16 + b / 16) / 16 = a /\
   (a mod 4 * 16 + b / 16) mod 16 * 16 + (b mod 16 * 4 + c / 64) / 4 = b /\
   (b mod 16 * 4 + c / 64) mod 4 * 64 + c mod 64 = c /\
   a / 4 * 4 + (a mod 4 * 16) / 16 = a /\
   (a mod 4 * 16 + b / 16) mod 16 * 16 + (b mod 16 * 4) / 4 = b)%N.
Proof. intros. repeat split; euclid. Qed.

Lemma atob_core s :
  exists l,
    sextets (strip_trailing_equals (strip_trailing_equals (btoa s))) = Some l /\
    decode l = s /\
    (String.length (strip_trailing_equals (strip_trailing_equals (btoa s))) mod 4)%nat <> 1%nat.
Proof.
  induction s as [|a|a b|a b c rest (l & Hl & Hd & Hm)] using string_ind3.
  - exists []. repeat split. cbn. lia.
  - destruct (sextet_bounds (code a) 0 0 (code_lt a)) as (H1 & _ & _ & _ & H2 & _); [lia..|].
    destruct (sextet_join (code a) 0 0 (code_lt a)) as (_ & _ & _ & H3 & _); [lia..|].
    eexists. cbn [btoa]. rewrite !strip2_cons.
    change (strip_trailing_equals (strip_trailing_equals "==")) with EmptyString.
    cbn [sextets]. rewrite !b64_index_char by assumption.
    split; [reflexivity|]. cbn [decode String.length]. rewrite H3, byte_code.
    split; [reflexivity|]. cbn. lia.
  - destruct (sextet_bounds (code a) (code b) 0 (code_lt a) (code_lt b))
      as (H1 & H2 & _ & _ & _ & H3); [lia|].
    destruct (sextet_join (code a) (code b) 0 (code_lt a) (code_lt b))
      as (H4 & _ & _ & _ & H5); [lia|].
    eexists. cbn [btoa]. rewrite !strip2_cons.
    change (strip_trailing_equals (strip_trailing_equals "=")) with EmptyString.
    cbn [sextets]. rewrite !b64_index_char by assumption.
    split; [reflexivity|]. cbn [decode String.length]. rewrite H4, H5, !byte_code.
    split; [reflexivity|]. cbn. lia.
  - destruct (sextet_bounds (code a) (code b) (code c) (code_lt a) (code_lt b) (code_lt c))
      as (H1 & H2 & H3 & H4 & _ & _).
    destruct (sextet_join (code a) (code b) (code c) (code_lt a) (code_lt b) (code_lt c))
      as (H5 & H6 & H7 & _ & _).
    eexists. cbn [btoa]. rewrite !strip2_cons.
    cbn [sextets]. rewrite !b64_index_char by assumption. rewrite Hl.
    split; [reflexivity|]. cbn [decode String.length]. rewrite H5, H6, H7, !byte_code, Hd.
    split; [reflexivity|].
    replace (S (S (S (S (String.length (strip_trailing_equals (strip_trailing_equals (btoa rest))))))))
      with (String.length (strip_trailing_equals (strip_trailing_equals (btoa rest))) + 1 * 4)%nat
      by lia.
    now rewrite Nat.Div0.mod_add.
Qed.

(** [atob] inverts [btoa]. *)
Lemma atob_btoa s : atob (btoa s) = Ok s.
Proof.
  unfold atob. rewrite btoa_no_whitespace.
  destruct (btoa_length s) as [k Hk]. rewrite Hk.
  replace (4 * k)%nat with (k * 4)%nat by lia. rewrite Nat.Div0.mod_mul. cbn [Nat.eqb].
  destruct (atob_core s) as (l & -> & -> & Hm).
  now apply Nat.eqb_neq in Hm as ->.
Qed.

(** ** Slices and chunks *)

Lemma append_empty_r s : s +:+ EmptyString = s.
Proof.
  induction s as [|c s IH]; [reflexivity|].
  change (String c s +:+ EmptyString) with (String c (s +:+ EmptyString)). now f_equal.
Qed.

Lemma join_empty_cons x l : join EmptyString (x :: l) = x +:+ join EmptyString l.
Proof.
  unfold join. destruct l; [|reflexivity].
  change (String.concat EmptyString [x]) with x. change (String.concat EmptyString []) with EmptyString.
  symmetry. apply append_empty_r.
Qed.

Lemma substring_all n s : (String.length s <= n)%nat -> String.substring 0 n s = s.
Proof.
  revert n. induction s as [|c s IH]; intros [|n] H; simpl in *; try reflexivity; try lia.
  rewrite IH by lia. reflexivity.
Qed.

Lemma append_cons c a b : String c a +:+ b = String c (a +:+ b).
Proof. reflexivity. Qed.

Lemma take_drop n s : String.substring 0 n s +:+ string_drop n s = s.
Proof.
  revert s. induction n as [|n IH]; intros [|c s]; try reflexivity.
  cbn [String.substring string_drop]. now rewrite append_cons, IH.
Qed.

Lemma substring_drop i n s :
  String.substring i n s +:+ string_drop (i + n) s = string_drop i s.
Proof.
  revert s. induction i as [|i IH]; intros s; [apply take_drop|].
  destruct s as [|c s]; simpl.
  - destruct n; reflexivity.
  - apply IH.
Qed.

Lemma string_drop_all i s : (String.length s <= i)%nat -> string_drop i s = EmptyString.
Proof.
  revert s. induction i as [|i IH]; intros [|c s] H; simpl in *; try reflexivity; try lia.
  apply IH. lia.
Qed.

Lemma substring_length i n s :
  String.length (String.substring i n s) = Nat.min n (String.length s - i).
Proof.
  revert n s. induction i as [|i IH]; intros n s.
  - revert s. induction n as [|n IHn]; intros [|c s]; simpl; try reflexivity.
    rewrite IHn. lia.
  - destruct s as [|c s]; simpl; [destruct n; reflexivity|]. apply IH.
Qed.

Section Split.
Variable size : nat.
Hypothesis size_pos : (0 < size)%nat.
Variable content : string.

Lemma slice_size i : slice i (i + size) content = String.substring i size content.
Proof. unfold slice. f_equal. lia. Qed.

Lemma splitLoop_join fuel i :
  (String.length content - i <= fuel)%nat ->
  join EmptyString (splitLoop fuel size content i) = string_drop i content.
Proof.
  revert i. induction fuel as [|fuel IH]; intros i H; cbn [splitLoop].
  - symmetry. apply string_drop_all. lia.
  - destruct (Nat.ltb_spec i (String.length content)).
    + rewrite join_empty_cons, IH, slice_size by lia. apply substring_drop.
    + symmetry. apply string_drop_all. lia.
Qed.

Lemma splitLoop_count fuel i :
  (String.length content - i <= fuel)%nat ->
  let n := length (splitLoop fuel size content i) in
  (String.length content - i <= n * size)%nat /\
  (0 < n -> (n - 1) * size < String.length content - i)%nat.
Proof.
  revert i. induction fuel as [|fuel IH]; intros i H; cbn [splitLoop].
  - cbn. lia.
  - destruct (Nat.ltb_spec i (String.length content)); [|cbn; lia].
    specialize (IH (i + size)%nat ltac:(lia)). cbn [length] in *.
    destruct IH as [IH1 IH2]. split; [lia|]. intros _.
    destruct (length (splitLoop fuel size content (i + size))) as [|m]; [lia|].
    specialize (IH2 ltac:(lia)). lia.
Qed.

Lemma splitLoop_lookup fuel i k c :
  splitLoop fuel size content i !! k = Some c ->
  c = String.substring (i + k * size) size content /\
  (i + k * size < String.length content)%nat.
Proof.
  revert i k. induction fuel as [|fuel IH]; intros i k; cbn [splitLoop]; [discriminate|].
  destruct (Nat.ltb_spec i (String.length content)); [|discriminate].
  destruct k as [|k]; cbn.
  - intros [= <-]. rewrite slice_size. split; [f_equal; lia|lia].
  - intros Hk. apply IH in Hk as [-> Hk]. split; [f_equal; lia|lia].
Qed.
End Split.

Lemma CHUNK_SIZE_pos : (0 < Z.to_nat CHUNK_SIZE)%nat.
Proof. unfold CHUNK_SIZE. lia. Qed.

Lemma splitIntoChunks_join content : join EmptyString (splitIntoChunks content) = content.
Proof.
  unfold splitIntoChunks. rewrite splitLoop_join; [reflexivity|apply CHUNK_SIZE_pos|lia].
Qed.

Lemma CHUNK_SIZE_nat : Z.of_nat (Z.to_nat CHUNK_SIZE) = CHUNK_SIZE.
Proof. unfold CHUNK_SIZE. lia. Qed.

Lemma splitIntoChunks_count content :
  Z.of_nat (length (splitIntoChunks content)) = (len content + CHUNK_SIZE - 1) / CHUNK_SIZE.
Proof.
  unfold splitIntoChunks, len.
  pose proof (splitLoop_count _ CHUNK_SIZE_pos content (String.length content) 0%nat ltac:(lia))
    as [H1 H2].
  cbn zeta in H1, H2. pose proof CHUNK_SIZE_nat as Hz. pose proof CHUNK_SIZE_pos as Hp.
  remember (Z.to_nat CHUNK_SIZE) as sz eqn:Hsz. clear Hsz. rewrite <- Hz. clear Hz.
  remember (length (splitLoop (String.length content) sz content 0)) as n eqn:Hn. clear Hn.
  remember (String.length content) as L eqn:HL. clear HL.
  apply Z.div_unique with (r := Z.of_nat L + Z.of_nat sz - 1 - Z.of_nat sz * Z.of_nat n).
  - left. destruct n as [|n]; [nia|]. specialize (H2 ltac:(lia)). nia.
  - lia.
Qed.

Lemma splitIntoChunks_sizes content k c :
  splitIntoChunks content !! k = Some c ->
  0 < len c <= CHUNK_SIZE /\
  ((k + 1 < length (splitIntoChunks content))%nat -> len c = CHUNK_SIZE).
Proof.
  unfold splitIntoChunks, len. intros Hk.
  apply splitLoop_lookup in Hk as [-> Hlt]; [|apply CHUNK_SIZE_pos].
  rewrite substring_length.
  pose proof CHUNK_SIZE_nat as Hz.
  pose proof CHUNK_SIZE_pos. split; [lia|]. intros Hn.
  destruct (lookup_lt_is_Some_2 (splitLoop (String.length content) (Z.to_nat CHUNK_SIZE) content 0)
              (k + 1)%nat Hn) as [c' Hc'].
  apply splitLoop_lookup in Hc' as [_ Hc']; [lia|apply CHUNK_SIZE_pos].
Qed.

(** ** Store and retrieve *)

Lemma insertChunks_ok contentId chunks i db u db' :
  insertChunks contentId chunks i db = (Ok u, db') ->
  db' = mkStore (tables_exist db) (content_chunks db ++ chunkRows contentId chunks i)
                (chunk_metadata db).
Proof.
  revert i db. induction chunks as [|chunk rest IH]; intros i db; cbn [insertChunks chunkRows].
  - unfold ret. intros [= _ <-]. rewrite app_nil_r. now destruct db.
  - unfold bind, insertChunk.
    destruct (negb (tables_exist db)); [discriminate|].
    destruct (existsb _ _); [discriminate|].
    intros H. apply IH in H. subst db'. cbn. now rewrite <- app_assoc.
Qed.

Lemma insertChunks_fresh contentId chunks i db :
  tables_exist db = true ->
  Forall (fun r => content_id r = contentId -> chunk_index r < i) (content_chunks db) ->
  insertChunks contentId chunks i db =
    (Ok tt, mkStore true (content_chunks db ++ chunkRows contentId chunks i) (chunk_metadata db)).
Proof.
  revert i db. induction chunks as [|chunk rest IH]; intros i db Ht Hf;
    cbn [insertChunks chunkRows].
  - unfold ret. rewrite app_nil_r. destruct db; cbn in *. now subst.
  - unfold bind, insertChunk. rewrite Ht. cbn [negb].
    assert (existsb (same_slot (mkChunkRecord contentId i chunk (len chunk))) (content_chunks db)
            = false) as ->.
    { apply not_true_is_false. intros (r & Hin & Hr)%existsb_exists.
      unfold same_slot in Hr. cbn in Hr. apply andb_true_iff in Hr as [H1 H2].
      apply String.eqb_eq in H1. apply Z.eqb_eq in H2.
      rewrite Forall_forall in Hf. apply list_elem_of_In in Hin.
      specialize (Hf r Hin (eq_sym H1)). lia. }
    rewrite IH; cbn; [now rewrite <- app_assoc|reflexivity|].
    apply Forall_app. split.
    + eapply Forall_impl; [exact Hf|]. cbn. intros r Hr Hc. specialize (Hr Hc). lia.
    + constructor; [cbn; lia|constructor].
Qed.

Lemma storeChunkedContent_ok rt contentId' content contentType' db metadata db' :
  storeChunkedContent rt contentId' content contentType' db = (Ok metadata, db') ->
  metadata = metadataOf rt contentId' content contentType' /\
  db' = storedAfter rt contentId' content contentType' db.
Proof.
  unfold storeChunkedContent, storedAfter, metadataOf.
  destruct (processContent rt content) as [p c]. cbn [fst].
  unfold bind at 1. cbn [ensureChunksTable]. unfold bind at 1.
  destruct (insertChunks _ _ _ _) as [[u|e] db1] eqn:Hi; [|discriminate].
  apply insertChunks_ok in Hi. subst db1. cbn [tables_exist content_chunks chunk_metadata].
  unfold bind, storeMetadata, ret. cbn [tables_exist content_chunks chunk_metadata negb].
  destruct (existsb _ _); [discriminate|]. intros H. injection H as H1 H2. subst metadata db'. now split.
Qed.

Lemma fresh_parts contentId' db :
  fresh contentId' db = true ->
  Forall (fun r => content_id r <> contentId') (content_chunks db) /\
  Forall (fun m => contentId m <> contentId') (chunk_metadata db).
Proof.
  unfold fresh. intros [H1 H2]%andb_true_iff. rewrite forallb_forall in H1, H2.
  split; apply Forall_forall; intros x Hx%list_elem_of_In.
  - specialize (H1 x Hx). apply negb_true_iff, String.eqb_neq in H1. exact H1.
  - specialize (H2 x Hx). apply negb_true_iff, String.eqb_neq in H2. exact H2.
Qed.

Lemma storeChunkedContent_fresh rt contentId' content contentType' db :
  fresh contentId' db = true ->
  storeChunkedContent rt contentId' content contentType' db =
    (Ok (metadataOf rt contentId' content contentType'),
     storedAfter rt contentId' content contentType' db).
Proof.
  intros [Hc Hm]%fresh_parts. unfold storeChunkedContent, storedAfter, metadataOf.
  destruct (processContent rt content) as [p c]. cbn [fst].
  unfold bind at 1. cbn [ensureChunksTable]. unfold bind at 1.
  rewrite insertChunks_fresh; cbn [tables_exist content_chunks chunk_metadata];
    [|reflexivity|eapply Forall_impl; [exact Hc|]; cbn; intros r Hr Hr'; congruence].
  unfold bind, storeMetadata, ret. cbn [tables_exist content_chunks chunk_metadata negb contentId].
  assert (existsb (fun m => String.eqb (contentId m) contentId') (chunk_metadata db) = false) as ->.
  { apply not_true_is_false. intros (m & Hin & He)%existsb_exists.
    apply String.eqb_eq in He. rewrite Forall_forall in Hm.
    apply list_elem_of_In in Hin. now apply (Hm m Hin). }
  reflexivity.
Qed.

Lemma filter_old_new {A} (f : A -> bool) (old new : list A) :
  Forall (fun x => f x = false) old -> Forall (fun x => f x = true) new ->
  List.filter f (old ++ new) = new.
Proof.
  intros Ho Hn. rewrite List.filter_app.
  assert (List.filter f old = []) as ->.
  { induction Ho as [|x l Hx _ IH]; [reflexivity|]. cbn. now rewrite Hx. }
  cbn. induction Hn as [|x l Hx _ IH]; [reflexivity|]. cbn. now rewrite Hx, IH.
Qed.

Lemma chunkRows_owner contentId' chunks i :
  Forall (fun r => String.eqb (content_id r) contentId' = true) (chunkRows contentId' chunks i).
Proof.
  revert i. induction chunks as [|c rest IH]; intros i; cbn; constructor; [|apply IH].
  cbn. apply String.eqb_refl.
Qed.

Lemma chunkRows_data contentId' chunks i :
  chunk_data <$> chunkRows contentId' chunks i = chunks.
Proof. revert i. induction chunks as [|c rest IH]; intros i; cbn; [|rewrite IH]; reflexivity. Qed.

Lemma chunkRows_length contentId' chunks i :
  length (chunkRows contentId' chunks i) = length chunks.
Proof. revert i. induction chunks as [|c rest IH]; intros i; cbn; [|rewrite IH]; reflexivity. Qed.

Lemma chunkRows_lookup contentId' chunks i k r :
  chunkRows contentId' chunks i !! k = Some r ->
  exists c, chunks !! k = Some c /\ r = mkChunkRecord contentId' (i + Z.of_nat k) c (len c).
Proof.
  revert i k. induction chunks as [|c rest IH]; intros i k; cbn; [discriminate|].
  destruct k as [|k]; cbn.
  - intros [= <-]. exists c. split; [reflexivity|]. f_equal. lia.
  - intros (c' & Hc & ->)%IH. exists c'. split; [exact Hc|]. f_equal. lia.
Qed.

Lemma order_by_index_chunkRows contentId' chunks i :
  order_by_index (chunkRows contentId' chunks i) = chunkRows contentId' chunks i.
Proof.
  revert i. induction chunks as [|c rest IH]; intros i; [reflexivity|].
  cbn [chunkRows]. unfold order_by_index in *. cbn [foldr]. rewrite IH.
  destruct rest as [|c' rest']; [reflexivity|]. cbn [chunkRows insert_by_index chunk_index].
  destruct (Z.leb_spec i (i + 1)); [reflexivity|lia].
Qed.

Lemma processContent_cases rt s :
  processContent rt s = (s, false) \/
  exists z, compress rt s = Ok z /\ processContent rt s = (z, true).
Proof.
  unfold processContent. destruct (_ && _)%bool; [|now left].
  destruct (compress rt s) as [z|e]; [right; now exists z|now left].
Qed.

Lemma decompress_compress rt s z :
  runtime_sound rt -> compress rt s = Ok z -> decompress rt z = Ok s.
Proof.
  unfold runtime_sound, compress, decompress.
  destruct (CompressionStream rt) as [gzip|], (DecompressionStream rt) as [gunzip|];
    try contradiction.
  - intros H. destruct (gzip s) as [combined|e] eqn:Hg; [|discriminate].
    intros [= <-]. now rewrite atob_btoa, (H _ _ Hg).
  - intros _ [= <-]. now rewrite atob_btoa.
Qed.

Lemma startsWith_app p s : startsWith (p +:+ s) p = true.
Proof.
  induction p as [|c p IH]; [now destruct s|].
  rewrite append_cons. cbn [startsWith]. now rewrite Ascii.eqb_refl, IH.
Qed.

Lemma substring_skip p n s : String.substring (String.length p) n (p +:+ s) = String.substring 0 n s.
Proof. induction p as [|c p IH]; [reflexivity|]. rewrite append_cons. cbn. exact IH. Qed.

Lemma append_length a b : String.length (a +:+ b) = (String.length a + String.length b)%nat.
Proof. induction a as [|c a IH]; [reflexivity|]. rewrite append_cons. cbn. now rewrite IH. Qed.

Lemma replace_first_unfold p r s :
  replace_first p r s =
  if startsWith s p then r +:+ String.substring (String.length p) (String.length s) s
  else match s with
       | EmptyString => EmptyString
       | String c s' => String c (replace_first p r s')
       end.
Proof. destruct s; reflexivity. Qed.

Lemma replace_first_prefix p s : replace_first p EmptyString (p +:+ s) = s.
Proof.
  rewrite replace_first_unfold, startsWith_app, substring_skip.
  change (EmptyString +:+ ?x) with x. apply substring_all. rewrite append_length. lia.
Qed.

Lemma extractContentId_reference metadata :
  extractContentId (createContentReference metadata) = contentId metadata.
Proof. apply replace_first_prefix. Qed.

Lemma retrieve_after_store rt contentId' content contentType' db :
  runtime_sound rt -> fresh contentId' db = true ->
  retrieveChunkedContent rt contentId' (storedAfter rt contentId' content contentType' db)
  = Ok (Some content).
Proof.
  intros Hrt [Hc Hm]%fresh_parts.
  unfold retrieveChunkedContent, retrieve_try, getMetadata, getChunks, storedAfter.
  cbn [tables_exist content_chunks chunk_metadata negb].
  rewrite (filter_old_new _ (chunk_metadata db) [_]); cycle 1.
  { eapply Forall_impl; [exact Hm|]. cbn. intros m Hne. now apply String.eqb_neq. }
  { constructor; [|constructor]. unfold metadataOf.
    destruct (processContent rt content). cbn. apply String.eqb_refl. }
  rewrite filter_old_new; cycle 1.
  { eapply Forall_impl; [exact Hc|]. cbn. intros m Hne. now apply String.eqb_neq. }
  { apply chunkRows_owner. }
  rewrite order_by_index_chunkRows, chunkRows_data.
  unfold metadataOf.
  destruct (processContent_cases rt content) as [Hp|(z & Hz & Hp)]; rewrite Hp;
    cbn [fst totalChunks compressed]; rewrite Z.eqb_refl; cbn [negb];
    rewrite splitIntoChunks_join; [reflexivity|].
  now rewrite (decompress_compress rt content z Hrt Hz).
Qed.

(** Round trip within the code units 0..255: on a platform whose
    decompression inverts its compression, with a content identifier not
    yet in use, storing a text longer than the chunk threshold succeeds,
    and retrieving under the content identifier of the returned reference
    token yields the text itself.  The same holds through
    [smartJsonStringify], which for such a text stores it and returns the
    token. *)
Theorem chunk_store_roundtrip rt contentId' s contentType' db :
  CHUNK_SIZE_THRESHOLD < len s ->
  runtime_sound rt ->
  fresh contentId' db = true ->
  (exists metadata db',
      storeChunkedContent rt contentId' s contentType' db = (Ok metadata, db') /\
      retrieveChunkedContent rt (extractContentId (createContentReference metadata)) db'
      = Ok (Some s)) /\
  (exists reference db',
      storeIfLarge rt contentId' s db = (Ok reference, db') /\
      isContentReference (JStr reference) = true /\
      retrieveChunkedContent rt (extractContentId reference) db' = Ok (Some s)).
Proof.
  intros Hlen Hrt Hf.
  assert (forall ct, contentId (metadataOf rt contentId' s ct) = contentId') as Hid
    by (intros ct; unfold metadataOf; now destruct (processContent rt s)).
  split.
  - eexists _, _. split; [now apply storeChunkedContent_fresh|].
    rewrite extractContentId_reference, Hid. now apply retrieve_after_store.
  - unfold storeIfLarge, shouldChunk. apply Z.ltb_lt in Hlen. rewrite Hlen. cbn [negb].
    unfold bind, ret. rewrite storeChunkedContent_fresh by exact Hf.
    eexists _, _. split; [reflexivity|]. split.
    + apply startsWith_app.
    + rewrite extractContentId_reference, Hid. now apply retrieve_after_store.
Qed.

(** C10: a successful store has appended ceil(len p / 16384) chunk
    records for the processed string [p], numbered 0, 1, ... in order, each
    of 16384 units except possibly the last, and one metadata record whose
    chunk count is that number and whose original size is the length of the
    original string; they are all in the store that is returned with the
    metadata from which the reference token is made. *)
Theorem store_writes_all_chunks rt contentId' s contentType' db metadata db' :
  storeChunkedContent rt contentId' s contentType' db = (Ok metadata, db') ->
  exists rows,
    content_chunks db' = (content_chunks db ++ rows)%list /\
    chunk_metadata db' = (chunk_metadata db ++ [metadata])%list /\
    CHUNK_SIZE = 16384 /\
    Z.of_nat (length rows) = (len (fst (processContent rt s)) + CHUNK_SIZE - 1) / CHUNK_SIZE /\
    (forall k r, rows !! k = Some r ->
       content_id r = contentId' /\ chunk_index r = Z.of_nat k /\
       chunk_size r = len (chunk_data r) /\ 0 < chunk_size r <= CHUNK_SIZE /\
       ((k + 1 < length rows)%nat -> chunk_size r = CHUNK_SIZE)) /\
    join EmptyString (chunk_data <$> rows) = fst (processContent rt s) /\
    contentId metadata = contentId' /\
    totalChunks metadata = Z.of_nat (length rows) /\
    originalSize metadata = len s.
Proof.
  intros [-> ->]%storeChunkedContent_ok. unfold storedAfter, metadataOf.
  destruct (processContent rt s) as [p c]. cbn [fst content_chunks chunk_metadata].
  exists (chunkRows contentId' (splitIntoChunks p) 0).
  rewrite chunkRows_length, chunkRows_data, splitIntoChunks_join, splitIntoChunks_count.
  repeat split; try reflexivity.
  all: apply chunkRows_lookup in H as (ch & Hch & ->); cbn; try reflexivity; try lia.
  all: apply splitIntoChunks_sizes in Hch; lia.
Qed.

(** C8, amended: compression is attempted only for a content longer than
    8192 units; the stored form is the compressed stream whenever
    compression succeeded, whatever its size, with the flag set and the
    encoding [gzip]; when compression throws, the content is stored as it
    is with the flag unset. *)
Theorem compression_policy rt s :
  (len s <= 8192 -> processContent rt s = (s, false)) /\
  (8192 < len s -> forall z, compress rt s = Ok z -> processContent rt s = (z, true)) /\
  (8192 < len s -> forall e, compress rt s = Throw e -> processContent rt s = (s, false)) /\
  (forall contentId' contentType' db metadata db',
      storeChunkedContent rt contentId' s contentType' db = (Ok metadata, db') ->
      compressed metadata = snd (processContent rt s) /\
      encoding metadata = (if compressed metadata then Some "gzip" else None) /\
      exists rows, content_chunks db' = (content_chunks db ++ rows)%list /\
                   join EmptyString (chunk_data <$> rows) = fst (processContent rt s)).
Proof.
  split; [|split; [|split]].
  - intros H. unfold processContent, shouldCompress, ENABLE_COMPRESSION. cbn [andb].
    destruct (Z.ltb_spec 8192 (len s)); [lia|reflexivity].
  - intros H z Hz. unfold processContent, shouldCompress, ENABLE_COMPRESSION. cbn [andb].
    rewrite Hz. destruct (Z.ltb_spec 8192 (len s)); [reflexivity|lia].
  - intros H e He. unfold processContent, shouldCompress, ENABLE_COMPRESSION. cbn [andb].
    rewrite He. destruct (Z.ltb_spec 8192 (len s)); [reflexivity|lia].
  - intros contentId' contentType' db metadata db' [-> ->]%storeChunkedContent_ok.
    unfold metadataOf, storedAfter. cbn [content_chunks].
    destruct (processContent rt s) as [p c]. cbn [compressed encoding fst snd].
    repeat split. eexists. split; [reflexivity|].
    now rewrite chunkRows_data, splitIntoChunks_join.
Qed.

Lemma retrieve_no_metadata rt contentId' db :
  List.filter (fun m => String.eqb (contentId m) contentId') (chunk_metadata db) = [] ->
  retrieveChunkedContent rt contentId' db = Ok None.
Proof.
  intros H. unfold retrieveChunkedContent, retrieve_try, getMetadata. rewrite H.
  destruct (negb (tables_exist db)); [reflexivity|].
  destruct (one_throws_when_empty rt); reflexivity.
Qed.

Lemma retrieve_count_mismatch rt contentId' db metadata chunks :
  getMetadata rt contentId' db = Ok (Some metadata) ->
  getChunks contentId' db = Ok chunks ->
  Z.of_nat (length chunks) <> totalChunks metadata ->
  retrieve_try rt contentId' db =
    Throw ("Missing chunks: expected " +:+ pretty (totalChunks metadata) +:+
           ", found " +:+ pretty (Z.of_nat (length chunks))) /\
  retrieveChunkedContent rt contentId' db = Ok None.
Proof.
  intros Hm Hc Hn. unfold retrieveChunkedContent, retrieve_try. rewrite Hm, Hc.
  apply Z.eqb_neq in Hn. rewrite Hn. cbn [negb]. split; reflexivity.
Qed.

Lemma resolveCell_null rt JSON_parse db contentId' :
  retrieveChunkedContent rt contentId' db = Ok None ->
  resolveCell rt JSON_parse db (JStr ("__CHUNKED__:" +:+ contentId')) =
    JStr ("[CHUNKED_CONTENT_NOT_FOUND:" +:+ contentId' +:+ "]").
Proof.
  intros H. unfold resolveCell, isContentReference, extractContentId.
  cbn [SchemaInferenceEngine.string_of].
  rewrite startsWith_app, replace_first_prefix, H. reflexivity.
Qed.

(** C7, amended: retrieval never throws.  Without a metadata record it
    returns [null]; with a metadata record whose chunk count differs from
    the number of chunk records it returns [null] as well, the error being
    caught inside retrieval; in both cases the cell of the query result
    bears the [CHUNKED_CONTENT_NOT_FOUND] sentinel. *)
Theorem retrieval_failures_read_as_not_found rt JSON_parse db contentId' :
  (exists r, retrieveChunkedContent rt contentId' db = Ok r) /\
  (List.filter (fun m => String.eqb (contentId m) contentId') (chunk_metadata db) = [] ->
   retrieveChunkedContent rt contentId' db = Ok None /\
   resolveCell rt JSON_parse db (JStr ("__CHUNKED__:" +:+ contentId')) =
     JStr ("[CHUNKED_CONTENT_NOT_FOUND:" +:+ contentId' +:+ "]")) /\
  (forall metadata chunks,
      getMetadata rt contentId' db = Ok (Some metadata) ->
      getChunks contentId' db = Ok chunks ->
      Z.of_nat (length chunks) <> totalChunks metadata ->
      retrieveChunkedContent rt contentId' db = Ok None /\
      resolveCell rt JSON_parse db (JStr ("__CHUNKED__:" +:+ contentId')) =
        JStr ("[CHUNKED_CONTENT_NOT_FOUND:" +:+ contentId' +:+ "]")).
Proof.
  split; [|split].
  - unfold retrieveChunkedContent. destruct (retrieve_try rt contentId' db); eauto.
  - intros H%(retrieve_no_metadata rt). split; [exact H|now apply resolveCell_null].
  - intros m ch Hm Hc Hn.
    destruct (retrieve_count_mismatch rt contentId' db m ch Hm Hc Hn) as [_ H].
    split; [exact H|now apply resolveCell_null].
Qed.

Lemma chunk_store_roundtrip_witness :
  CHUNK_SIZE_THRESHOLD < len text_64k /\
  exists metadata db',
    storeChunkedContent no_streams "chunk_7f3a" text_64k json empty_store = (Ok metadata, db') /\
    retrieveChunkedContent no_streams (extractContentId (createContentReference metadata)) db'
    = Ok (Some text_64k).
Proof.
  assert (CHUNK_SIZE_THRESHOLD < len text_64k) as Hlen by (vm_compute; reflexivity).
  split; [exact Hlen|].
  apply (chunk_store_roundtrip no_streams "chunk_7f3a" text_64k json empty_store);
    [exact Hlen|exact I|reflexivity].
Defined.

Lemma store_writes_all_chunks_witness :
  exists rows,
    content_chunks (storedAfter no_streams "chunk_7f3a" text_16k text empty_store) = rows /\
    Z.of_nat (length rows) =
      (len (fst (processContent no_streams text_16k)) + CHUNK_SIZE - 1) / CHUNK_SIZE /\
    originalSize (metadataOf no_streams "chunk_7f3a" text_16k text) = len text_16k.
Proof.
  destruct (store_writes_all_chunks no_streams "chunk_7f3a" text_16k text empty_store
              (metadataOf no_streams "chunk_7f3a" text_16k text)
              (storedAfter no_streams "chunk_7f3a" text_16k text empty_store))
    as (rows & Hrows & _ & _ & Hcount & _ & _ & _ & _ & Hsize).
  - apply storeChunkedContent_fresh. reflexivity.
  - exists rows. split; [exact Hrows|]. split; [exact Hcount|exact Hsize].
Defined.

(** C8, as stated, fails: on a platform without [CompressionStream] the
    helper falls back to plain base64, which is a third longer than the
    content; the longer form is stored all the same and flagged as
    compressed. *)
Lemma larger_compressed_form_is_stored :
  8192 < len text_16k /\
  processContent no_streams text_16k = (btoa text_16k, true) /\
  len text_16k < len (btoa text_16k) /\
  compressed (metadataOf no_streams "chunk_7f3a" text_16k text) = true /\
  fst (storeChunkedContent no_streams "chunk_7f3a" text_16k text empty_store) =
    Ok (metadataOf no_streams "chunk_7f3a" text_16k text).
Proof.
  assert (processContent no_streams text_16k = (btoa text_16k, true)) as Hp by reflexivity.
  split; [vm_compute; reflexivity|]. split; [exact Hp|].
  split; [vm_compute; reflexivity|].
  split; [unfold metadataOf; now rewrite Hp|].
  now rewrite storeChunkedContent_fresh.
Qed.

Lemma compression_policy_witness :
  8192 < len text_16k /\
  processContent no_streams text_16k = (btoa text_16k, true) /\
  processContent no_streams "short" = ("short", false).
Proof.
  destruct (compression_policy no_streams text_16k) as (_ & Hlong & _).
  destruct (compression_policy no_streams "short") as (Hshort & _).
  assert (8192 < len text_16k) as Hlen by (vm_compute; reflexivity).
  split; [exact Hlen|]. split; [apply (Hlong Hlen); reflexivity|].
  apply Hshort. vm_compute. discriminate.
Defined.

(** C7, as stated, fails: with metadata announcing two chunks and one
    chunk record present, retrieval raises the error inside its own [try]
    block and returns [null]; the cell bears the sentinel of a missing
    content, not the error sentinel. *)
Lemma corrupt_chunk_set_reads_as_not_found :
  getMetadata no_streams "c1" corrupt_store = Ok (Some corrupt_metadata) /\
  getChunks "c1" corrupt_store = Ok ["abc"] /\
  totalChunks corrupt_metadata = 2 /\
  retrieve_try no_streams "c1" corrupt_store = Throw "Missing chunks: expected 2, found 1" /\
  retrieveChunkedContent no_streams "c1" corrupt_store = Ok None /\
  resolveCell no_streams no_json corrupt_store (JStr "__CHUNKED__:c1") =
    JStr "[CHUNKED_CONTENT_NOT_FOUND:c1]" /\
  ~ (exists detail,
        resolveCell no_streams no_json corrupt_store (JStr "__CHUNKED__:c1") =
          JStr ("[CHUNKED_CONTENT_ERROR:" +:+ detail +:+ "]")).
Proof.
  repeat split. intros [detail H]. vm_compute in H. discriminate H.
Qed.

Lemma retrieval_failures_read_as_not_found_witness :
  retrieveChunkedContent no_streams "c1" corrupt_store = Ok None /\
  resolveCell no_streams no_json corrupt_store (JStr ("__CHUNKED__:" +:+ "c1")) =
    JStr ("[CHUNKED_CONTENT_NOT_FOUND:" +:+ "c1" +:+ "]") /\
  retrieveChunkedContent no_streams "c2" corrupt_store = Ok None.
Proof.
  destruct (retrieval_failures_read_as_not_found no_streams no_json corrupt_store "c1")
    as (_ & _ & Hmismatch).
  destruct (retrieval_failures_read_as_not_found no_streams no_json corrupt_store "c2")
    as (_ & Hmissing & _).
  destruct (Hmismatch corrupt_metadata ["abc"]) as [H1 H2];
    [reflexivity|reflexivity|cbn; lia|].
  split; [exact H1|]. split; [exact H2|]. apply Hmissing. reflexivity.
Defined.

End ChunkStoreProperties.

(** ** Identity memo *)

Section MemoProperties.
Import Js JsString Junction EntityMemo Examples.

Context {DB : Type}.
Variable sql_exec :
  string -> list JsValue -> DB -> Result (list (list (string * JsValue))) * DB.
Variable mapEntityToSchema :
  JsValue -> TableSchema -> DB -> Result (list (string * JsValue)) * DB.

(** A fresh insertion that returns a truthy id has stored it under the
    address of the object. *)
Lemma insertFresh_memo entity tableName schema (st st1 : @State DB) id :
  insertFresh sql_exec mapEntityToSchema entity tableName schema st = (Ok id, st1) ->
  truthy id = true ->
  processedEntities st1 =
    <[tableName := <[address entity := id]> (entityMapOf st tableName)]> (processedEntities st).
Proof.
  unfold insertFresh.
  destruct (mapEntityToSchema _ _ _) as [[rowData|e] db1]; [|discriminate].
  destruct (Nat.eqb _ _); [intros [= <- <-]; discriminate|].
  destruct (sql_exec (insertStatement _ _) _ _) as [[rows|e] db2]; [|discriminate].
  destruct (truthy (default JUndefined (assoc "id" rowData))) eqn:Hid.
  - rewrite Hid. intros [= <- <-] _. reflexivity.
  - destruct (sql_exec "SELECT last_insert_rowid() as id" [] db2) as [[rows'|e] db3];
      [|discriminate].
    destruct (one_id rows') as [insertedId|e]; [|discriminate].
    destruct (truthy insertedId) eqn:Ht.
    + intros [= <- <-] _. reflexivity.
    + intros [= <- <-]. congruence.
Qed.

Lemma insertEntityRecord_hit entity tableName schema (st : @State DB) id :
  entityMapOf st tableName !! address entity = Some id ->
  insertEntityRecord sql_exec mapEntityToSchema entity tableName schema st = (Ok id, st).
Proof. unfold insertEntityRecord. now intros ->. Qed.

Lemma insertEntityRecord_miss entity tableName schema (st : @State DB) :
  entityMapOf st tableName !! address entity = None ->
  insertEntityRecord sql_exec mapEntityToSchema entity tableName schema st =
    insertFresh sql_exec mapEntityToSchema entity tableName schema st.
Proof. unfold insertEntityRecord. now intros ->. Qed.

(** The memo where an id was obtained: once an object has been inserted
    for a table and the id is truthy, a later call for the same object
    and table returns that id and leaves the memo and the database as
    they are; the entry does not serve an object at another address,
    which is composed and inserted again even when its contents are the
    same. *)
Theorem memo_by_object_identity (e1 e2 : Obj) tableName schema (st st1 : @State DB) id :
  entityMapOf st tableName !! address e1 = None ->
  address e2 <> address e1 ->
  insertEntityRecord sql_exec mapEntityToSchema e1 tableName schema st = (Ok id, st1) ->
  truthy id = true ->
  (forall schema',
      insertEntityRecord sql_exec mapEntityToSchema e1 tableName schema' st1 = (Ok id, st1)) /\
  entityMapOf st1 tableName !! address e2 = entityMapOf st tableName !! address e2 /\
  (entityMapOf st tableName !! address e2 = None ->
   insertEntityRecord sql_exec mapEntityToSchema e2 tableName schema st1 =
     insertFresh sql_exec mapEntityToSchema e2 tableName schema st1).
Proof.
  intros Hnone Hne Hins Hid. rewrite insertEntityRecord_miss in Hins by exact Hnone.
  pose proof (insertFresh_memo _ _ _ _ _ _ Hins Hid) as Hmemo.
  assert (entityMapOf st1 tableName = <[address e1 := id]> (entityMapOf st tableName)) as Hmap.
  { unfold entityMapOf at 1. rewrite Hmemo, lookup_insert_eq. reflexivity. }
  split; [|split].
  - intros schema'. apply insertEntityRecord_hit. rewrite Hmap. apply lookup_insert_eq.
  - rewrite Hmap. apply lookup_insert_ne. congruence.
  - intros H2. apply insertEntityRecord_miss. rewrite Hmap, lookup_insert_ne by congruence.
    exact H2.
Qed.

End MemoProperties.

Section MemoExamples.
Import Js JsString Junction EntityMemo Examples.

Lemma memo_by_object_identity_witness :
  (forall schema', insertEntityRecord log_exec fields_row ar1 "target" schema' after_ar1
                   = (Ok (JStr "ENSG00000169083"), after_ar1)) /\
  entityMapOf after_ar1 "target" !! address ar2 = entityMapOf empty_state "target" !! address ar2 /\
  (entityMapOf empty_state "target" !! address ar2 = None ->
   insertEntityRecord log_exec fields_row ar2 "target" target_schema after_ar1 =
   insertFresh log_exec fields_row ar2 "target" target_schema after_ar1).
Proof.
  apply (memo_by_object_identity log_exec fields_row ar1 ar2 "target" target_schema
           empty_state after_ar1 (JStr "ENSG00000169083")).
  - reflexivity.
  - discriminate.
  - reflexivity.
  - reflexivity.
Defined.

(** The object at the second address, with the same contents, is inserted
    once more. *)
Example second_object_inserts_again :
  sql (snd (insertEntityRecord log_exec fields_row ar2 "target" target_schema after_ar1)) =
  [("INSERT OR IGNORE INTO target (id, name) VALUES (?, ?)",
    [JStr "ENSG00000169083"; JStr "AR"]);
   ("INSERT OR IGNORE INTO target (id, name) VALUES (?, ?)",
    [JStr "ENSG00000169083"; JStr "AR"])].
Proof. reflexivity. Qed.

End MemoExamples.

Section MemoOfFalsyId.
Import Js JsString Junction DataInsertionEngine EntityMemo.
Context {DB : Type}.
Variable sql_exec :
  string -> list JsValue -> DB -> Result (list (list (string * JsValue))) * DB.
Variable mapEntityToSchema :
  JsValue -> TableSchema -> DB -> Result (list (string * JsValue)) * DB.

(** C4 fails on the code: an object whose row has a falsy [id] (the
    number 0, the empty string) and for which [last_insert_rowid()]
    answers a falsy id (the rowid 0) is inserted, but no surrogate is
    kept for it: the call returns [null] and leaves the memo as it was.
    When the same object is met again for the same table the memo
    misses, and the row is composed and the INSERT issued once more. *)
Theorem falsy_id_is_not_memoised (entity : Obj) tableName schema (st : @State DB)
        rowData db1 inserted db2 row db3 :
  entityMapOf st tableName !! address entity = None ->
  mapEntityToSchema (content entity) schema (sql st) = (Ok rowData, db1) ->
  Nat.eqb (length rowData) 0 = false ->
  truthy (default JUndefined (assoc "id" rowData)) = false ->
  sql_exec (insertStatement tableName rowData) (snd <$> rowData) db1 = (Ok inserted, db2) ->
  sql_exec "SELECT last_insert_rowid() as id" [] db2 = (Ok [row], db3) ->
  truthy (default JUndefined (assoc "id" row)) = false ->
  let st1 := mkState (processedEntities st) db3 in
  insertEntityRecord sql_exec mapEntityToSchema entity tableName schema st = (Ok JNull, st1) /\
  entityMapOf st1 tableName !! address entity = None /\
  (forall schema',
      insertEntityRecord sql_exec mapEntityToSchema entity tableName schema' st1 =
      insertFresh sql_exec mapEntityToSchema entity tableName schema' st1).
Proof.
  intros Hnone Hrow Hlen Hid Hins Hlast Hrowid st1.
  assert (entityMapOf st1 tableName !! address entity = None) as Hnone1 by exact Hnone.
  split; [|split; [exact Hnone1|]].
  - unfold insertEntityRecord. rewrite Hnone. unfold insertFresh.
    rewrite Hrow, Hlen, Hins, Hid, Hlast. unfold one_id. rewrite Hrowid. reflexivity.
  - intros schema'. unfold insertEntityRecord. now rewrite Hnone1.
Qed.

End MemoOfFalsyId.

Section MemoOfFalsyIdExamples.
Import Js JsString Junction DataInsertionEngine EntityMemo Payload RowMapping Samples.

Lemma falsy_id_is_not_memoised_witness :
  let first :=
    insertEntityRecord rowid_zero_exec compose_row zero_target "target" zero_target_table
                       no_memo in
  let second :=
    insertEntityRecord rowid_zero_exec compose_row zero_target "target" zero_target_table
                       (snd first) in
  fst first = Ok JNull /\
  issued (sql (snd first)) = [insert_zero_target] /\
  entityMapOf (snd first) "target" !! address zero_target = None /\
  fst second = Ok JNull /\
  issued (sql (snd second)) = [insert_zero_target; insert_zero_target].
Proof.
  intros first second.
  pose proof (falsy_id_is_not_memoised rowid_zero_exec compose_row zero_target "target"
                zero_target_table no_memo
                [("id", number 0); ("name", JStr "COX")] start
                [] (mkEnv (chunk_store start) (draws start) (ids start) [insert_zero_target])
                [("id", number 0)]
                (mkEnv (chunk_store start) (draws start) (ids start) [insert_zero_target])
                eq_refl eq_refl eq_refl eq_refl eq_refl eq_refl eq_refl) as (Hfirst & Hmemo & _).
  subst first second. rewrite Hfirst. cbn [fst snd].
  split; [reflexivity|]. split; [reflexivity|]. split; [exact Hmemo|].
  split; vm_compute; reflexivity.
Defined.

End MemoOfFalsyIdExamples.

Set Default Proof Using "Type".


(** ** Chunk store: clean-up, interference and smart serialisation *)

Section MaintenanceProperties.
Import Js JsString ChunkingEngine ChunkingMaintenance.

(** Retrieval reads the rows of one content identifier only. *)
Lemma retrieve_ext rt contentId' db1 db2 :
  tables_exist db1 = tables_exist db2 ->
  List.filter (fun m => String.eqb (contentId m) contentId') (chunk_metadata db1) =
  List.filter (fun m => String.eqb (contentId m) contentId') (chunk_metadata db2) ->
  List.filter (fun r => String.eqb (content_id r) contentId') (content_chunks db1) =
  List.filter (fun r => String.eqb (content_id r) contentId') (content_chunks db2) ->
  retrieveChunkedContent rt contentId' db1 = retrieveChunkedContent rt contentId' db2.
Proof.
  intros Ht Hm Hc.
  unfold retrieveChunkedContent, retrieve_try, getMetadata, getChunks.
  now rewrite Ht, Hm, Hc.
Qed.

Lemma retrieve_without_tables rt contentId' db :
  tables_exist db = false -> retrieveChunkedContent rt contentId' db = Ok None.
Proof.
  intros H. unfold retrieveChunkedContent, retrieve_try, getMetadata. now rewrite H.
Qed.

Lemma filter_filter_other {A} (key : A -> string) (c other : string) (l : list A) :
  other <> c ->
  List.filter (fun x => String.eqb (key x) other)
              (List.filter (fun x => negb (String.eqb (key x) c)) l) =
  List.filter (fun x => String.eqb (key x) other) l.
Proof.
  intros Hne. induction l as [|x l IH]; [reflexivity|]. cbn.
  destruct (String.eqb_spec (key x) c) as [Hc|Hc]; cbn.
  - destruct (String.eqb_spec (key x) other) as [Ho|Ho]; [congruence|exact IH].
  - destruct (String.eqb (key x) other); [now rewrite IH|exact IH].
Qed.

Lemma filter_filter_same {A} (key : A -> string) (c : string) (l : list A) :
  List.filter (fun x => String.eqb (key x) c)
              (List.filter (fun x => negb (String.eqb (key x) c)) l) = [].
Proof.
  induction l as [|x l IH]; [reflexivity|]. cbn.
  destruct (String.eqb (key x) c) eqn:Hc; cbn; [exact IH|now rewrite Hc].
Qed.

Lemma cleanupChunkedContent_result contentId' db :
  cleanupChunkedContent contentId' db =
  (Ok tt,
   if tables_exist db
   then mkStore true
          (List.filter (fun r => negb (String.eqb (content_id r) contentId')) (content_chunks db))
          (List.filter (fun m => negb (String.eqb (contentId m) contentId')) (chunk_metadata db))
   else db).
Proof.
  unfold cleanupChunkedContent, bind, deleteChunks, deleteMetadata.
  destruct (tables_exist db) eqn:Ht; cbn [negb]; [|reflexivity].
  reflexivity.
Qed.

(** X1: [cleanupChunkedContent] never fails; afterwards the content
    identifier retrieves nothing, and every other identifier retrieves
    what it retrieved before. *)
Theorem cleanup_forgets_one_content rt contentId' db :
  fst (cleanupChunkedContent contentId' db) = Ok tt /\
  retrieveChunkedContent rt contentId' (snd (cleanupChunkedContent contentId' db)) = Ok None /\
  (forall other, other <> contentId' ->
     retrieveChunkedContent rt other (snd (cleanupChunkedContent contentId' db)) =
     retrieveChunkedContent rt other db).
Proof.
  rewrite cleanupChunkedContent_result. cbn [fst snd]. split; [reflexivity|].
  destruct (tables_exist db) eqn:Ht.
  - split.
    + apply retrieve_no_metadata. cbn [chunk_metadata].
      apply (filter_filter_same contentId).
    + intros other Hne. apply retrieve_ext; cbn [tables_exist chunk_metadata content_chunks].
      * now rewrite Ht.
      * now apply (filter_filter_other contentId).
      * now apply (filter_filter_other content_id).
  - split; [now apply retrieve_without_tables|reflexivity].
Qed.

Lemma filter_app_none {A} (f : A -> bool) (old new : list A) :
  Forall (fun x => f x = false) new -> List.filter f (old ++ new) = List.filter f old.
Proof.
  intros Hn. rewrite List.filter_app.
  assert (List.filter f new = []) as ->; [|apply app_nil_r].
  induction Hn as [|x l Hx _ IH]; [reflexivity|]. cbn. now rewrite Hx.
Qed.

(** X2: a successful store changes nothing for the other content
    identifiers: each of them retrieves what it retrieved before. *)
Theorem store_keeps_other_content rt contentId' s contentType' db metadata db' other :
  consistent db ->
  storeChunkedContent rt contentId' s contentType' db = (Ok metadata, db') ->
  other <> contentId' ->
  retrieveChunkedContent rt other db' = retrieveChunkedContent rt other db.
Proof.
  intros Hwf [_ ->]%storeChunkedContent_ok Hne.
  assert (List.filter (fun m => String.eqb (contentId m) other)
            (chunk_metadata (storedAfter rt contentId' s contentType' db)) =
          List.filter (fun m => String.eqb (contentId m) other) (chunk_metadata db)) as Hm.
  { unfold storedAfter. cbn [chunk_metadata]. apply filter_app_none.
    constructor; [|constructor]. unfold metadataOf. destruct (processContent rt s).
    cbn. apply String.eqb_neq. congruence. }
  assert (List.filter (fun r => String.eqb (content_id r) other)
            (content_chunks (storedAfter rt contentId' s contentType' db)) =
          List.filter (fun r => String.eqb (content_id r) other) (content_chunks db)) as Hc.
  { unfold storedAfter. cbn [content_chunks]. apply filter_app_none.
    eapply Forall_impl; [apply chunkRows_owner|]. cbn. intros r Hr.
    apply String.eqb_eq in Hr. apply String.eqb_neq. congruence. }
  destruct (tables_exist db) eqn:Ht.
  - apply retrieve_ext; [now rewrite Ht|exact Hm|exact Hc].
  - rewrite (retrieve_without_tables rt other db Ht).
    apply retrieve_no_metadata. rewrite Hm.
    destruct (Hwf Ht) as [_ ->]. reflexivity.
Qed.

Lemma store_keeps_other_content_witness :
  let db1 := snd (storeChunkedContent Examples.no_streams "c1" "first" text
                    Examples.empty_store) in
  let db2 := snd (storeChunkedContent Examples.no_streams "c2" "second" text db1) in
  retrieveChunkedContent Examples.no_streams "c1" db2 = Ok (Some "first").
Proof.
  intros db1 db2.
  rewrite (store_keeps_other_content Examples.no_streams "c2" "second" text db1
             (metadataOf Examples.no_streams "c2" "second" text) db2 "c1").
  - vm_compute. reflexivity.
  - intros H. vm_compute in H. discriminate H.
  - vm_compute. reflexivity.
  - discriminate.
Defined.

Lemma metadataOf_contentId rt contentId' s contentType' :
  contentId (metadataOf rt contentId' s contentType') = contentId'.
Proof. unfold metadataOf. now destruct (processContent rt s). Qed.

Lemma storeIfLarge_large rt contentId' s db :
  CHUNK_SIZE_THRESHOLD < len s ->
  runtime_sound rt ->
  fresh contentId' db = true ->
  exists reference db',
    storeIfLarge rt contentId' s db = (Ok reference, db') /\
    isContentReference (JStr reference) = true /\
    retrieveChunkedContent rt (extractContentId reference) db' = Ok (Some s).
Proof.
  intros Hlen Hrt Hf. unfold storeIfLarge, shouldChunk.
  apply Z.ltb_lt in Hlen. rewrite Hlen. cbn [negb].
  unfold bind, ret. rewrite storeChunkedContent_fresh by exact Hf.
  eexists _, _. split; [reflexivity|]. split; [apply startsWith_app|].
  rewrite extractContentId_reference, metadataOf_contentId. now apply retrieve_after_store.
Qed.

(** X3: what [smartJsonStringify] returns, [smartJsonParse] reads back as
    the parse of the JSON text, whether the text was kept inline or
    stored in chunks; a reference whose content is gone makes
    [smartJsonParse] throw. *)
Theorem smart_json_roundtrip rt JSON_stringify JSON_parse contentId' obj s db :
  JSON_stringify obj = Some s ->
  startsWith s "__CHUNKED__:" = false ->
  runtime_sound rt ->
  fresh contentId' db = true ->
  (exists value db',
      smartJsonStringify rt JSON_stringify contentId' obj db = (Ok value, db') /\
      smartJsonParse rt JSON_parse value db' = JSON_parse s) /\
  (forall gone,
      retrieveChunkedContent rt gone db = Ok None ->
      smartJsonParse rt JSON_parse ("__CHUNKED__:" +:+ gone) db =
        Throw ("Failed to retrieve chunked content: " +:+ gone)).
Proof.
  intros Hs Hplain Hrt Hf. split.
  - unfold smartJsonStringify. rewrite Hs.
    destruct (Z.ltb_spec CHUNK_SIZE_THRESHOLD (len s)) as [Hlen|Hlen].
    + destruct (storeIfLarge_large rt contentId' s db Hlen Hrt Hf)
        as (reference & db' & Hstore & Href & Hget).
      exists reference, db'. split; [exact Hstore|].
      unfold smartJsonParse. rewrite Href, Hget. cbn [negb].
      destruct s as [|c s']; [unfold CHUNK_SIZE_THRESHOLD, len in Hlen; cbn in Hlen; lia|].
      reflexivity.
    + exists s, db. split.
      * unfold storeIfLarge, shouldChunk.
        destruct (Z.ltb_spec CHUNK_SIZE_THRESHOLD (len s)); [lia|reflexivity].
      * unfold smartJsonParse, isContentReference. now rewrite Hplain.
  - intros gone Hgone. unfold smartJsonParse, isContentReference, extractContentId.
    rewrite startsWith_app, replace_first_prefix, Hgone. reflexivity.
Qed.
End MaintenanceProperties.

(** ** Schema-aware chunking rules *)

Section ChunkingRuleProperties.
Import Js JsString ChunkingEngine ChunkingMaintenance GraphQL ChunkingRules.

Lemma find_app {A} (p : A -> bool) (l1 l2 : list A) :
  List.find p (l1 ++ l2) =
  match List.find p l1 with Some x => Some x | None => List.find p l2 end.
Proof. induction l1 as [|x l1 IH]; [reflexivity|]. cbn. destruct (p x); [reflexivity|exact IH]. Qed.

Lemma find_all_false {A} (p : A -> bool) (l : list A) :
  Forall (fun x => p x = false) l -> List.find p l = None.
Proof. induction 1 as [|x l Hx _ IH]; [reflexivity|]. cbn. now rewrite Hx. Qed.

Lemma existsb_pointwise {A} (f g : A -> bool) (l : list A) :
  (forall a, f a = g a) -> existsb f l = existsb g l.
Proof. intros H. induction l as [|a l IH]; [reflexivity|]. cbn. now rewrite H, IH. Qed.

Lemma fieldRules_flagged typeName' typeInfo :
  (forall fieldName' fieldInfo, In (fieldName', fieldInfo) (fields typeInfo) ->
      name fieldInfo = fieldName' /\ description fieldInfo = None) ->
  Forall (fun r => flagged (fieldName r) = true) (fieldRules typeName' typeInfo).
Proof.
  intros Hk. unfold fieldRules. destruct (String.eqb (kind typeInfo) "OBJECT"); [|constructor].
  induction (fields typeInfo) as [|[f info] rest IH]; [constructor|].
  cbn [fmap list_fmap mjoin list_join]. apply Forall_app. split.
  - destruct (Hk f info (or_introl eq_refl)) as [Hn Hd].
    destruct (isList info); cbn [andb]; [|constructor].
    destruct (isLikelyLargeContent info) eqn:Hl; [|constructor].
    constructor; [|constructor]. cbn [fieldName].
    unfold isLikelyLargeContent in Hl. rewrite Hn, Hd in Hl. unfold flagged.
    rewrite <- Hl. apply existsb_pointwise. intros a. now rewrite orb_false_r.
  - apply IH. intros f' info' Hin. apply Hk. now right.
Qed.

Lemma derived_rules_flagged schemaInfo :
  keyed_by_name schemaInfo ->
  Forall (fun r => flagged (fieldName r) = true)
    (mjoin ((fun '(typeName', typeInfo) => fieldRules typeName' typeInfo) <$> types schemaInfo)).
Proof.
  unfold keyed_by_name. induction (types schemaInfo) as [|[t info] rest IH]; intros Hk;
    [constructor|].
  cbn [fmap list_fmap mjoin list_join]. apply Forall_app. split.
  - apply fieldRules_flagged. intros f fi Hin. apply (Hk t info f fi); [now left|exact Hin].
  - apply IH. intros t' info' f fi Hin. apply (Hk t' info'). now right.
Qed.

Lemma identifier_rule schemaInfo fieldName' typeName' :
  keyed_by_name schemaInfo ->
  In fieldName' ["id"; "ensemblId"; "efoId"; "chemblId"] ->
  exists rule,
    getApplicableChunkingRule (generateOpenTargetsChunkingRules schemaInfo) fieldName' typeName'
      = Some rule /\ priority rule = never.
Proof.
  intros Hk Hin. unfold getApplicableChunkingRule, generateOpenTargetsChunkingRules.
  rewrite !find_app.
  assert (forall t, List.find (fun r => (String.eqb (fieldName r) fieldName' &&
                                          String.eqb (typeName r) t)%bool)
            (mjoin ((fun '(typeName', typeInfo) => fieldRules typeName' typeInfo)
                      <$> types schemaInfo)) = None) as Hd.
  { intros t. apply find_all_false. eapply Forall_impl; [apply derived_rules_flagged, Hk|].
    cbn. intros r Hr. destruct (String.eqb_spec (fieldName r) fieldName') as [He|]; [|reflexivity].
    exfalso. rewrite He in Hr. cbn in Hin.
    repeat (destruct Hin as [<-|Hin]; [vm_compute in Hr; discriminate Hr|]). destruct Hin. }
  rewrite !Hd.
  assert (exists rule,
             List.find (fun r => (String.eqb (fieldName r) fieldName' &&
                                  String.eqb (typeName r) "*")%bool) baseRules = Some rule /\
             priority rule = never) as (wild & Hwild & Hnever).
  { cbn in Hin.
    repeat (destruct Hin as [<-|Hin]; [eexists; split; reflexivity|]). destruct Hin. }
  destruct (String.eqb_spec typeName' "*") as [->|Hne].
  - rewrite Hwild. now exists wild.
  - rewrite (find_all_false _ baseRules); [rewrite Hwild; now exists wild|].
    cbn in Hin.
    repeat (destruct Hin as [<-|Hin];
            [repeat constructor; cbn [fieldName typeName];
             first [apply andb_false_intro1; reflexivity
                   |apply andb_false_intro2; apply String.eqb_neq; congruence]|]).
    destruct Hin.
Qed.

(** X4: once the engine is configured from a schema, the values of the
    fields [id], [ensemblId], [efoId] and [chemblId] are returned as
    their JSON text and nothing is stored, whatever their size and the
    type they belong to. *)
Theorem identifier_fields_never_chunked rt JSON_stringify schemaInfo contentId' obj
        typeName' fieldName' db :
  keyed_by_name schemaInfo ->
  In fieldName' ["id"; "ensemblId"; "efoId"; "chemblId"] ->
  schemaAwareJsonStringify rt JSON_stringify (generateOpenTargetsChunkingRules schemaInfo)
                           contentId' obj typeName' fieldName' db =
  (Ok (match JSON_stringify obj with Some s => JStr s | None => JUndefined end), db).
Proof.
  intros Hk Hin. destruct (identifier_rule schemaInfo fieldName' typeName' Hk Hin)
    as (rule & Hrule & Hnever).
  unfold schemaAwareJsonStringify. rewrite Hrule, Hnever. reflexivity.
Qed.

Lemma find_exchange (p : string -> string -> bool) rules :
  List.find (fun r => p (fieldName r) (typeName r)) (exchange <$> rules) =
  exchange <$> List.find (fun r => p (fieldName r) (typeName r)) rules.
Proof.
  induction rules as [|r rules IH]; [reflexivity|]. cbn.
  destruct (p (fieldName r) (typeName r)); [reflexivity|exact IH].
Qed.

Lemma getApplicableChunkingRule_exchange rules fieldName' typeName' :
  getApplicableChunkingRule (exchange <$> rules) fieldName' typeName' =
  exchange <$> getApplicableChunkingRule rules fieldName' typeName'.
Proof.
  unfold getApplicableChunkingRule.
  rewrite (find_exchange (fun f t => (String.eqb f fieldName' && String.eqb t typeName')%bool)).
  rewrite (find_exchange (fun f t => (String.eqb f fieldName' && String.eqb t "*")%bool)).
  destruct (List.find _ rules); reflexivity.
Qed.

(** X5: the priorities [always] and [size-based] are not told apart;
    under a rule of either priority the text is stored exactly when it
    is longer than the rule's threshold or longer than the general
    threshold of 32768 units, so a rule can lower the threshold but not
    raise it; without rules the function is [smartJsonStringify]. *)
Theorem chunking_rule_threshold rt JSON_stringify chunkingRules contentId' obj s
        typeName' fieldName' db :
  JSON_stringify obj = Some s ->
  schemaAwareJsonStringify rt JSON_stringify (exchange <$> chunkingRules)
                           contentId' obj typeName' fieldName' db =
  schemaAwareJsonStringify rt JSON_stringify chunkingRules
                           contentId' obj typeName' fieldName' db /\
  (forall rule,
      getApplicableChunkingRule chunkingRules fieldName' typeName' = Some rule ->
      priority rule <> never ->
      schemaAwareJsonStringify rt JSON_stringify chunkingRules
                               contentId' obj typeName' fieldName' db =
      if (exceeds (len s) (chunkThreshold rule) || Z.ltb 32768 (len s))%bool
      then storeAsReference rt contentId' s db
      else (Ok (JStr s), db)) /\
  schemaAwareJsonStringify rt JSON_stringify [] contentId' obj typeName' fieldName' db =
  (let! value := smartJsonStringify rt JSON_stringify contentId' obj in ret (JStr value)) db.
Proof.
  intros Hs. split; [|split].
  - unfold schemaAwareJsonStringify. rewrite getApplicableChunkingRule_exchange.
    destruct (getApplicableChunkingRule chunkingRules fieldName' typeName') as [rule|];
      [|reflexivity].
    cbn [fmap option_fmap option_map exchange priority chunkThreshold].
    destruct (priority rule); reflexivity.
  - intros rule Hrule Hp. unfold schemaAwareJsonStringify. rewrite Hrule, Hs.
    unfold defaultBehaviour, shouldChunk, CHUNK_SIZE_THRESHOLD.
    change (32 * 1024) with 32768.
    destruct (priority rule); try contradiction;
      destruct (exceeds (len s) (chunkThreshold rule)); cbn [orb]; try reflexivity;
      destruct (Z.ltb 32768 (len s)); reflexivity.
  - unfold schemaAwareJsonStringify, smartJsonStringify, defaultBehaviour, storeIfLarge.
    cbn [getApplicableChunkingRule List.find]. rewrite Hs.
    destruct (shouldChunk s); cbn [negb]; unfold bind, ret, storeAsReference, bind, ret.
    + destruct (storeChunkedContent rt contentId' s json db) as [[m|e] db']; reflexivity.
    + reflexivity.
Qed.
End ChunkingRuleProperties.

Section ChunkingExamples.
Import Js JsString ChunkingEngine ChunkingMaintenance GraphQL ChunkingRules.
Import Examples Samples.

Lemma cleanup_forgets_one_content_witness :
  let db1 := snd (storeChunkedContent no_streams "c1" "first" text empty_store) in
  let db2 := snd (storeChunkedContent no_streams "c2" "second" text db1) in
  let db3 := snd (cleanupChunkedContent "c1" db2) in
  retrieveChunkedContent no_streams "c1" db3 = Ok None /\
  retrieveChunkedContent no_streams "c2" db3 = Ok (Some "second").
Proof.
  intros db1 db2 db3.
  destruct (cleanup_forgets_one_content no_streams "c1" db2) as (_ & Hgone & Hkept).
  split; [exact Hgone|].
  unfold db3. rewrite (Hkept "c2") by discriminate. reflexivity.
Defined.

Lemma smart_json_roundtrip_witness :
  (exists value db',
      smartJsonStringify no_streams literal_stringify "c1" (JBool true) empty_store
        = (Ok value, db') /\
      smartJsonParse no_streams literal_parse value db' = Ok (JBool true)) /\
  smartJsonParse no_streams literal_parse "__CHUNKED__:c1" empty_store =
    Throw "Failed to retrieve chunked content: c1".
Proof.
  destruct (smart_json_roundtrip no_streams literal_stringify literal_parse "c1"
              (JBool true) "true" empty_store eq_refl eq_refl I eq_refl) as [Hback Hgone].
  split; [exact Hback|]. apply (Hgone "c1"). reflexivity.
Defined.

Lemma keyed_by_name_target : keyed_by_name target_schema_info.
Proof.
  intros typeName' typeInfo fieldName' fieldInfo [[= <- <-]|[]] [[= <- <-]|[[= <- <-]|[]]];
    split; reflexivity.
Defined.

Lemma identifier_fields_never_chunked_witness :
  schemaAwareJsonStringify no_streams literal_stringify
                           (generateOpenTargetsChunkingRules target_schema_info)
                           "c1" JNull "Target" "ensemblId" empty_store =
  (Ok (JStr "null"), empty_store).
Proof.
  apply (identifier_fields_never_chunked no_streams literal_stringify target_schema_info
           "c1" JNull "Target" "ensemblId" empty_store keyed_by_name_target).
  right. left. reflexivity.
Defined.

Lemma chunking_rule_threshold_witness :
  schemaAwareJsonStringify no_streams literal_stringify
                           (exchange <$> generateOpenTargetsChunkingRules target_schema_info)
                           "c1" JNull "Target" "description" empty_store =
  schemaAwareJsonStringify no_streams literal_stringify
                           (generateOpenTargetsChunkingRules target_schema_info)
                           "c1" JNull "Target" "description" empty_store.
Proof.
  exact (proj1 (chunking_rule_threshold no_streams literal_stringify
                  (generateOpenTargetsChunkingRules target_schema_info)
                  "c1" JNull "null" "Target" "description" empty_store eq_refl)).
Defined.

End ChunkingExamples.


(** ** Table creation *)

Section CreateTablesProperties.
Import Js JsString Identifier Junction JsUpper CreateTables Shape.













End CreateTablesProperties.

(** ** Query with reconstitution *)

Section EnhancedSqlProperties.
Import Js JsString ChunkingEngine Reconstitution SqlGate EnhancedSql.

Lemma resolveCell_plain rt JSON_parse db value :
  isContentReference value = false -> resolveCell rt JSON_parse db value = value.
Proof. intros H. unfold resolveCell. now rewrite H. Qed.

Lemma resolve_reference_free rt JSON_parse db results :
  reference_free results -> resolveChunkedContentInResults rt JSON_parse db results = results.
Proof.
  unfold reference_free, resolveChunkedContentInResults.
  induction 1 as [|row rows Hrow _ IH]; [reflexivity|].
  cbn [fmap list_fmap]. f_equal; [|exact IH].
  induction Hrow as [|[key value] cells Hcell _ IHrow]; [reflexivity|].
  cbn [fmap list_fmap]. cbn in Hcell. rewrite resolveCell_plain by exact Hcell.
  f_equal. exact IHrow.
Qed.

Lemma resolve_keys rt JSON_parse db results i row row' :
  results !! i = Some row ->
  resolveChunkedContentInResults rt JSON_parse db results !! i = Some row' ->
  fst <$> row' = fst <$> row.
Proof.
  unfold resolveChunkedContentInResults. intros Hrow. rewrite list_lookup_fmap, Hrow.
  cbn. intros [= <-]. rewrite <- list_fmap_compose.
  apply list_fmap_ext. intros j [key value] _. reflexivity.
Qed.

(** X8: [executeEnhancedSql] hands a failure of the plain query on
    unchanged, in particular a refusal by the gate, after which the
    database has not been touched; on success it keeps the number of
    rows, the row count and the keys of every row, and when no cell is a
    reference token the rows are returned as they are and the response
    says that nothing was resolved. *)
Theorem enhanced_query_keeps_shape {DB : Type}
        (sql_exec : string -> DB -> Result (list (list (string * JsValue)) * list string) * DB)
        (chunk_tables : DB -> Store) rt JSON_parse JSON_stringify sqlQuery db :
  let enhanced_query :=
    executeEnhancedSql sql_exec chunk_tables rt JSON_parse JSON_stringify sqlQuery db in
  (forall error query db',
      executeSql sql_exec sqlQuery db = (SqlFailure error query, db') ->
      enhanced_query = (EnhancedFailure error query, db')) /\
  (rejected sqlQuery ->
   exists error, enhanced_query = (EnhancedFailure error sqlQuery, db)) /\
  (forall results row_count column_names query_type db',
      executeSql sql_exec sqlQuery db =
        (SqlSuccess results row_count column_names query_type, db') ->
      exists enhanced resolved,
        enhanced_query =
          (EnhancedSuccess enhanced row_count column_names query_type resolved, db') /\
        length enhanced = length results /\
        row_count = Z.of_nat (length enhanced) /\
        (forall i row row',
            results !! i = Some row -> enhanced !! i = Some row' ->
            fst <$> row' = fst <$> row) /\
        (reference_free results -> enhanced = results /\ resolved = false)).
Proof.
  cbn zeta. unfold executeEnhancedSql. split; [|split].
  - intros error query db' ->. reflexivity.
  - unfold rejected, executeSql. intros ->. cbn [negb]. eexists. reflexivity.
  - intros results row_count column_names query_type db' Hplain. rewrite Hplain.
    eexists _, _. split; [reflexivity|].
    assert (length (resolveChunkedContentInResults rt JSON_parse (chunk_tables db') results)
            = length results) as Hlen
      by (unfold resolveChunkedContentInResults; apply length_fmap).
    split; [exact Hlen|]. split.
    + rewrite Hlen. unfold executeSql in Hplain.
      destruct (negb (isValid (validateAnalyticalSql sqlQuery))); [discriminate|].
      destruct (sql_exec sqlQuery db) as [[[rows names]|e] db1]; [|discriminate].
      now injection Hplain as <- <- _ _ _.
    + split; [intros i row row'; apply resolve_keys|].
      intros Hfree. rewrite (resolve_reference_free rt JSON_parse _ results Hfree).
      split; [reflexivity|]. rewrite Nat.eqb_refl. cbn [negb orb].
      now rewrite bool_decide_eq_true_2.
Qed.
End EnhancedSqlProperties.


Section EnhancedSqlExamples.
Import Js JsString SqlGate ChunkingEngine EnhancedSql Examples Samples.

Lemma enhanced_query_keeps_shape_witness :
  exists error,
    executeEnhancedSql log_query (fun _ : Log => empty_store) no_streams literal_parse
                       literal_stringify "DROP TABLE target" [] =
      (EnhancedFailure error "DROP TABLE target", []).
Proof.
  destruct (enhanced_query_keeps_shape log_query (fun _ : Log => empty_store) no_streams
              literal_parse literal_stringify "DROP TABLE target" [])
    as (_ & Hrefused & _).
  apply Hrefused. reflexivity.
Defined.

End EnhancedSqlExamples.


(** ** Entity extraction rules *)

Section ExtractionProperties.
Import Js JsString Identifier JsUpper GraphQL SchemaParser Shape.

Lemma upper_unit_not_lower c : is_lower (upper_unit c) = false.
Proof. each_char c. Qed.

Lemma own_upper_not_lower c : own_upper c = true -> is_lower c = false.
Proof. each_char c. Qed.

Lemma inferTargetType_capital fieldName' : starts_lower (inferTargetType fieldName') = false.
Proof.
  unfold inferTargetType.
  destruct (if endsWith fieldName' "s" then drop_last 1 fieldName' else fieldName')
    as [|c rest]; [reflexivity|].
  unfold upper_char. destruct (N.eqb (code c) 223); [reflexivity|].
  cbn. apply upper_unit_not_lower.
Qed.


Lemma fieldRule_capital typeName' fieldName' fieldInfo rule :
  fieldRule typeName' fieldName' fieldInfo = Ok rule -> capital_target rule.
Proof.
  unfold fieldRule, isEntityType.
  destruct (list_includes scalarTypes (type fieldInfo)).
  - intros [= <-]. intros H. discriminate H.
  - destruct (type fieldInfo) as [|c rest] eqn:Ht; [discriminate|].
    destruct (own_upper c) eqn:Hc; intros [= <-]; intros H; [|discriminate H].
    eexists. split; [reflexivity|]. cbn. now apply own_upper_not_lower.
Qed.

Lemma fieldRules_capital typeName' fields' acc :
  Forall capital_target acc -> Forall capital_target (fst (fieldRules typeName' fields' acc)).
Proof.
  revert acc. induction fields' as [|[f info] rest IH]; intros acc Hacc; [exact Hacc|].
  cbn [fieldRules]. destruct (fieldRule typeName' f info) as [rule|e] eqn:Hr; [|exact Hacc].
  apply IH, Forall_app. split; [exact Hacc|].
  constructor; [eapply fieldRule_capital, Hr|constructor].
Qed.

Lemma typeRules_capital types' acc :
  Forall capital_target acc -> Forall capital_target (fst (typeRules types' acc)).
Proof.
  revert acc. induction types' as [|[t info] rest IH]; intros acc Hacc; [exact Hacc|].
  cbn [typeRules]. pose proof (fieldRules_capital t (fields info) acc Hacc) as H.
  destruct (fieldRules t (fields info) acc) as [acc' [u|e]]; [apply IH|]; exact H.
Qed.

Lemma generateExtractionRules_capital schemaInfo :
  Forall capital_target (fst (generateExtractionRules schemaInfo)).
Proof.
  unfold generateExtractionRules.
  pose proof (typeRules_capital (types schemaInfo) [] ltac:(constructor)) as H.
  destruct (typeRules (types schemaInfo) []) as [rules [u|e]]; [|exact H].
  cbn [fst]. apply Forall_app. split; [exact H|].
  repeat constructor; intros Hx; discriminate Hx.
Qed.

Lemma shouldExtractEntities_capital rules typeName' fieldName' T :
  Forall capital_target rules ->
  extract (shouldExtractEntities rules typeName' fieldName') = true ->
  targetType (shouldExtractEntities rules typeName' fieldName') = Some T ->
  starts_lower T = false.
Proof.
  intros Hrules. unfold shouldExtractEntities.
  destruct (List.find _ rules) as [rule|] eqn:Hfind.
  - apply find_some in Hfind as [Hin _]. rewrite Forall_forall in Hrules.
    apply list_elem_of_In in Hin. specialize (Hrules rule Hin).
    cbn [extract targetType]. intros He Ht.
    destruct (Hrules He) as (T' & Ht' & Hl). congruence.
  - cbn [extract targetType]. intros _ [= <-]. apply inferTargetType_capital.
Qed.

Lemma starts_lower_app a b : starts_lower a = true -> starts_lower (a +:+ b) = true.
Proof. destruct a; [discriminate|]. now rewrite append_cons. Qed.

Lemma normal_starts_lower s :
  normal s = true -> is_empty s = false -> starts_with_digit s = false ->
  starts_lower s = true.
Proof.
  destruct s as [|c s]; [discriminate|]. unfold normal. cbn.
  intros H _ Hd. apply andb_true_iff in H as [H _]. apply andb_true_iff in H as [H Hu].
  apply andb_true_iff in H as [H _]. apply negb_true_iff in Hu.
  unfold is_low in H. rewrite Hd, Hu in H. now rewrite !orb_false_r in H.
Qed.

Lemma sanitizeTableName_starts_lower rnd v : starts_lower (sanitizeTableName rnd v) = true.
Proof.
  unfold sanitizeTableName. destruct v; try reflexivity.
  destruct (is_empty s); [reflexivity|].
  pose proof (table_core_normal s) as Hn.
  assert (starts_lower
            (if is_empty (if starts_with_digit (table_core s)
                          then "table_" +:+ table_core s else table_core s)
             then "table_" +:+ rnd
             else if starts_with_digit (table_core s)
                  then "table_" +:+ table_core s else table_core s) = true) as H.
  { destruct (starts_with_digit (table_core s)) eqn:Hd; [reflexivity|].
    destruct (is_empty (table_core s)) eqn:He; [reflexivity|].
    now apply normal_starts_lower. }
  cbn zeta. destruct (list_includes _ _); [now apply starts_lower_app|exact H].
Qed.

Lemma substring_head c s n :
  (0 < n)%nat -> exists t, String.substring 0 n (String c s) = String c t.
Proof. destruct n; [lia|]. intros _. cbn. eauto. Qed.

Lemma singularize_starts_lower s :
  starts_lower s = true -> starts_lower (SchemaInferenceEngine.singularize s) = true.
Proof.
  intros Hs. unfold SchemaInferenceEngine.singularize.
  destruct (endsWith s "ies") eqn:Hies.
  - unfold drop_last. destruct s as [|c s]; [discriminate|].
    destruct (String.length (String c s) - 3)%nat eqn:Hl; [reflexivity|].
    destruct (substring_head c s (S n) ltac:(lia)) as [t ->]. exact Hs.
  - destruct (_ && _)%bool; [|exact Hs].
    destruct (Nat.ltb_spec 1 (String.length (drop_last 1 s))) as [Hlen|]; [|exact Hs].
    unfold drop_last in *. destruct s as [|c s]; [discriminate|].
    destruct (String.length (String c s) - 1)%nat eqn:Hl; [cbn in Hlen; lia|].
    destruct (substring_head c s (S n) ltac:(lia)) as [t ->]. exact Hs.
Qed.

Lemma inference_type_starts_lower rnd obj path :
  starts_lower (SchemaInferenceEngine.inferEntityType rnd obj path) = true.
Proof.
  unfold SchemaInferenceEngine.inferEntityType.
  repeat match goal with
         | |- context [if ?b then _ else _] => destruct b
         end;
    try reflexivity; try apply sanitizeTableName_starts_lower.
  apply singularize_starts_lower, sanitizeTableName_starts_lower.
Qed.

Lemma insertion_type_starts_lower rnd obj path :
  starts_lower (DataInsertionEngine.inferEntityType rnd obj path) = true.
Proof.
  unfold DataInsertionEngine.inferEntityType.
  repeat match goal with
         | |- context [if ?b then _ else _] => destruct b
         end;
    try reflexivity; apply sanitizeTableName_starts_lower.
Qed.

(** X9: the entity type that [shouldExtractEntities] proposes for a field
    whose entities are to be extracted, by a rule of the parsed schema or
    by the default patterns, starts with a character that is not a small
    letter, while every table name that either engine infers for an entity
    starts with a small letter: the proposed type is never the name of an
    inferred table. *)
Theorem extraction_target_is_no_table schemaInfo extractionRules typeName' fieldName' T
        rnd obj path :
  upper_in_model fieldName' = true ->
  extractionRules = fst (generateExtractionRules schemaInfo) \/ extractionRules = [] ->
  extract (shouldExtractEntities extractionRules typeName' fieldName') = true ->
  targetType (shouldExtractEntities extractionRules typeName' fieldName') = Some T ->
  T <> SchemaInferenceEngine.inferEntityType rnd obj path /\
  T <> DataInsertionEngine.inferEntityType rnd obj path /\
  T <> sanitizeTableName rnd obj.
Proof.
  intros _ Hrules He Ht.
  assert (starts_lower T = false) as Hcap.
  { eapply shouldExtractEntities_capital; [|exact He|exact Ht].
    destruct Hrules as [->| ->]; [apply generateExtractionRules_capital|constructor]. }
  repeat split; intros ->.
  - now rewrite inference_type_starts_lower in Hcap.
  - now rewrite insertion_type_starts_lower in Hcap.
  - now rewrite sanitizeTableName_starts_lower in Hcap.
Qed.
End ExtractionProperties.

Section ExtractionExamples.
Import Js JsString Identifier SchemaParser Samples.

Lemma extraction_target_is_no_table_witness :
  "AssociatedTarget" <>
    SchemaInferenceEngine.inferEntityType "k2j9x1q0a" Examples.androgen_receptor
                                          ["associatedTargets"] /\
  "AssociatedTarget" <>
    DataInsertionEngine.inferEntityType "k2j9x1q0a" Examples.androgen_receptor
                                        ["associatedTargets"] /\
  "AssociatedTarget" <> sanitizeTableName "k2j9x1q0a" Examples.androgen_receptor.
Proof.
  apply (extraction_target_is_no_table target_schema_info [] "Disease" "associatedTargets"
           "AssociatedTarget" "k2j9x1q0a" Examples.androgen_receptor ["associatedTargets"]
           eq_refl (or_intror eq_refl) eq_refl eq_refl).
Defined.

End ExtractionExamples.


(** ** Field extraction and table schemas *)

Section FieldExtractionProperties.
Import Js JsString Identifier SchemaInferenceEngine Junction Payload FieldExtraction CreateTables.
Variable JSON_stringify : JsValue -> option string.
Variable random36 : nat -> string.

Lemma getSQLiteType_base v : In (getSQLiteType v) ["INTEGER"; "REAL"; "TEXT"].
Proof. destruct (getSQLiteType_class v) as [-> |[-> | ->]]; cbn; auto 8. Qed.

Lemma record_set_Forall {X} (P : string * X -> Prop) r k x :
  Forall P r -> (forall k', P (k', x)) -> Forall P (record_set r k x).
Proof.
  intros Hr Hx. induction Hr as [|[k0 x0] r H0 Hrest IH]; cbn.
  - constructor; [apply Hx|constructor].
  - destruct (String.eqb k k0); constructor; [apply Hx|exact Hrest|exact H0|exact IH].
Qed.

Lemma record_get_Forall {X} (P : string * X -> Prop) r k x :
  Forall P r -> record_get r k = Some x -> exists k', P (k', x).
Proof.
  intros Hr. induction Hr as [|[k0 x0] r H0 _ IH]; cbn; [discriminate|].
  destruct (String.eqb k k0); [intros [= Heq]; rewrite <- Heq; eauto|exact IH].
Qed.

Lemma addColumnType_typed columnTypes column type :
  base_typed columnTypes -> In type ["INTEGER"; "REAL"; "TEXT"] ->
  base_typed (addColumnType columnTypes column type).
Proof.
  intros Hc Ht. unfold addColumnType, base_typed. apply record_set_Forall; [exact Hc|].
  intros k0. cbn [snd]. unfold set_add.
  assert (Forall (fun t => In t ["INTEGER"; "REAL"; "TEXT"])
                 (default [] (record_get columnTypes column))) as Hold.
  { destruct (record_get columnTypes column) as [types|] eqn:Hg; [|constructor].
    destruct (record_get_Forall _ _ _ _ Hc Hg) as [k' H]. exact H. }
  destruct (set_has _ _); [exact Hold|].
  apply Forall_app. split; [exact Hold|]. constructor; [exact Ht|constructor].
Qed.

Lemma has_key_set {X} (r : list (string * X)) k x k' :
  has_key (record_set r k x) k' <-> k' = k \/ has_key r k'.
Proof.
  unfold has_key. rewrite record_set_get.
  destruct (String.eqb_spec k' k) as [->|Hne]; [split; [now left|discriminate]|].
  split; [now right|]. intros [H|H]; [contradiction|exact H].
Qed.

Lemma addColumnType_grows columnTypes column type :
  grows columnTypes (addColumnType columnTypes column type) /\
  has_key (addColumnType columnTypes column type) column.
Proof.
  unfold addColumnType. split.
  - intros k Hk. apply has_key_set. now right.
  - apply has_key_set. now left.
Qed.

Lemma grows_refl c : grows c c.
Proof. intros k H. exact H. Qed.

Lemma grows_trans a b c : grows a b -> grows b c -> grows a c.
Proof. intros H1 H2 k H. apply H2, H1, H. Qed.

(** One column is observed and one cell written. *)
Lemma step_kept rowData columnTypes column type value :
  base_typed columnTypes -> row_in rowData columnTypes ->
  In type ["INTEGER"; "REAL"; "TEXT"] ->
  base_typed (addColumnType columnTypes column type) /\
  row_in (record_set rowData column value) (addColumnType columnTypes column type) /\
  grows columnTypes (addColumnType columnTypes column type).
Proof.
  intros Hc Hr Ht. destruct (addColumnType_grows columnTypes column type) as [Hg Hk].
  split; [now apply addColumnType_typed|]. split; [|exact Hg].
  intros k [->|H]%has_key_set; [exact Hk|apply Hg, Hr, H].
Qed.

Lemma text_base : In "TEXT" ["INTEGER"; "REAL"; "TEXT"].
Proof. cbn. auto 8. Qed.

Lemma integer_base : In "INTEGER" ["INTEGER"; "REAL"; "TEXT"].
Proof. cbn. auto 8. Qed.

Lemma flattenLoop_kept columnName fields columnTypes rowData n rowData' columnTypes' n' :
  flattenLoop random36 columnName fields columnTypes rowData n = (rowData', columnTypes', n') ->
  base_typed columnTypes -> row_in rowData columnTypes ->
  base_typed columnTypes' /\ row_in rowData' columnTypes' /\ grows columnTypes columnTypes'.
Proof.
  revert columnTypes rowData n.
  induction fields as [|[subKey subValue] rest IH]; intros columnTypes rowData n; cbn [flattenLoop].
  - intros [= <- <- <-] Hc Hr. split; [exact Hc|]. split; [exact Hr|apply grows_refl].
  - destruct (_ && _)%bool; [|apply IH].
    intros H Hc Hr.
    destruct (step_kept rowData columnTypes
                (columnName +:+ "_" +:+ columnOf random36 n subKey)
                (getSQLiteType subValue) (boolean_as_number subValue) Hc Hr
                (getSQLiteType_base subValue)) as (Hc1 & Hr1 & Hg1).
    destruct (IH _ _ _ H Hc1 Hr1) as (Hc2 & Hr2 & Hg2).
    split; [exact Hc2|]. split; [exact Hr2|]. eapply grows_trans; eassumption.
Qed.

Lemma entityFieldsLoop_kept fields columnTypes rowData n rowData' columnTypes' n' :
  entityFieldsLoop JSON_stringify random36 fields columnTypes rowData n
    = (rowData', columnTypes', n') ->
  base_typed columnTypes -> row_in rowData columnTypes ->
  base_typed columnTypes' /\ row_in rowData' columnTypes' /\ grows columnTypes columnTypes'.
Proof.
  revert columnTypes rowData n.
  induction fields as [|[key value] rest IH]; intros columnTypes rowData n;
    cbn [entityFieldsLoop].
  - intros [= <- <- <-] Hc Hr. split; [exact Hc|]. split; [exact Hr|apply grows_refl].
  - assert (forall column type cell,
               In type ["INTEGER"; "REAL"; "TEXT"] ->
               entityFieldsLoop JSON_stringify random36 rest
                 (addColumnType columnTypes column type) (record_set rowData column cell) (S n)
                 = (rowData', columnTypes', n') ->
               base_typed columnTypes -> row_in rowData columnTypes ->
               base_typed columnTypes' /\ row_in rowData' columnTypes' /\
               grows columnTypes columnTypes') as Hstep.
    { intros column type cell Ht H Hc Hr.
      destruct (step_kept rowData columnTypes column type cell Hc Hr Ht) as (Hc1 & Hr1 & Hg1).
      destruct (IH _ _ _ H Hc1 Hr1) as (Hc2 & Hr2 & Hg2).
      split; [exact Hc2|]. split; [exact Hr2|]. eapply grows_trans; eassumption. }
    destruct value as [| |b|x|s|items|nested|f];
      try (apply Hstep; apply getSQLiteType_base).
    + destruct (_ && _)%bool; [apply IH|apply Hstep, text_base].
    + destruct (isEntity (JObj nested)); [apply Hstep, integer_base|].
      destruct (hasScalarFields (JObj nested)); [|apply Hstep, text_base].
      destruct (flattenLoop random36 (columnOf random36 n key) nested columnTypes rowData (S n))
        as [[rowData1 columnTypes1] n1] eqn:Hflat.
      intros H Hc Hr.
      destruct (flattenLoop_kept _ _ _ _ _ _ _ _ Hflat Hc Hr) as (Hc1 & Hr1 & Hg1).
      destruct (IH _ _ _ H Hc1 Hr1) as (Hc2 & Hr2 & Hg2).
      split; [exact Hc2|]. split; [exact Hr2|]. eapply grows_trans; eassumption.
Qed.

Lemma row_in_nil columnTypes : row_in [] columnTypes.
Proof. intros k H. now contradiction H. Qed.

Lemma extractEntityFields_kept obj columnTypes n rowData columnTypes' n' :
  extractEntityFields JSON_stringify random36 obj columnTypes n = (rowData, columnTypes', n') ->
  base_typed columnTypes ->
  base_typed columnTypes' /\ row_in rowData columnTypes' /\ grows columnTypes columnTypes'.
Proof.
  unfold extractEntityFields. destruct (_ || _)%bool.
  - intros [= <- <- <-] Hc.
    destruct (step_kept [] columnTypes "value" (getSQLiteType obj) obj Hc
                (row_in_nil _) (getSQLiteType_base obj)) as (H1 & H2 & H3).
    split; [exact H1|]. split; [exact H2|exact H3].
  - intros H Hc. eapply entityFieldsLoop_kept; [exact H|exact Hc|apply row_in_nil].
Qed.

Lemma entityRows_kept entities index columnTypes sampleData n sampleData' columnTypes' n' :
  entityRows JSON_stringify random36 entities index columnTypes sampleData n
    = (sampleData', columnTypes', n') ->
  base_typed columnTypes ->
  Forall (fun row => row_in row columnTypes) sampleData ->
  base_typed columnTypes' /\
  Forall (fun row => row_in row columnTypes') sampleData' /\
  length sampleData' = (length sampleData + Nat.min (length entities) (3 - index))%nat.
Proof.
  revert index columnTypes sampleData n.
  induction entities as [|entity rest IH]; intros index columnTypes sampleData n;
    cbn [entityRows].
  - intros [= <- <- <-] Hc Hs. split; [exact Hc|]. split; [exact Hs|]. cbn. lia.
  - destruct (extractEntityFields JSON_stringify random36 entity columnTypes n)
      as [[row columnTypes1] n1] eqn:Hrow.
    intros H Hc Hs.
    destruct (extractEntityFields_kept _ _ _ _ _ _ Hrow Hc) as (Hc1 & Hr1 & Hg1).
    assert (Forall (fun row => row_in row columnTypes1) sampleData) as Hs1.
    { eapply Forall_impl; [exact Hs|]. cbn. intros r Hr k Hk. apply Hg1, Hr, Hk. }
    destruct (Nat.ltb_spec index 3) as [Hlt|Hge].
    + destruct (IH _ _ _ _ H Hc1) as (Hc2 & Hs2 & Hlen).
      { apply Forall_app. split; [exact Hs1|]. constructor; [exact Hr1|constructor]. }
      split; [exact Hc2|]. split; [exact Hs2|].
      rewrite Hlen, length_app. cbn [length]. lia.
    + destruct (IH _ _ _ _ H Hc1 Hs1) as (Hc2 & Hs2 & Hlen).
      split; [exact Hc2|]. split; [exact Hs2|]. rewrite Hlen. cbn [length]. lia.
Qed.

Lemma resolveColumnType_base types :
  Forall (fun t => In t ["INTEGER"; "REAL"; "TEXT"]) types ->
  In (resolveColumnType types) ["INTEGER"; "REAL"; "TEXT"].
Proof.
  intros H. unfold resolveColumnType.
  destruct types as [|t [|t' rest]].
  - cbn. auto 8.
  - now inversion H.
  - destruct (set_has _ "TEXT"); [cbn; auto 8|]. destruct (set_has _ "REAL"); cbn; auto 8.
Qed.

Lemma inferredTypes_valid t :
  In t inferredTypes -> validateSQLiteType (JStr t) = t.
Proof.
  cbn. intros H. repeat (destruct H as [<-|H]; [reflexivity|]). destruct H.
Qed.

Lemma has_key_resolve columnTypes k :
  has_key columnTypes k -> has_key (resolveColumnTypes columnTypes) k.
Proof.
  unfold has_key, resolveColumnTypes. rewrite record_get_fmap.
  destruct (record_get columnTypes k); [discriminate|intros H; now contradiction H].
Qed.

Lemma ensureIdColumn_cases cols :
  (exists t, ensureIdColumn cols = record_set cols "id" t /\
             In t ["INTEGER PRIMARY KEY AUTOINCREMENT"; "INTEGER PRIMARY KEY"]) \/
  (ensureIdColumn cols = cols /\ has_key cols "id").
Proof.
  unfold ensureIdColumn, has_key. destruct (record_get cols "id") as [t|] eqn:Hid.
  - destruct (is_empty t); [left; eexists; split; [reflexivity|cbn; auto 8]|].
    destruct (String.eqb t "INTEGER"); [left; eexists; split; [reflexivity|cbn; auto 8]|].
    right. split; [reflexivity|discriminate].
  - left. eexists. split; [reflexivity|cbn; auto 8].
Qed.

Lemma entityRows_sample entities : forall index columnTypes sampleData n,
  fst (fst (entityRows JSON_stringify random36 entities index columnTypes sampleData n)) =
    (sampleData ++ take (3 - index) (composedRows JSON_stringify random36 entities columnTypes n))%list.
Proof.
  induction entities as [|entity rest IH]; intros index columnTypes sampleData n;
    cbn [entityRows composedRows].
  - now rewrite take_nil, app_nil_r.
  - destruct (extractEntityFields JSON_stringify random36 entity columnTypes n)
      as [[row columnTypes1] n1].
    rewrite IH. destruct (Nat.ltb_spec index 3) as [Hlt|Hge].
    + replace (3 - index)%nat with (S (3 - S index)) by lia.
      cbn [take]. now rewrite <- app_assoc.
    + replace (3 - index)%nat with 0%nat by lia. replace (3 - S index)%nat with 0%nat by lia.
      reflexivity.
Qed.

(** X10: the schema of an entity table.  Its sample is made of the rows
    that [extractEntityFields] composes for the first three entities, in
    their order, and of no other row; it has an [id] column; the type of
    every column is INTEGER, REAL or TEXT or one of the two primary-key
    types, which [createTables] writes into the statement unchanged; and
    every key of a sample row is a column of the table. *)
Theorem entity_schema_shape entities n schema n' :
  entitySchema JSON_stringify random36 entities n = (schema, n') ->
  sample_data schema =
    JObj <$> take 3 (composedRows JSON_stringify random36 entities [] n) /\
  length (sample_data schema) = Nat.min 3 (length entities) /\
  has_key (columns schema) "id" /\
  Forall (fun column => In (snd column) inferredTypes /\
                        validateSQLiteType (JStr (snd column)) = snd column)
         (columns schema) /\
  Forall (fun row => exists cells,
              row = JObj cells /\ forall k, has_key cells k -> has_key (columns schema) k)
         (sample_data schema).
Proof.
  unfold entitySchema.
  destruct (entityRows JSON_stringify random36 entities 0 [] [] n)
    as [[sampleData columnTypes] n1] eqn:Hrows.
  intros [= <- <-]. cbn [sample_data columns].
  pose proof (entityRows_sample entities 0 [] [] n) as Hsample.
  rewrite Hrows in Hsample. cbn [fst app] in Hsample.
  destruct (entityRows_kept _ _ _ _ _ _ _ _ Hrows (Forall_nil_2 _) (Forall_nil_2 _))
    as (Hc & Hs & Hlen).
  assert (Forall (fun column : string * string => In (snd column) ["INTEGER"; "REAL"; "TEXT"])
                 (resolveColumnTypes columnTypes)) as Hres.
  { unfold resolveColumnTypes. apply Forall_fmap. eapply Forall_impl; [exact Hc|].
    intros [c types] H. cbn in *. now apply resolveColumnType_base. }
  assert (forall k, has_key (resolveColumnTypes columnTypes) k ->
                    has_key (ensureIdColumn (resolveColumnTypes columnTypes)) k) as Hkeep.
  { intros k Hk. destruct (ensureIdColumn_cases (resolveColumnTypes columnTypes))
      as [(t & -> & _)|[-> _]]; [apply has_key_set; now right|exact Hk]. }
  split; [|split; [|split; [|split]]].
  - now rewrite Hsample.
  - rewrite length_fmap. cbn in Hlen. unfold Row in *. lia.
  - destruct (ensureIdColumn_cases (resolveColumnTypes columnTypes))
      as [(t & -> & _)|[-> H]]; [apply has_key_set; now left|exact H].
  - assert (Forall (fun column : string * string => In (snd column) inferredTypes)
                   (ensureIdColumn (resolveColumnTypes columnTypes))) as Hall.
    { assert (Forall (fun column : string * string => In (snd column) inferredTypes)
                     (resolveColumnTypes columnTypes)) as Hres'.
      { eapply Forall_impl; [exact Hres|]. cbn. intros column [H|[H|[H|[]]]]; auto 8. }
      destruct (ensureIdColumn_cases (resolveColumnTypes columnTypes))
        as [(t & -> & Ht)|[-> _]]; [|exact Hres'].
      apply record_set_Forall; [exact Hres'|]. intros k0. cbn in *.
      destruct Ht as [<-|[<-|[]]]; auto 8. }
    eapply Forall_impl; [exact Hall|]. cbn beta. intros column H.
    split; [exact H|now apply inferredTypes_valid].
  - apply Forall_fmap. eapply Forall_impl; [exact Hs|]. cbn. intros row Hrow.
    exists row. split; [reflexivity|]. intros k Hk. apply Hkeep, has_key_resolve, Hrow, Hk.
Qed.

(** *** Arrays of scalars *)

Lemma extractSimpleFields_scalar v columnTypes n :
  scalar v = true ->
  extractSimpleFields JSON_stringify random36 v columnTypes n =
  ([("value", v)], addColumnType columnTypes "value" (getSQLiteType v), n).
Proof. intros H. unfold extractSimpleFields. now rewrite H. Qed.

Lemma simpleItems_scalars keep items columnTypes sampleData n :
  Forall (fun v => scalar v = true) items ->
  simpleItems JSON_stringify random36 keep items columnTypes sampleData n =
  ((if keep then sampleData ++ ((fun v => [("value", v)]) <$> items) else sampleData)%list,
   fold_left (fun columnTypes v => addColumnType columnTypes "value" (getSQLiteType v))
             items columnTypes,
   n).
Proof.
  intros H. revert columnTypes sampleData.
  induction H as [|v items Hv _ IH]; intros columnTypes sampleData; cbn [simpleItems].
  - destruct keep; [now rewrite app_nil_r|reflexivity].
  - rewrite (extractSimpleFields_scalar v columnTypes n Hv), IH.
    destruct keep; [|reflexivity]. cbn [fmap list_fmap fold_left]. now rewrite <- app_assoc.
Qed.

Lemma value_column_observed items types :
  fold_left (fun columnTypes v => addColumnType columnTypes "value" (getSQLiteType v))
            items [("value", types)] = [("value", observe types items)].
Proof.
  revert types. induction items as [|v items IH]; intros types; [reflexivity|].
  cbn [fold_left].
  change (addColumnType [("value", types)] "value" (getSQLiteType v))
    with [("value", set_add types (getSQLiteType v))].
  rewrite IH. reflexivity.
Qed.

Lemma value_column_first v items :
  fold_left (fun columnTypes v => addColumnType columnTypes "value" (getSQLiteType v))
            (v :: items) [] = [("value", observe [] (v :: items))].
Proof.
  cbn [fold_left].
  change (addColumnType [] "value" (getSQLiteType v))
    with [("value", set_add [] (getSQLiteType v))].
  rewrite value_column_observed. reflexivity.
Qed.

(** X11: for an array of scalars the fallback table has the single column
    [value], whose type is resolved from the types of all the items, and
    the sample holds the first three items; no random suffix is drawn.
    An empty array gives a table without columns. *)
Theorem scalar_array_schema items n :
  Forall (fun v => scalar v = true) items ->
  createSchemaFromPrimitiveOrSimpleArray JSON_stringify random36 (JArr items) n =
  (mkTableSchema
     (match items with
      | [] => []
      | _ => [("value", resolveColumnType (observe [] items))]
      end)
     ((fun v => JObj [("value", v)]) <$> take 3 items),
   n).
Proof.
  intros H. unfold createSchemaFromPrimitiveOrSimpleArray.
  rewrite (simpleItems_scalars true (take 3 items) [] [] n) by now apply Forall_take.
  cbn [app].
  destruct (Nat.ltb_spec 3 (length items)) as [Hlt|Hge].
  - rewrite simpleItems_scalars by now apply Forall_drop.
    rewrite <- fold_left_app, (List.firstn_skipn 3 items).
    destruct items as [|v items]; [reflexivity|].
    rewrite value_column_first. cbn. rewrite <- list_fmap_compose. reflexivity.
  - rewrite (take_ge items) by lia.
    destruct items as [|v items]; [reflexivity|].
    rewrite value_column_first. cbn. rewrite <- list_fmap_compose. reflexivity.
Qed.
End FieldExtractionProperties.

Section FieldExtractionExamples.
Import Js JsString SchemaInferenceEngine Junction Payload FieldExtraction CreateTables.
Import Samples.

Lemma entity_schema_shape_witness :
  let schema :=
    fst (entitySchema literal_stringify one_suffix
                      [Examples.androgen_receptor; Examples.study; disease_hit;
                       JObj target_fields] 0) in
  sample_data schema =
    [JObj [("id", JStr "ENSG00000169083"); ("name", JStr "AR")];
     JObj [("id", JStr "S1"); ("name", JStr "x")];
     JObj [("typename", JStr "Disease"); ("id", JStr "EFO_0000270")]] /\
  length (sample_data schema) = 3%nat /\ has_key (columns schema) "id".
Proof.
  intros schema.
  destruct (entity_schema_shape literal_stringify one_suffix
              [Examples.androgen_receptor; Examples.study; disease_hit; JObj target_fields]
              0 schema
              (snd (entitySchema literal_stringify one_suffix
                      [Examples.androgen_receptor; Examples.study; disease_hit;
                       JObj target_fields] 0))
              (surjective_pairing _)) as (Hrows & Hsample & Hid & _).
  split; [rewrite Hrows; vm_compute; reflexivity|]. split; [exact Hsample|exact Hid].
Defined.

Lemma scalar_array_schema_witness :
  createSchemaFromPrimitiveOrSimpleArray literal_stringify one_suffix
    (JArr [JStr "ENSG00000169083"; JBool true; JNull]) 0 =
  (mkTableSchema [("value", "TEXT")]
                 [JObj [("value", JStr "ENSG00000169083")]; JObj [("value", JBool true)];
                  JObj [("value", JNull)]],
   0%nat).
Proof.
  apply (scalar_array_schema literal_stringify one_suffix
           [JStr "ENSG00000169083"; JBool true; JNull] 0).
  repeat constructor.
Defined.

End FieldExtractionExamples.


(** ** Row composition and simple insertion *)

Section RowMappingProperties.
Import Js JsString Identifier SchemaInferenceEngine Junction DataInsertionEngine.
Import ChunkingEngine ChunkingMaintenance Payload FieldExtraction RowMapping Shape.
Variable rt : Runtime.
Variable JSON_stringify : JsValue -> option string.
Variable random36 : nat -> string.
Variable randomUUID : nat -> string.

Lemma observe_base types values :
  Forall (fun t => In t ["INTEGER"; "REAL"; "TEXT"]) types ->
  Forall (fun t => In t ["INTEGER"; "REAL"; "TEXT"]) (observe types values).
Proof.
  revert types. induction values as [|v values IH]; intros types H; [exact H|].
  change (observe types (v :: values)) with (observe (set_add types (getSQLiteType v)) values).
  apply IH. unfold set_add. destruct (set_has types (getSQLiteType v)); [exact H|].
  apply Forall_app. split; [exact H|]. constructor; [apply getSQLiteType_base|constructor].

Qed.

Lemma base_nonempty t : In t ["INTEGER"; "REAL"; "TEXT"] -> is_empty t = false.
Proof. cbn. intros [<-|[<-|[<-|[]]]]; reflexivity. Qed.

Lemma mapObjectToSimpleSchema_scalar obj schema env :
  scalar obj = true -> has_column schema "value" = true ->
  mapObjectToSimpleSchema rt JSON_stringify random36 randomUUID obj schema env =
    (Ok [("value", obj)], env).
Proof. intros Hs Hv. unfold mapObjectToSimpleSchema, unit_I. now rewrite Hs, Hv. Qed.

Lemma insertSimpleRows_scalars items schema env :
  Forall (fun v => scalar v = true) items -> has_column schema "value" = true ->
  insertSimpleRows rt JSON_stringify random36 randomUUID items "array_data" schema env =
    (Ok tt, mkEnv (chunk_store env) (draws env) (ids env)
                  (issued env ++ (insertItem <$> items))).
Proof.
  intros Hitems Hv. revert env.
  induction Hitems as [|v items Hs _ IH]; intros env; cbn [insertSimpleRows].
  - unfold unit_I. cbn. rewrite app_nil_r. now destruct env.
  - unfold bind_I at 1. unfold insertSimpleRow, bind_I.
    rewrite (mapObjectToSimpleSchema_scalar v schema env Hs Hv).
    cbn [length Nat.eqb andb]. unfold exec.
    rewrite IH. cbn [chunk_store draws ids issued fmap list_fmap].
    rewrite <- app_assoc. reflexivity.
Qed.

(** X12: every item of an array of scalars is inserted as one row of the
    fallback table [array_data], in order, by one statement each, and
    nothing else happens: the table inferred for the array receives
    exactly the items of the array. *)
Theorem scalar_array_rows entityPhases items n env :
  Forall (fun v => scalar v = true) items ->
  insertData rt JSON_stringify random36 randomUUID entityPhases (JArr items)
    [("array_data",
      fst (createSchemaFromPrimitiveOrSimpleArray JSON_stringify random36 (JArr items) n))]
    env =
  (Ok tt, mkEnv (chunk_store env) (draws env) (ids env)
                (issued env ++ (insertItem <$> items))).
Proof.
  intros Hitems. rewrite scalar_array_schema by exact Hitems. cbn [fst insertData].
  change (String.eqb "array_data" "scalar_data") with false.
  change (String.eqb "array_data" "array_data") with true.
  change (String.eqb "array_data" "root_object") with false. cbn [orb].
  destruct items as [|v items].
  - cbn. rewrite app_nil_r. now destruct env.
  - apply insertSimpleRows_scalars; [exact Hitems|].
    unfold has_column. cbn [columns record_get]. change (String.eqb "value" "value") with true.
    cbn iota. apply negb_true_iff, base_nonempty, resolveColumnType_base, observe_base.
    constructor.
Qed.

(** *** Arrays of arrays *)

Lemma pretty_char_digit x : is_digit (pretty_N_char x) = true.
Proof.
  unfold pretty_N_char. destruct x as [|p]; [reflexivity|].
  do 4 (try (destruct p as [p|p|]); try reflexivity).
Qed.

Lemma pretty_go_digit x : forall s,
  (0 < x)%N \/ starts_with_digit s = true -> starts_with_digit (pretty_N_go x s) = true.
Proof.
  induction (N.lt_wf_0 x) as [x _ IH]. intros s Hs.
  destruct (N.eq_dec x 0) as [->|Hx].
  - rewrite pretty_N_go_0. destruct Hs as [Hs|Hs]; [lia|exact Hs].
  - rewrite pretty_N_go_step by lia. apply IH.
    + apply N.div_lt; lia.
    + right. cbn. apply pretty_char_digit.
Qed.

Lemma pretty_nat_digit (i : nat) : starts_with_digit (pretty i) = true.
Proof.
  unfold pretty, pretty_nat, pretty, pretty_N.
  destruct (decide (N.of_nat i = 0%N)); [reflexivity|].
  apply pretty_go_digit. left. lia.
Qed.

Lemma array_keys_digit items :
  Forall (fun k => starts_with_digit k = true) (Object_keys (JArr items)).
Proof.
  cbn [Object_keys]. apply Forall_forall. intros k Hk.
  apply elem_of_lookup_imap in Hk as (i & x & -> & _). apply pretty_nat_digit.
Qed.

Lemma lower_digit_id c : is_digit c = true -> lower_char c = c.
Proof. each_char c. Qed.

Lemma digit_word c : is_digit c = true -> is_word c = true.
Proof. each_char c. Qed.

Lemma digit_not_upper c : is_digit c = true -> is_upper c = false.
Proof. each_char c. Qed.

(** The column name of a key that starts with a digit starts with [col_]. *)
Lemma sanitizeColumnName_digit r k :
  starts_with_digit k = true ->
  exists t, sanitizeColumnName r (JStr k) = JStr ("col_" +:+ t).
Proof.
  destruct k as [|d rest]; [discriminate|]. cbn [starts_with_digit]. intros Hd.
  assert (exists t, column_core (String d rest) = String d t) as [t Ht].
  { unfold column_core, strip_edge_underscores. cbn [underscore_before_upper].
    rewrite (digit_not_upper d Hd). unfold toLowerCase. cbn [map_chars].
    rewrite (lower_digit_id d Hd). unfold replace_non_word. cbn [map_chars].
    rewrite (digit_word d Hd). rewrite collapse_cons, (digit_not_underscore d Hd).
    cbn [andb strip_leading_underscore]. rewrite (digit_not_underscore d Hd).
    rewrite strip_trailing_cons, (digit_not_underscore d Hd), andb_false_r. eauto. }
  unfold sanitizeColumnName. cbn [is_empty]. rewrite Ht. cbn [starts_with_digit].
  rewrite Hd. change (is_empty ("col_" +:+ String d t)) with false. cbn iota.
  destruct (column_prefix_plain (String d t)) as [H1 H2].
  rewrite H1. cbn [truthy]. rewrite H2. eauto.
Qed.

Lemma findKey_digit keys sanitizedKey n :
  Forall (fun k => starts_with_digit k = true) keys ->
  startsWith sanitizedKey "col_" = false ->
  fst (findKey random36 keys sanitizedKey n) = None.
Proof.
  intros Hkeys Hs. revert n. induction Hkeys as [|k keys Hk _ IH]; intros n; [reflexivity|].
  cbn [findKey]. destruct (sanitizeColumnName_digit (random36 n) k Hk) as [t ->].
  destruct (String.eqb_spec ("col_" +:+ t) sanitizedKey) as [<-|_]; [|apply IH].
  now rewrite startsWith_app in Hs.
Qed.

Lemma list_includes_digit keys k :
  Forall (fun k => starts_with_digit k = true) keys ->
  starts_with_digit k = false -> list_includes keys k = false.
Proof.
  intros Hkeys Hk. unfold list_includes. apply not_true_is_false.
  intros (k' & Hin & He)%existsb_exists. apply String.eqb_eq in He. subst k'.
  rewrite Forall_forall in Hkeys. apply list_elem_of_In in Hin.
  specialize (Hkeys k Hin). congruence.
Qed.

Lemma insertSimpleRow_array items schema env :
  columns schema = [("value", "TEXT")] ->
  exists env',
    insertSimpleRow rt JSON_stringify random36 randomUUID (JArr items) "array_data" schema env
      = (Ok tt, env') /\ only_draws env env'.
Proof.
  intros Hcols. pose proof (array_keys_digit items) as Hkeys.
  unfold insertSimpleRow, bind_I, mapObjectToSimpleSchema. cbn [scalar is_null typeof_object orb negb].
  rewrite Hcols. cbn [fmap list_fmap fst simpleColumns]. unfold bind_I at 1.
  unfold simpleColumn. change (endsWith "value" "_json") with false. cbn iota.
  unfold bind_I at 1. unfold bind_I at 1. unfold findOriginalKey.
  rewrite (list_includes_digit _ "value" Hkeys eq_refl).
  pose proof (findKey_digit (Object_keys (JArr items)) "value" (draws env) Hkeys eq_refl) as Hnone.
  destruct (findKey random36 (Object_keys (JArr items)) "value" (draws env)) as [found n1].
  cbn [fst] in Hnone. subst found. cbn [truthy andb]. unfold unit_I at 1.
  unfold directMatch. rewrite (list_includes_digit _ "hasOwnProperty" Hkeys eq_refl).
  unfold hasOwnProperty. rewrite (list_includes_digit _ "value" Hkeys eq_refl).
  change (String.eqb "value" "length") with false. cbn [Array_isArray andb orb].
  unfold unit_I. cbn.
  eexists. split; [reflexivity|]. repeat split.
Qed.

Lemma insertSimpleRows_arrays items schema env :
  columns schema = [("value", "TEXT")] ->
  Forall (fun v => Array_isArray v = true) items ->
  exists env',
    insertSimpleRows rt JSON_stringify random36 randomUUID items "array_data" schema env
      = (Ok tt, env') /\ only_draws env env'.
Proof.
  intros Hcols Hitems. revert env.
  induction Hitems as [|v items Hv _ IH]; intros env; cbn [insertSimpleRows].
  - exists env. split; [reflexivity|]. repeat split.
  - destruct v; try discriminate.
    destruct (insertSimpleRow_array items0 schema env Hcols) as (env1 & H1 & Hd1).
    unfold bind_I. rewrite H1. destruct (IH env1) as (env2 & H2 & Hd2).
    exists env2. split; [exact H2|].
    destruct Hd1 as (A1 & B1 & C1), Hd2 as (A2 & B2 & C2). repeat split; congruence.
Qed.

Lemma extractSimpleFields_array items columnTypes n :
  extractSimpleFields JSON_stringify random36 (JArr items) columnTypes n =
  ([("array_data_json", json_text JSON_stringify (JArr items))],
   addColumnType columnTypes "array_data_json" "TEXT", n).
Proof. reflexivity. Qed.

Lemma simpleItems_arrays keep items columnTypes sampleData n sampleData' columnTypes' n' :
  Forall (fun v => Array_isArray v = true) items ->
  (columnTypes = [] /\ items <> []) \/ columnTypes = [("array_data_json", ["TEXT"])] ->
  simpleItems JSON_stringify random36 keep items columnTypes sampleData n
    = (sampleData', columnTypes', n') ->
  columnTypes' = [("array_data_json", ["TEXT"])] /\ n' = n.
Proof.
  intros Hitems. revert columnTypes sampleData.
  induction Hitems as [|v items Hv _ IH]; intros columnTypes sampleData Hc; cbn [simpleItems].
  - destruct Hc as [[_ Hne]| ->]; [now contradiction Hne|]. now intros [= _ <- <-].
  - destruct v; try discriminate. rewrite extractSimpleFields_array.
    apply IH. right. destruct Hc as [[-> _]| ->]; reflexivity.
Qed.

(** X13: an array whose items are arrays gets the fallback table with the
    single column [value] of type TEXT, and no row: for none of its items
    a statement is issued. *)
Theorem nested_arrays_get_no_rows entityPhases items n env :
  items <> [] ->
  Forall (fun v => Array_isArray v = true) items ->
  columns (fst (createSchemaFromPrimitiveOrSimpleArray JSON_stringify random36
                  (JArr items) n)) = [("value", "TEXT")] /\
  exists env',
    insertData rt JSON_stringify random36 randomUUID entityPhases (JArr items)
      [("array_data",
        fst (createSchemaFromPrimitiveOrSimpleArray JSON_stringify random36 (JArr items) n))]
      env = (Ok tt, env') /\
    only_draws env env'.
Proof.
  intros Hne Hitems.
  assert (columns (fst (createSchemaFromPrimitiveOrSimpleArray JSON_stringify random36
                          (JArr items) n)) = [("value", "TEXT")]) as Hcols.
  { unfold createSchemaFromPrimitiveOrSimpleArray.
    destruct (simpleItems JSON_stringify random36 true (take 3 items) [] [] n)
      as [[sd1 ct1] n1] eqn:H1.
    apply simpleItems_arrays in H1 as [-> ->];
      [|now apply Forall_take|left; split; [reflexivity|now destruct items]].
    destruct (Nat.ltb 3 (length items)); [|reflexivity].
    destruct (simpleItems JSON_stringify random36 false (drop 3 items)
                [("array_data_json", ["TEXT"])] sd1 n) as [[sd2 ct2] n2] eqn:H2.
    apply simpleItems_arrays in H2 as [-> ->]; [reflexivity|now apply Forall_drop|now right]. }
  split; [exact Hcols|].
  cbn [insertData].
  change (String.eqb "array_data" "scalar_data") with false.
  change (String.eqb "array_data" "array_data") with true.
  change (String.eqb "array_data" "root_object") with false. cbn [orb].
  now apply insertSimpleRows_arrays.
Qed.

(** *** Rows of flat entities *)

Lemma includes_underscore s : includes s "_" = negb (plain s).
Proof.
  unfold plain. induction s as [|c s IH]; [reflexivity|].
  change (includes (String c s) "_")
    with ((Ascii.eqb "_" c && startsWith s EmptyString) || includes s "_")%bool.
  replace (startsWith s EmptyString) with true by now destruct s.
  cbn [all_chars]. rewrite IH, andb_true_r.
  rewrite Ascii.eqb_sym, underscore_char. now destruct (is_underscore c).
Qed.

Lemma substring_all_chars p i n s :
  all_chars p s = true -> all_chars p (String.substring i n s) = true.
Proof.
  revert i n. induction s as [|c s IH]; intros i n H; [now destruct i, n|].
  cbn in H. apply andb_true_iff in H as [Hc Hs].
  destruct i, n; cbn; try reflexivity; try rewrite Hc; now apply IH.
Qed.

Lemma plain_no_suffix s suffix :
  plain s = true -> plain suffix = false -> endsWith s suffix = false.
Proof.
  intros Hs Hsuffix. unfold endsWith. apply not_true_is_false.
  intros [_ He]%andb_true_iff. apply String.eqb_eq in He.
  unfold plain in *. rewrite <- He, substring_all_chars in Hsuffix by exact Hs. discriminate.
Qed.

Lemma only_draws_refl env : only_draws env env.
Proof. repeat split. Qed.

Lemma only_draws_trans a b c : only_draws a b -> only_draws b c -> only_draws a c.
Proof. intros (A1 & B1 & C1) (A2 & B2 & C2). repeat split; congruence. Qed.

Lemma findOriginalKey_outcome obj sanitizedKey env :
  exists key env',
    findOriginalKey random36 obj sanitizedKey env = (Ok key, env') /\ only_draws env env'.
Proof.
  unfold findOriginalKey. destruct (list_includes _ _).
  - eexists _, _. split; [reflexivity|apply only_draws_refl].
  - destruct (findKey _ _ _ _) as [found n]. eexists _, _. split; [reflexivity|].
    repeat split.
Qed.

Lemma findOriginalKey_direct obj sanitizedKey env :
  list_includes (Object_keys obj) sanitizedKey = true ->
  findOriginalKey random36 obj sanitizedKey env = (Ok (JStr sanitizedKey), env).
Proof. intros H. unfold findOriginalKey. now rewrite H. Qed.

Lemma flat_get fields k : flat fields -> scalar (own_get (JObj fields) k) = true.
Proof.
  unfold flat, own_get. cbn [entries]. induction 1 as [|[k0 v0] rest H0 _ IH]; [reflexivity|].
  cbn [assoc]. destruct (String.eqb k k0); [exact H0|exact IH].
Qed.

Lemma scalar_no_object v : scalar v = true -> (truthy v && typeof_object v)%bool = false.
Proof.
  destruct v; cbn; intros H; try reflexivity; try discriminate H; apply andb_false_r.
Qed.

Lemma scalar_as_number v :
  scalar v = true -> boolean_as_number v =
                     match v with JArr _ => JNull | _ => boolean_as_number v end.
Proof. destruct v; try reflexivity. discriminate. Qed.

(** The value computed for one column of a flat entity. *)
Lemma entityColumnValue_flat fields columnName env :
  flat fields ->
  exists value env',
    entityColumnValue rt JSON_stringify random36 randomUUID (JObj fields) columnName env
      = (Ok value, env') /\
    only_draws env env' /\
    (plain columnName = false -> value = JNull) /\
    (forall v, assoc columnName fields = Some v ->
               plain columnName = true -> is_empty columnName = false ->
               value = if is_undefined v then JNull else boolean_as_number v).
Proof.
  intros Hflat. unfold entityColumnValue.
  assert (forall key, (truthy key && truthy (own_get (JObj fields) (string_of key)) &&
                       typeof_object (own_get (JObj fields) (string_of key)))%bool = false)
    as Hnone.
  { intros key. rewrite <- andb_assoc, (scalar_no_object _ (flat_get fields _ Hflat)).
    apply andb_false_r. }
  rewrite includes_underscore.
  destruct (plain columnName) eqn:Hplain.
  - rewrite (plain_no_suffix columnName "_id" Hplain eq_refl).
    rewrite (plain_no_suffix columnName "_json" Hplain eq_refl). cbn [negb andb].
    destruct (list_includes (Object_keys (JObj fields)) columnName) eqn:Hin.
    + unfold bind_I. rewrite (findOriginalKey_direct _ _ env Hin).
      cbn [string_of truthy]. unfold own_get. cbn [entries].
      destruct (assoc columnName fields) as [v|] eqn:Hv.
      * cbn [default].
        assert (scalar v = true) as Hs.
        { pose proof (flat_get fields columnName Hflat) as H. unfold own_get in H.
          cbn [entries] in H. now rewrite Hv in H. }
        clear Hin Hv Hplain.
        destruct columnName as [|c0 cs]; destruct v as [| |b| | | | |]; try discriminate Hs;
          try destruct b;
          (eexists _, env; split; [reflexivity|]; split; [apply only_draws_refl|];
           split; [discriminate|]; intros v' [= <-] _ He; try discriminate He; reflexivity).
      * exfalso. clear -Hin Hv. cbn [Object_keys] in Hin. unfold list_includes in Hin.
        apply existsb_exists in Hin as (k & Hk & He). apply String.eqb_eq in He. subst k.
        induction fields as [|[k0 v0] rest IH]; [destruct Hk|].
        cbn in Hv. destruct (String.eqb_spec columnName k0) as [->|Hne]; [discriminate|].
        destruct Hk as [Hk|Hk]; [cbn in Hk; congruence|auto].
    + destruct (findOriginalKey_outcome (JObj fields) columnName env) as (key & env' & Hk & Hd).
      unfold bind_I. rewrite Hk.
      assert (assoc columnName fields = None) as Hv.
      { clear -Hin. cbn [Object_keys] in Hin. unfold list_includes in Hin.
        induction fields as [|[k0 v0] rest IH]; [reflexivity|].
        cbn in Hin |- *. apply orb_false_iff in Hin as [H1 H2]. rewrite H1. auto. }
      pose proof (flat_get fields (string_of key) Hflat) as Hs.
      destruct (truthy key && negb (is_undefined (own_get (JObj fields) (string_of key))))%bool;
        [|eexists _, env'; split; [reflexivity|]; split; [exact Hd|];
          split; [discriminate|]; intros v Hv'; congruence].
      destruct (own_get (JObj fields) (string_of key)); try discriminate Hs;
        (eexists _, env'; split; [reflexivity|]; split; [exact Hd|];
         split; [discriminate|]; intros v Hv'; congruence).
  - cbn [negb andb].
    destruct (endsWith columnName "_id" && negb (includes columnName "_json"))%bool.
    { destruct (findOriginalKey_outcome (JObj fields) (drop_last 3 columnName) env)
        as (key & env' & Hk & Hd).
      unfold bind_I. rewrite Hk, Hnone. exists JNull, env'. repeat split; try apply Hd.
      discriminate. }
    destruct (endsWith columnName "_json") eqn:Hjson; cbn [negb].
    { destruct (findOriginalKey_outcome (JObj fields) (drop_last 5 columnName) env)
        as (key & env' & Hk & Hd).
      unfold bind_I. rewrite Hk, Hnone. exists JNull, env'. repeat split; try apply Hd.
      discriminate. }
    destruct (Nat.leb 2 (length (split_on "_" columnName)));
      [|exists JNull, env; repeat split; discriminate].
    destruct (findOriginalKey_outcome (JObj fields)
                (default EmptyString (head (split_on "_" columnName))) env)
      as (key & env' & Hk & Hd).
    unfold bind_I. rewrite Hk, Hnone. exists JNull, env'. repeat split; try apply Hd.
    discriminate.
Qed.

Lemma entityColumns_flat fields schema names : forall rowData env,
  flat fields ->
  exists row env',
    entityColumns rt JSON_stringify random36 randomUUID (JObj fields) schema names rowData env
      = (Ok row, env') /\
    only_draws env env' /\
    (forall c, plain c = false -> record_get rowData c = None -> record_get row c = None) /\
    (forall c v,
        plain c = true -> is_empty c = false ->
        assoc c fields = Some v -> is_null v = false -> is_undefined v = false ->
        (String.eqb c "id" &&
         includes (default EmptyString (record_get (columns schema) c)) "AUTOINCREMENT")%bool
          = false ->
        In c names \/ record_get rowData c = Some (boolean_as_number v) ->
        record_get row c = Some (boolean_as_number v)).
Proof.
  induction names as [|columnName rest IH]; intros rowData env Hflat.
  - exists rowData, env. split; [reflexivity|]. split; [apply only_draws_refl|].
    split; [auto|]. intros c v _ _ _ _ _ _ [[]|H]. exact H.
  - cbn [entityColumns].
    destruct (String.eqb columnName "id" && _)%bool eqn:Hskip.
    + destruct (IH rowData env Hflat) as (row & env' & Hrun & Hd & Hno & Hyes).
      exists row, env'. split; [exact Hrun|]. split; [exact Hd|]. split; [exact Hno|].
      intros c v H1 H2 H3 H4 H5 H6 [[<-|Hin]|Hrow]; [congruence| |]; eapply Hyes; eauto.
    + destruct (entityColumnValue_flat fields columnName env Hflat)
        as (value & env1 & Hvalue & Hd1 & Hunder & Hdirect).
      unfold bind_I at 1. rewrite Hvalue.
      destruct (IH (if (is_null value || is_undefined value)%bool then rowData
                    else record_set rowData columnName value) env1 Hflat)
        as (row & env' & Hrun & Hd & Hno & Hyes).
      exists row, env'. split; [exact Hrun|].
      split; [exact (only_draws_trans _ _ _ Hd1 Hd)|]. split.
      * intros c Hc Hrow. apply Hno; [exact Hc|].
        destruct (is_null value || is_undefined value)%bool eqn:Hnull; [exact Hrow|].
        rewrite record_set_get. destruct (String.eqb_spec c columnName) as [->|_];
          [|exact Hrow].
        rewrite (Hunder Hc) in Hnull. discriminate.
      * intros c v H1 H2 H3 H4 H5 H6 Hin.
        apply (Hyes c v H1 H2 H3 H4 H5 H6).
        destruct (String.eqb_spec c columnName) as [->|Hne].
        -- right. rewrite (Hdirect v H3 H1 H2), H5.
           replace (is_null (boolean_as_number v) || is_undefined (boolean_as_number v))%bool
             with false by (destruct v as [| |[]| | | | |]; try reflexivity; discriminate).
           rewrite record_set_get, String.eqb_refl. reflexivity.
        -- destruct Hin as [[Heq|Hin]|Hrow]; [congruence|now left|right].
           destruct (is_null value || is_undefined value)%bool; [exact Hrow|].
           rewrite record_set_get. destruct (String.eqb_spec c columnName); [congruence|].
           exact Hrow.
Qed.

(** X14: the row that [mapEntityToSchema] builds for an entity whose
    fields are all scalars.  Whatever the schema, the function returns a
    row and touches neither the chunk store nor the data tables; no column
    whose name contains an underscore is filled, so the columns that stand
    for camel-case fields ([approved_symbol], [ensembl_id]) stay empty; a
    column without underscore that is a key of the entity with a value
    other than [null] and [undefined] holds that value, booleans as 1 and
    0 (the [id] column of a schema with [AUTOINCREMENT] apart). *)
Theorem flat_entity_row fields schema env :
  flat fields ->
  exists row env',
    mapEntityToSchema rt JSON_stringify random36 randomUUID (JObj fields) schema env
      = (Ok row, env') /\
    only_draws env env' /\
    (forall c, plain c = false -> record_get row c = None) /\
    (forall c v,
        In c (fst <$> columns schema) ->
        plain c = true -> is_empty c = false ->
        (String.eqb c "id" &&
         includes (default EmptyString (record_get (columns schema) c)) "AUTOINCREMENT")%bool
          = false ->
        assoc c fields = Some v -> is_null v = false -> is_undefined v = false ->
        record_get row c = Some (boolean_as_number v)).
Proof.
  intros Hflat. unfold mapEntityToSchema. cbn [truthy typeof_object negb orb].
  destruct (entityColumns_flat fields schema (fst <$> columns schema) [] env Hflat)
    as (row & env' & Hrun & Hd & Hno & Hyes).
  exists row, env'. split; [exact Hrun|]. split; [exact Hd|]. split.
  - intros c Hc. now apply Hno.
  - intros c v Hin H1 H2 H6 H3 H4 H5. eapply Hyes; eauto.
Qed.

(** *** The row of a flat root object *)

Lemma record_set_fresh {X : Type} (r : list (string * X)) k x :
  record_get r k = None -> record_set r k x = (r ++ [(k, x)])%list.
Proof.
  induction r as [|[k0 x0] r IH]; cbn; [reflexivity|].
  destruct (String.eqb k k0); [discriminate|]. intros H. now rewrite IH.
Qed.

Lemma record_get_app_fresh {X : Type} (r : list (string * X)) k x k' :
  k' <> k -> record_get r k' = None -> record_get (r ++ [(k, x)])%list k' = None.
Proof.
  intros Hne. induction r as [|[k0 x0] r IH]; cbn.
  - destruct (String.eqb_spec k' k); [congruence|reflexivity].
  - destruct (String.eqb k' k0); [discriminate|exact IH].
Qed.

Lemma addColumnType_fresh columnTypes column type :
  record_get columnTypes column = None ->
  addColumnType columnTypes column type = (columnTypes ++ [(column, [type])])%list.
Proof. intros H. unfold addColumnType. rewrite H. now apply record_set_fresh. Qed.

Lemma simpleFieldsLoop_flat fields names :
  normalises fields names -> flat fields -> NoDup names ->
  forall columnTypes rowData n,
    (forall c, In c names -> record_get columnTypes c = None /\ record_get rowData c = None) ->
    simpleFieldsLoop JSON_stringify random36 fields columnTypes rowData n =
      ((rowData ++ zip names ((fun e => boolean_as_number (snd e)) <$> fields))%list,
       (columnTypes ++ zip names ((fun e => [getSQLiteType (snd e)]) <$> fields))%list,
       (n + length fields)%nat).
Proof.
  unfold normalises, flat.
  induction 1 as [|[k v] c fields names [Hk Hc] Hrest IH]; intros Hflat Hnodup columnTypes rowData n Hfresh.
  - cbn. now rewrite !app_nil_r, Nat.add_0_r.
  - apply Forall_cons in Hflat as [Hv Hflat]. apply NoDup_cons in Hnodup as [Hnotin Hnodup].
    cbn [simpleFieldsLoop]. unfold columnOf. cbn [fst snd] in *. rewrite Hc, Hv.
    cbn [key_text]. destruct (Hfresh c (or_introl eq_refl)) as [Hct Hrow].
    rewrite (addColumnType_fresh _ _ _ Hct), (record_set_fresh _ _ _ Hrow).
    rewrite (IH Hflat Hnodup).
    + cbn [fmap list_fmap zip zip_with length]. rewrite <- !app_assoc.
      cbn [app snd]. replace (S n + length fields)%nat with (n + S (length fields))%nat by lia.
      reflexivity.
    + intros c' Hin. destruct (Hfresh c' (or_intror Hin)) as [H1 H2].
      assert (c' <> c) as Hne by (intros ->; apply Hnotin; now apply list_elem_of_In).
      split; now apply record_get_app_fresh.
Qed.

Lemma normalises_key fields names k v :
  normalises fields names -> In (k, v) fields ->
  exists c, In c names /\ Shape.has_alnum k = true /\
            forall r, sanitizeColumnName r (JStr k) = JStr c.
Proof.
  unfold normalises. induction 1 as [|e c fields names [Hk Hc] _ IH]; intros Hin; [destruct Hin|].
  destruct Hin as [->|Hin].
  - exists c. split; [now left|]. split; assumption.
  - destruct (IH Hin) as (c' & H1 & H2 & H3). exists c'. split; [now right|]. split; assumption.
Qed.

Lemma assoc_app_fresh f1 k v f2 :
  (forall v', ~ In (k, v') f1) -> assoc k (f1 ++ (k, v) :: f2) = Some v.
Proof.
  induction f1 as [|[k0 v0] f1 IH]; intros Hfresh; cbn.
  - now rewrite String.eqb_refl.
  - destruct (String.eqb_spec k k0) as [->|Hne].
    + exfalso. apply (Hfresh v0). now left.
    + apply IH. intros v' Hin. apply (Hfresh v'). now right.
Qed.

Lemma findKey_app pre k post c : forall n,
  (forall k', In k' pre -> forall r, exists c', sanitizeColumnName r (JStr k') = JStr c' /\ c' <> c) ->
  (forall r, sanitizeColumnName r (JStr k) = JStr c) ->
  findKey random36 (pre ++ k :: post) c n = (Some k, S (n + length pre)).
Proof.
  induction pre as [|k0 pre IH]; intros n Hpre Hk; cbn [app findKey length].
  - rewrite Hk, String.eqb_refl. now rewrite Nat.add_0_r.
  - destruct (Hpre k0 (or_introl eq_refl) (random36 n)) as (c' & Hc' & Hne).
    rewrite Hc'. destruct (String.eqb_spec c' c); [contradiction|].
    rewrite IH; [f_equal; lia| |exact Hk].
    intros k' Hin. apply Hpre. now right.
Qed.

Lemma simpleValue_scalar v env :
  scalar v = true ->
  simpleValue rt JSON_stringify randomUUID v env = (Ok (boolean_as_number v), env).
Proof. destruct v as [| |[]| | | | |]; try discriminate; reflexivity. Qed.

(** The column made of one entry of a flat object is filled with the
    value of that entry. *)
Lemma simpleColumn_found f1 k v f2 n1 c n2 rowData env :
  normalises f1 n1 -> normalises f2 n2 ->
  Shape.has_alnum k = true -> (forall r, sanitizeColumnName r (JStr k) = JStr c) ->
  NoDup (n1 ++ c :: n2) ->
  scalar v = true -> is_undefined v = false -> endsWith c "_json" = false ->
  exists env',
    simpleColumn rt JSON_stringify random36 randomUUID
                 (JObj (f1 ++ (k, v) :: f2)) c rowData env =
      (Ok (record_set rowData c (boolean_as_number v)), env') /\
    only_draws env env'.
Proof.
  intros Hf1 Hf2 Hk Hc Hnodup Hv Hdef Hjson.
  apply NoDup_app in Hnodup as (_ & Hn1 & [Hn2 _]%NoDup_cons).
  assert (forall r, sanitizeColumnName r (JStr c) = JStr c) as Hfix.
  { intros r. apply stable_column_fixed.
    exact (sanitizeColumnName_stable r k c Hk (Hc r)). }
  assert (forall k' v', In (k', v') f1 ->
            forall r, exists c', sanitizeColumnName r (JStr k') = JStr c' /\ c' <> c) as Hpre.
  { intros k' v' Hin r. destruct (normalises_key f1 n1 k' v' Hf1 Hin) as (c' & Hc' & _ & Hs).
    exists c'. split; [apply Hs|]. intros ->.
    apply (Hn1 c); [now apply list_elem_of_In|]. now left. }
  assert (forall k' v', In (k', v') f2 ->
            forall r, exists c', sanitizeColumnName r (JStr k') = JStr c' /\ c' <> c) as Hpost.
  { intros k' v' Hin r. destruct (normalises_key f2 n2 k' v' Hf2 Hin) as (c' & Hc' & _ & Hs).
    exists c'. split; [apply Hs|]. intros ->. apply Hn2. now apply list_elem_of_In. }
  assert (forall v', ~ In (k, v') f1) as Hkfresh.
  { intros v' Hin. destruct (Hpre k v' Hin EmptyString) as (c' & Hc' & Hne).
    rewrite Hc in Hc'. congruence. }
  assert (own_get (JObj (f1 ++ (k, v) :: f2)) k = v) as Hget.
  { unfold own_get. cbn [entries]. now rewrite assoc_app_fresh. }
  assert (is_empty k = false) as Hkne by now apply has_alnum_nonempty.
  assert (exists env',
             findOriginalKey random36 (JObj (f1 ++ (k, v) :: f2)) c env = (Ok (JStr k), env') /\
             only_draws env env') as (env' & Hfind & Hd).
  { unfold findOriginalKey.
    destruct (list_includes (Object_keys (JObj (f1 ++ (k, v) :: f2))) c) eqn:Hin.
    - exists env. split; [|apply only_draws_refl]. f_equal. f_equal. f_equal.
      unfold list_includes in Hin. apply existsb_exists in Hin as (k' & Hin' & He).
      apply String.eqb_eq in He. subst k'. cbn [Object_keys] in Hin'.
      apply in_map_iff in Hin' as ([k' v'] & He & Hin''). cbn in He. subst k'.
      apply in_app_or in Hin'' as [Hw|[Hw|Hw]].
      + destruct (Hpre c v' Hw EmptyString) as (c' & Hc' & Hne). rewrite Hfix in Hc'. congruence.
      + congruence.
      + destruct (Hpost c v' Hw EmptyString) as (c' & Hc' & Hne). rewrite Hfix in Hc'. congruence.
    - cbn [Object_keys]. rewrite fmap_app, fmap_cons. cbn [fst].
      rewrite findKey_app; [| |exact Hc].
      + rewrite Hkne. eexists. split; [reflexivity|]. repeat split.
      + intros k' Hw. apply in_map_iff in Hw as ([k0 v0] & He & Hw'). cbn in He. subst k0.
        exact (Hpre k' v0 Hw'). }
  exists env'. split; [|exact Hd].
  unfold simpleColumn. rewrite Hjson. unfold bind_I at 1. unfold bind_I at 1.
  rewrite Hfind. cbn [string_of truthy]. rewrite Hget, Hdef.
  replace (negb (k =? EmptyString)%string) with true
    by (destruct k; [discriminate|reflexivity]).
  cbn [negb andb]. unfold bind_I at 1. rewrite (simpleValue_scalar v env' Hv).
  unfold unit_I at 1.
  replace (is_undefined (boolean_as_number v)) with false
    by (destruct v as [| |[]| | | | |]; try reflexivity; discriminate).
  reflexivity.
Qed.

Lemma simpleColumns_flat f2 n2 :
  normalises f2 n2 ->
  forall f1 n1 rowData env,
    normalises f1 n1 -> NoDup (n1 ++ n2) -> flat f2 ->
    Forall (fun e => is_undefined (snd e) = false) f2 ->
    Forall (fun c => endsWith c "_json" = false) n2 ->
    (forall c, In c n2 -> record_get rowData c = None) ->
    exists env',
      simpleColumns rt JSON_stringify random36 randomUUID (JObj (f1 ++ f2)) n2 rowData env =
        (Ok (rowData ++ zip n2 ((fun e => boolean_as_number (snd e)) <$> f2))%list, env') /\
      only_draws env env'.
Proof.
  induction 1 as [|[k v] c f2 n2 [Hk Hc] Hrest IH];
    intros f1 n1 rowData env Hf1 Hnodup Hflat Hdef Hjson Hfresh.
  - exists env. cbn. rewrite app_nil_r. split; [reflexivity|apply only_draws_refl].
  - apply Forall_cons in Hflat as [Hv Hflat]. apply Forall_cons in Hdef as [Hvd Hdef].
    apply Forall_cons in Hjson as [Hcj Hjson]. cbn [fst snd] in *.
    destruct (simpleColumn_found f1 k v f2 n1 c n2 rowData env Hf1 Hrest Hk Hc Hnodup Hv Hvd Hcj)
      as (env1 & Hcol & Hd1).
    cbn [simpleColumns]. unfold bind_I at 1. rewrite Hcol.
    rewrite (record_set_fresh _ _ _ (Hfresh c (or_introl eq_refl))).
    assert (NoDup ((n1 ++ [c]) ++ n2)) as Hnodup' by now rewrite <- app_assoc.
    assert (normalises (f1 ++ [(k, v)]) (n1 ++ [c])) as Hf1'.
    { apply Forall2_app; [exact Hf1|]. constructor; [split; assumption|constructor]. }
    destruct (IH (f1 ++ [(k, v)])%list (n1 ++ [c])%list (rowData ++ [(c, boolean_as_number v)])%list
                env1 Hf1' Hnodup' Hflat Hdef Hjson) as (env' & Hrun & Hd).
    { intros c' Hin. apply record_get_app_fresh; [|apply Hfresh; now right].
      intros ->. apply NoDup_app in Hnodup as (_ & _ & [Hnot _]%NoDup_cons).
      apply Hnot. now apply list_elem_of_In. }
    rewrite <- app_assoc in Hrun. cbn [app] in Hrun.
    exists env'. split; [|exact (only_draws_trans _ _ _ Hd1 Hd)].
    rewrite Hrun. cbn [fmap list_fmap zip zip_with]. rewrite <- app_assoc. reflexivity.
Qed.

(** X15: a root object whose fields are all scalars, under the fallback
    schema [root_object] that the inference stage builds for it: when the
    keys normalise to distinct column names, none of which ends in
    [_json], the insertion stage issues exactly one statement, and the row
    it inserts is the sample row of the schema, the columns in the order
    of the keys and booleans as 1 and 0; the chunk store is not touched. *)
Theorem root_object_round_trip entityPhases fields names n env :
  fields <> [] -> flat fields -> normalises fields names -> NoDup names ->
  Forall (fun e => is_undefined (snd e) = false) fields ->
  Forall (fun c => endsWith c "_json" = false) names ->
  let schema := fst (createSchemaFromObject JSON_stringify random36 (JObj fields) n) in
  let row := zip names ((fun e => boolean_as_number (snd e)) <$> fields) in
  sample_data schema = [JObj row] /\
  exists env',
    insertData rt JSON_stringify random36 randomUUID entityPhases (JObj fields)
               [("root_object", schema)] env = (Ok tt, env') /\
    chunk_store env' = chunk_store env /\ ids env' = ids env /\
    issued env' = (issued env ++ [mkSqlCall (insertSQL "root_object" row) (snd <$> row)])%list.
Proof.
  intros Hne Hflat Hnorm Hnodup Hdef Hjson schema row.
  assert (length names = length fields) as Hlen.
  { symmetry. exact (Forall2_length _ _ _ Hnorm). }
  assert (createSchemaFromObject JSON_stringify random36 (JObj fields) n =
          (mkTableSchema (zip names ((fun e => getSQLiteType (snd e)) <$> fields)) [JObj row],
           (n + length fields)%nat)) as Hschema.
  { unfold createSchemaFromObject, extractSimpleFields.
    cbn [scalar is_null typeof_object orb negb Array_isArray entries].
    rewrite (simpleFieldsLoop_flat fields names Hnorm Hflat Hnodup [] [] n)
      by (intros c _; split; reflexivity).
    cbn [app]. f_equal. f_equal. unfold resolveColumnTypes.
    clear -Hlen. revert names Hlen.
    induction fields as [|e fields IH]; intros [|c names] Hlen; try discriminate; [reflexivity|].
    cbn. f_equal. apply IH. cbn in Hlen. lia. }
  subst schema. rewrite Hschema. cbn [fst sample_data]. split; [reflexivity|].
  cbn [insertData String.eqb Ascii.eqb Bool.eqb orb]. 
  unfold insertSimpleRow, mapObjectToSimpleSchema.
  cbn [scalar is_null typeof_object orb negb columns].
  replace (fst <$> zip names ((fun e => getSQLiteType (snd e)) <$> fields)) with names.
  2:{ clear -Hlen. revert fields Hlen.
      induction names as [|c names IH]; intros [| e fields] Hlen; try discriminate; [reflexivity|].
      cbn. f_equal. apply IH. cbn in Hlen. lia. }
  destruct (simpleColumns_flat fields names Hnorm [] [] [] env) as (env1 & Hrun & Hd);
    [constructor|exact Hnodup|exact Hflat|exact Hdef|exact Hjson|reflexivity|].
  cbn [app] in Hrun. unfold bind_I. rewrite Hrun. fold row.
  assert (Nat.eqb (length row) 0 = false) as Hrow.
  { subst row. destruct fields as [|e fields]; [contradiction|].
    destruct names as [|c names]; [discriminate|]. reflexivity. }
  rewrite Hrow. cbn [andb]. unfold exec. eexists. split; [reflexivity|].
  destruct Hd as (H1 & H2 & H3). cbn [chunk_store ids issued]. rewrite H3. auto.
Qed.

End RowMappingProperties.

(** ** Names at creation and at insertion *)

Section CreatedNames.
Import Js JsString Identifier SchemaInferenceEngine Junction CreateTables RowMapping Shape.


End CreatedNames.

Section RowMappingExamples.
Import Js JsString Identifier SchemaInferenceEngine Junction DataInsertionEngine.
Import ChunkingEngine Payload FieldExtraction RowMapping Samples.

Lemma scalar_array_rows_witness :
  insertData Examples.no_streams literal_stringify one_suffix one_uuid no_phases
    (JArr [JStr "ENSG00000169083"; JBool true])
    [("array_data",
      fst (createSchemaFromPrimitiveOrSimpleArray literal_stringify one_suffix
             (JArr [JStr "ENSG00000169083"; JBool true]) 0))]
    start =
  (Ok tt,
   mkEnv Examples.empty_store 0 0
         [mkSqlCall "INSERT INTO array_data (value) VALUES (?)" [JStr "ENSG00000169083"];
          mkSqlCall "INSERT INTO array_data (value) VALUES (?)" [JBool true]]).
Proof.
  apply (scalar_array_rows Examples.no_streams literal_stringify one_suffix one_uuid no_phases
           [JStr "ENSG00000169083"; JBool true] 0 start).
  repeat constructor.
Defined.

Lemma nested_arrays_get_no_rows_witness :
  exists env',
    insertData Examples.no_streams literal_stringify one_suffix one_uuid no_phases
      (JArr [JArr [JBool true]; JArr []])
      [("array_data",
        fst (createSchemaFromPrimitiveOrSimpleArray literal_stringify one_suffix
               (JArr [JArr [JBool true]; JArr []]) 0))]
      start = (Ok tt, env') /\
    issued env' = [].
Proof.
  destruct (nested_arrays_get_no_rows Examples.no_streams literal_stringify one_suffix one_uuid
              no_phases [JArr [JBool true]; JArr []] 0 start)
    as (_ & env' & Hrun & _ & _ & Hissued).
  - discriminate.
  - repeat constructor.
  - exists env'. split; [exact Hrun|exact Hissued].
Defined.

Lemma flat_entity_row_witness :
  exists row env',
    mapEntityToSchema Examples.no_streams literal_stringify one_suffix one_uuid
                      (JObj target_fields) target_table start = (Ok row, env') /\
    record_get row "approved_symbol" = None /\
    record_get row "is_active" = None /\
    record_get row "id" = Some (JStr "ENSG00000169083").
Proof.
  destruct (flat_entity_row Examples.no_streams literal_stringify one_suffix one_uuid
              target_fields target_table start)
    as (row & env' & Hrun & _ & Hunder & Hplain).
  - repeat constructor.
  - exists row, env'. split; [exact Hrun|].
    split; [apply Hunder; reflexivity|]. split; [apply Hunder; reflexivity|].
    apply (Hplain "id" (JStr "ENSG00000169083")); try reflexivity. left. reflexivity.
Defined.

Lemma normalises_target : normalises target_fields target_columns.
Proof. repeat constructor; intros r; reflexivity. Defined.

Lemma root_object_round_trip_witness :
  let row := [("id", JStr "ENSG00000169083"); ("approved_symbol", JStr "AR");
              ("is_active", JNum (NFin 1))] in
  sample_data (fst (createSchemaFromObject literal_stringify one_suffix
                      (JObj target_fields) 0)) = [JObj row] /\
  exists env',
    insertData Examples.no_streams literal_stringify one_suffix one_uuid no_phases
               (JObj target_fields)
               [("root_object",
                 fst (createSchemaFromObject literal_stringify one_suffix
                        (JObj target_fields) 0))]
               start = (Ok tt, env') /\
    issued env' =
      [mkSqlCall "INSERT INTO root_object (id, approved_symbol, is_active) VALUES (?, ?, ?)"
                 (snd <$> row)].
Proof.
  intros row.
  destruct (root_object_round_trip Examples.no_streams literal_stringify one_suffix one_uuid
              no_phases target_fields target_columns 0 start)
    as (Hsample & env' & Hrun & _ & _ & Hissued).
  - discriminate.
  - repeat constructor.
  - exact normalises_target.
  - apply (bool_decide_unpack _). reflexivity.
  - repeat constructor.
  - repeat constructor.
  - split; [exact Hsample|]. exists env'. split; [exact Hrun|exact Hissued].
Defined.

End RowMappingExamples.

Section CreatedNamesExamples.
Import Js JsString Identifier Junction CreateTables RowMapping Shape.


End CreatedNamesExamples.


(** ** Entity discovery *)

Section DiscoveryProperties.
Import Js JsString Identifier SchemaInferenceEngine Junction Payload FieldExtraction.
Import Discovery SchemaParser.
Variable random36 : nat -> string.
Variable JSON_stringify : JsValue -> option string.

(** Induction on payload values, with the hypothesis for every item of an
    array and every field of an object. *)
Lemma JsValue_nested_ind (P : JsValue -> Prop) :
  P JNull -> P JUndefined -> (forall b, P (JBool b)) -> (forall n, P (JNum n)) ->
  (forall s, P (JStr s)) ->
  (forall items, Forall P items -> P (JArr items)) ->
  (forall fields, Forall (fun field => P (snd field)) fields -> P (JObj fields)) ->
  (forall name, P (JFun name)) ->
  forall v, P v.
Proof.
  intros Hnull Hundef Hbool Hnum Hstr Harr Hobj Hfun.
  fix IH 1. intros [| |b|n|s|items|fields|name].
  - exact Hnull.
  - exact Hundef.
  - apply Hbool.
  - apply Hnum.
  - apply Hstr.
  - apply Harr. induction items as [|item items IHitems]; constructor; [apply IH|exact IHitems].
  - apply Hobj. induction fields as [|[k v] fields IHfields]; constructor;
      [apply IH|exact IHfields].
  - apply Hfun.
Qed.

Lemma Ok_inj {A : Type} (a b : A) : Ok a = Ok b -> a = b.
Proof. now intros [= ->]. Qed.

Lemma careful_refl d : careful d d.
Proof. split; [intros t x H; exact H|auto]. Qed.

Lemma careful_trans a b c : careful a b -> careful b c -> careful a c.
Proof.
  intros [K1 E1] [K2 E2]. split; [|auto]. intros t x H. apply K2, K1, H.
Qed.

Lemma listed_push entityType item d t :
  listed (push entityType item d) t =
    if String.eqb t entityType then (listed d entityType ++ [item])%list else listed d t.
Proof.
  unfold listed, push. cbn [discoveredEntities]. rewrite record_set_get.
  destruct (String.eqb t entityType); reflexivity.
Qed.

Lemma pushed_listed entityType item d : In item (listed (push entityType item d) entityType).
Proof. rewrite listed_push, String.eqb_refl. apply in_or_app. right. now left. Qed.

Lemma careful_push entityType item d :
  isEntity item = true -> careful d (push entityType item d).
Proof.
  intros Hitem. split.
  - intros t x H. rewrite listed_push. destruct (String.eqb_spec t entityType) as [->|_];
      [apply in_or_app; now left|exact H].
  - unfold entities_only, push. cbn [discoveredEntities]. intros Hd.
    apply record_set_Forall; [exact Hd|]. intros k'. cbn [snd]. split.
    + intros H. apply app_eq_nil in H as [_ H]. discriminate.
    + apply Forall_app. split; [|constructor; [exact Hitem|constructor]].
      destruct (record_get (discoveredEntities d) entityType) as [l|] eqn:Hl; [|constructor].
      destruct (record_get_Forall _ _ _ _ Hd Hl) as [k0 [_ H]]. exact H.
Qed.

Lemma careful_relate a b d : careful d (relate a b d).
Proof. split; [intros t x H; exact H|auto]. Qed.

Lemma careful_infer item path d : careful d (snd (infer random36 item path d)).
Proof. split; [intros t x H; exact H|auto]. Qed.

Lemma find_isEntity items first : List.find isEntity items = Some first -> isEntity first = true.
Proof. intros H. now apply find_some in H as [_ H]. Qed.

Lemma forEach_careful {A : Type} (body : A -> Found -> Found) (l : list A) :
  Forall (fun x => forall d, careful d (body x d)) l ->
  forall d, careful d (forEach body l d).
Proof.
  induction 1 as [|x l Hx _ IH]; intros d; [apply careful_refl|].
  exact (careful_trans _ _ _ (Hx d) (IH (body x d))).
Qed.

Lemma related_careful T item d :
  isEntity item = true -> sound random36 item ->
  careful d (related (processEntityProperties random36) T item d).
Proof.
  intros Hi Hs. unfold related.
  exact (careful_trans _ _ _ (careful_push T item d Hi) (Hs T _)).
Qed.

Lemma property_careful entityType key value d :
  sound random36 value -> items_satisfy (sound random36) value ->
  careful d (property random36 (processEntityProperties random36) entityType key value d).
Proof.
  intros Hvalue Hitems.
  assert (careful d
            (if (truthy value && typeof_object value && isEntity value)%bool
             then let '(relatedEntityType, d0) := infer random36 value [key] d in
                  related (processEntityProperties random36) relatedEntityType value
                          (relate entityType relatedEntityType d0)
             else d)) as Hsingle.
  { destruct (truthy value && typeof_object value && isEntity value)%bool eqn:Hc;
      [|apply careful_refl].
    apply andb_true_iff in Hc as [_ Hc]. unfold infer.
    eapply careful_trans; [|apply related_careful; assumption].
    eapply careful_trans; [|apply careful_relate].
    apply (careful_infer value [key] d). }
  unfold property.
  destruct value as [| | | | |items| |]; try exact Hsingle.
  destruct items as [|item0 items0]; [exact Hsingle|]. clear Hsingle.
  destruct (List.find isEntity (item0 :: items0)) as [firstItem|]; [|apply careful_refl].
  unfold infer.
  eapply careful_trans; [|apply forEach_careful].
  - eapply careful_trans; [|apply careful_relate]. apply (careful_infer firstItem [key] d).
  - cbn [items_satisfy] in Hitems. eapply Forall_impl; [exact Hitems|].
    intros item Hitem d0. cbn beta. destruct (isEntity item) eqn:Hi; [|apply careful_refl].
    now apply related_careful.
Qed.

Lemma processEntityProperties_strong v :
  sound random36 v /\ items_satisfy (sound random36) v.
Proof.
  induction v as [| | | | |items IH|fields IH|] using JsValue_nested_ind;
    try (split; [intros T d; apply careful_refl|exact I]).
  - split; [intros T d; apply careful_refl|].
    cbn [items_satisfy]. eapply Forall_impl; [exact IH|]. now intros item [H _].
  - split; [|exact I]. intros T d.
    change (processEntityProperties random36 (JObj fields) T d)
      with (forEach (fun field d =>
                       property random36 (processEntityProperties random36) T
                                (fst field) (snd field) d) fields d).
    apply forEach_careful. eapply Forall_impl; [exact IH|].
    intros field [H1 H2] d0. cbn beta. now apply property_careful.
Qed.

Lemma processEntityProperties_careful v entityType d :
  careful d (processEntityProperties random36 v entityType d).
Proof. apply processEntityProperties_strong. Qed.

Lemma arrayItems_careful items path parentEntityType : forall arrayEntityType d,
  careful d (arrayItems random36 items path parentEntityType arrayEntityType d).
Proof.
  induction items as [|item items IH]; intros arrayEntityType d; [apply careful_refl|].
  cbn [arrayItems]. destruct (isEntity item) eqn:Hi; [|apply IH].
  destruct (if missing arrayEntityType then infer random36 item path d
            else (default EmptyString arrayEntityType, d)) as [entityType d0] eqn:Ht.
  assert (careful d d0) as H0.
  { destruct (missing arrayEntityType); injection Ht as <- <-;
      [apply (careful_infer item path d)|apply careful_refl]. }
  eapply careful_trans; [|apply IH].
  eapply careful_trans; [|apply processEntityProperties_careful].
  eapply careful_trans; [exact H0|].
  eapply careful_trans; [apply (careful_push entityType item d0 Hi)|].
  destruct (_ && _)%bool; [|apply careful_refl].
  destruct (_ && _)%bool; [apply careful_relate|apply careful_refl].
Qed.

Lemma forEachOk_throw {A S : Type} (body : A -> S -> Result S) (l : list A) e :
  fold_left (fun r x => match r with Ok s => body x s | Throw e => Throw e end) l (Throw e)
  = Throw e.
Proof. induction l as [|x l IH]; [reflexivity|exact IH]. Qed.

Lemma forEachOk_cons {A S : Type} (body : A -> S -> Result S) x (l : list A) s :
  forEachOk body (x :: l) s =
    match body x s with
    | Ok s' => forEachOk body l s'
    | Throw e => Throw e
    end.
Proof.
  unfold forEachOk. cbn [fold_left]. destruct (body x s); [reflexivity|apply forEachOk_throw].
Qed.

Lemma forEachOk_careful {A : Type} (body : A -> Found -> Result Found) (l : list A) :
  Forall (fun x => forall d d', body x d = Ok d' -> careful d d') l ->
  forall d d', forEachOk body l d = Ok d' -> careful d d'.
Proof.
  induction 1 as [|x l Hx _ IH]; intros d d' Hrun.
  - injection Hrun as <-. apply careful_refl.
  - rewrite forEachOk_cons in Hrun. destruct (body x d) as [d1|e] eqn:H1; [|discriminate].
    exact (careful_trans _ _ _ (Hx d d1 H1) (IH d1 d' Hrun)).
Qed.

Lemma discoverEntities_object fields path parentEntityType d :
  discoverEntities random36 (JObj fields) path parentEntityType d =
    if (truthy (get (JObj fields) "edges") && Array_isArray (get (JObj fields) "edges"))%bool
    then
      match nodesOf (items_of (get (JObj fields) "edges")) with
      | Ok nodes =>
          if Nat.ltb 0 (length nodes)
          then Ok (arrayItems random36 nodes path parentEntityType None d)
          else Ok d
      | Throw e => Throw e
      end
    else if (truthy (get (JObj fields) "rows") && Array_isArray (get (JObj fields) "rows"))%bool
    then Ok (arrayItems random36 (items_of (get (JObj fields) "rows")) path
                        parentEntityType None d)
    else if isEntity (JObj fields) then
      let '(entityType, d) := infer random36 (JObj fields) path d in
      Ok (processEntityProperties random36 (JObj fields) entityType
                                  (push entityType (JObj fields) d))
    else
      forEachOk (fun field d =>
                   discoverEntities random36 (snd field) (path ++ [fst field])%list
                                    parentEntityType d)
                fields d.
Proof. reflexivity. Qed.

Lemma discoverEntities_careful obj : forall path parentEntityType d d',
  discoverEntities random36 obj path parentEntityType d = Ok d' -> careful d d'.
Proof.
  induction obj as [| | | | |items _|fields IH|] using JsValue_nested_ind;
    intros path parentEntityType d d' Hrun;
    try (injection Hrun as <-; apply careful_refl).
  - injection Hrun as <-. apply arrayItems_careful.
  - rewrite discoverEntities_object in Hrun.
    destruct (_ && _)%bool.
    { destruct (nodesOf _) as [nodes|e]; [|discriminate].
      destruct (Nat.ltb 0 (length nodes)); injection Hrun as <-;
        [apply arrayItems_careful|apply careful_refl]. }
    destruct (_ && _)%bool; [injection Hrun as <-; apply arrayItems_careful|].
    destruct (isEntity (JObj fields)) eqn:Hi.
    { unfold infer in Hrun. apply Ok_inj in Hrun. rewrite <- Hrun.
      eapply careful_trans; [|apply processEntityProperties_careful].
      eapply careful_trans; [|apply careful_push; exact Hi].
      apply (careful_infer (JObj fields) path d). }
    revert Hrun. apply forEachOk_careful. eapply Forall_impl; [exact IH|].
    intros field Hfield d0 d1. apply Hfield.
Qed.

Lemma discovery_lists_entities_only_aux obj path parentEntityType d d' :
  entities_only d ->
  discoverEntities random36 obj path parentEntityType d = Ok d' -> entities_only d'.
Proof.
  intros Hd Hrun. exact (proj2 (discoverEntities_careful obj path parentEntityType d d' Hrun) Hd).
Qed.

(** X16: discovery lists nothing but entities: whatever the payload, when
    [discoverEntities] returns, every value listed under a type passes
    [isEntity], no type is listed without an entity, and what was listed
    before the call is still listed. *)
Theorem discovery_lists_entities_only obj path parentEntityType d d' :
  entities_only d ->
  discoverEntities random36 obj path parentEntityType d = Ok d' ->
  entities_only d' /\ keeps d d'.
Proof.
  intros Hd Hrun.
  destruct (discoverEntities_careful obj path parentEntityType d d' Hrun) as [Hk He].
  split; [exact (He Hd)|exact Hk].
Qed.

Lemma arrayItems_typed items path parentEntityType T : forall d,
  is_empty T = false ->
  forall item, In item items -> isEntity item = true ->
    In item (listed (arrayItems random36 items path parentEntityType (Some T) d) T).
Proof.
  induction items as [|item0 items IH]; intros d HT item Hin Hi; [destruct Hin|].
  cbn [arrayItems missing]. rewrite HT. cbn [default].
  destruct Hin as [->|Hin].
  - rewrite Hi.
    apply (proj1 (arrayItems_careful items path parentEntityType (Some T) _)).
    apply (proj1 (processEntityProperties_careful item T _)).
    assert (In item (listed (push T item d) T)) as Hp by apply pushed_listed.
    destruct (_ && _)%bool; [|exact Hp]. destruct (_ && _)%bool; exact Hp.
  - destruct (isEntity item0); now apply IH.
Qed.

Lemma starts_lower_nonempty s : starts_lower s = true -> is_empty s = false.
Proof. now destruct s. Qed.

(** X17: the entities of one array are all listed under the type inferred
    for the first of them: the type of an item is not looked at once the
    array has a type, so an array that mixes targets and diseases fills a
    single table. *)
Theorem array_items_take_first_type items path parentEntityType d first :
  List.find isEntity items = Some first ->
  exists d',
    discoverEntities random36 (JArr items) path parentEntityType d = Ok d' /\
    forall item, In item items -> isEntity item = true ->
      In item (listed d' (inferEntityType (random36 (calls d)) first path)).
Proof.
  intros Hfirst. eexists. split; [reflexivity|].
  induction items as [|item0 items IH]; [discriminate|].
  cbn [List.find] in Hfirst. cbn [arrayItems].
  destruct (isEntity item0) eqn:H0.
  - injection Hfirst as ->. cbn [missing]. unfold infer.
    set (T := inferEntityType (random36 (calls d)) first path).
    assert (is_empty T = false) as HT
        by apply starts_lower_nonempty, inference_type_starts_lower.
    intros item [<-|Hin] Hi.
    + apply (proj1 (arrayItems_careful items path parentEntityType (Some T) _)).
      apply (proj1 (processEntityProperties_careful first T _)).
      match goal with |- In _ (listed (if ?c then _ else _) _) => destruct c end;
        [|apply pushed_listed].
      match goal with |- In _ (listed (if ?c then _ else _) _) => destruct c end;
        apply pushed_listed.
    + now apply arrayItems_typed.
  - intros item [<-|Hin] Hi; [congruence|]. now apply IH.
Qed.

Lemma arrayItems_none items path parentEntityType arrayEntityType d :
  Forall (fun item => isEntity item = false) items ->
  arrayItems random36 items path parentEntityType arrayEntityType d = d.
Proof.
  induction 1 as [|item items Hi _ IH]; [reflexivity|]. cbn [arrayItems]. now rewrite Hi.
Qed.

(** X18: a payload that is a scalar, or an array none of whose items is
    an entity, gets exactly one table: [scalar_data] or [array_data], with
    the schema of the fallback.  Nothing below the items of such an array
    is looked at: entities inside a nested array or inside an object that
    is not an entity itself are not discovered. *)
Theorem data_without_entities data n :
  scalar data = true \/
  (exists items, data = JArr items /\ Forall (fun item => isEntity item = false) items) ->
  inferFromJSON random36 JSON_stringify data n =
    (Ok [(if Array_isArray data then "array_data" else "scalar_data",
          fst (createSchemaFromPrimitiveOrSimpleArray JSON_stringify random36 data n))],
     snd (createSchemaFromPrimitiveOrSimpleArray JSON_stringify random36 data n)).
Proof.
  intros [Hs|(items & -> & Hitems)].
  - unfold inferFromJSON.
    destruct data; try discriminate Hs;
      cbn [discoverEntities discoveredEntities length Nat.ltb Nat.leb typeof_object negb
           is_null Array_isArray orb calls];
      match goal with
      | |- context [createSchemaFromPrimitiveOrSimpleArray ?f ?r ?v ?m] =>
          destruct (createSchemaFromPrimitiveOrSimpleArray f r v m)
      end; reflexivity.
  - unfold inferFromJSON. cbn [discoverEntities].
    rewrite (arrayItems_none items [] None None _ Hitems).
    cbn [discoveredEntities length Nat.ltb Nat.leb typeof_object negb is_null Array_isArray
         orb calls].
    destruct (createSchemaFromPrimitiveOrSimpleArray JSON_stringify random36 (JArr items) n)
      as [schema n'] eqn:Hschema.
    reflexivity.
Qed.

Lemma nodesOf_throws edges :
  In JNull edges \/ In JUndefined edges -> exists e, nodesOf edges = Throw e.
Proof.
  induction edges as [|edge edges IH]; intros H; [destruct H as [[]|[]]|].
  assert (edge = JNull \/ edge = JUndefined \/
          (In JNull edges \/ In JUndefined edges)) as [->|[->|Hrest]].
  { destruct H as [[H|H]|[H|H]]; auto. }
  - eexists. reflexivity.
  - eexists. reflexivity.
  - destruct (IH Hrest) as [e He]. cbn [nodesOf]. rewrite He.
    destruct edge; eexists; reflexivity.
Qed.

(** X19: an object whose [edges] array holds [null] or [undefined] makes
    discovery throw, and [inferFromJSON] with it, before any entity is
    listed; no table is inferred for such a payload. *)
Theorem null_edge_aborts_inference fields edges path parentEntityType d n :
  get (JObj fields) "edges" = JArr edges ->
  In JNull edges \/ In JUndefined edges ->
  exists e,
    discoverEntities random36 (JObj fields) path parentEntityType d = Throw e /\
    inferFromJSON random36 JSON_stringify (JObj fields) n = (Throw e, n).
Proof.
  intros Hedges Hnull. destruct (nodesOf_throws edges Hnull) as [e He].
  assert (forall path parentEntityType d,
             discoverEntities random36 (JObj fields) path parentEntityType d = Throw e) as Hd.
  { intros path0 parent0 d0. rewrite discoverEntities_object, Hedges.
    cbn [truthy Array_isArray andb items_of]. now rewrite He. }
  exists e. split; [apply Hd|]. unfold inferFromJSON. now rewrite Hd.
Qed.

Lemma junctionsOf_keeps fromTable relatedTables T : forall acc,
  has_key (snd acc) T -> has_key (snd (junctionsOf fromTable relatedTables acc)) T.
Proof.
  induction relatedTables as [|toTable rest IH]; intros [junctionTables schemas] H; [exact H|].
  cbn [junctionsOf]. apply IH. destruct (set_has junctionTables _); [exact H|].
  cbn [snd] in *. apply has_key_set. now right.
Qed.

Lemma junctionsLoop_keeps entityRelationships T : forall acc,
  has_key (snd acc) T -> has_key (snd (junctionsLoop entityRelationships acc)) T.
Proof.
  induction entityRelationships as [|[fromTable relatedTables] rest IH]; intros acc H;
    [exact H|].
  cbn [junctionsLoop]. apply IH. now apply junctionsOf_keeps.
Qed.

Lemma entityTables_keys discovered T : forall schemas n,
  Forall (fun entry : string * list JsValue => snd entry <> []) discovered ->
  has_key schemas T \/ has_key discovered T ->
  has_key (fst (entityTables random36 JSON_stringify discovered schemas n)) T.
Proof.
  induction discovered as [|[entityType entities] rest IH]; intros schemas n Hne H.
  - destruct H as [H|H]; [exact H|]. now contradiction H.
  - apply Forall_cons in Hne as [He Hne]. cbn [snd] in He. cbn [entityTables].
    destruct entities as [|entity entities]; [contradiction|]. cbn [length Nat.eqb].
    destruct (entitySchema JSON_stringify random36 (entity :: entities) n) as [schema n1].
    apply IH; [exact Hne|].
    destruct H as [H|H].
    + left. apply has_key_set. now right.
    + unfold has_key in H. cbn [record_get] in H.
      destruct (String.eqb_spec T entityType) as [->|Hneq].
      * left. apply has_key_set. now left.
      * now right.
Qed.

Lemma has_key_nonempty {X : Type} (r : list (string * X)) k : has_key r k -> r <> [].
Proof. intros H ->. now apply H. Qed.

(** X20: when discovery does not throw, [inferFromJSON] returns a set of
    tables that is not empty, and every type under which an entity was
    listed has its table. *)
Theorem discovered_types_get_tables data n d :
  discoverEntities random36 data [] None (mkFound [] [] n) = Ok d ->
  exists schemas n',
    inferFromJSON random36 JSON_stringify data n = (Ok schemas, n') /\
    schemas <> [] /\
    forall entityType, has_key (discoveredEntities d) entityType -> has_key schemas entityType.
Proof.
  intros Hrun. unfold inferFromJSON. rewrite Hrun.
  destruct (discoveredEntities d) as [|[T0 l0] rest] eqn:Hd.
  - cbn [length Nat.ltb Nat.leb].
    destruct (negb (typeof_object data) || is_null data || Array_isArray data)%bool.
    + destruct (createSchemaFromPrimitiveOrSimpleArray _ _ _ _) as [schema n'].
      eexists _, _. split; [reflexivity|]. split; [discriminate|].
      intros T H. now contradiction H.
    + destruct (createSchemaFromObject _ _ _ _) as [schema n'].
      eexists _, _. split; [reflexivity|]. split; [discriminate|].
      intros T H. now contradiction H.
  - cbn [length Nat.ltb Nat.leb]. unfold createSchemasFromEntities. rewrite Hd.
    destruct (entityTables random36 JSON_stringify ((T0, l0) :: rest) [] (calls d))
      as [schemas n'] eqn:Htables.
    assert (forall T, has_key ((T0, l0) :: rest) T ->
                      has_key (createJunctionTableSchemas (entityRelationships d) schemas) T)
      as Hkeys.
    { intros T HT. unfold createJunctionTableSchemas. apply junctionsLoop_keeps. cbn [snd].
      replace schemas
        with (fst (entityTables random36 JSON_stringify ((T0, l0) :: rest) [] (calls d)))
        by now rewrite Htables.
      apply entityTables_keys; [|now right].
      assert (entities_only d) as He.
      { apply (discovery_lists_entities_only_aux data [] None (mkFound [] [] n) d);
          [constructor|exact Hrun]. }
      unfold entities_only in He. rewrite Hd in He.
      eapply Forall_impl; [exact He|]. now intros entry [H _]. }
    eexists _, _. split; [reflexivity|]. split; [|exact Hkeys].
    apply (has_key_nonempty _ T0), Hkeys. unfold has_key. cbn [record_get].
    now rewrite String.eqb_refl.
Qed.

End DiscoveryProperties.

Section DiscoveryExamples.
Import Js JsString SchemaInferenceEngine Junction Payload FieldExtraction Discovery Samples.

Lemma discovery_lists_entities_only_witness :
  entities_only (arrayItems one_suffix mixed_hits ["hits"] None None nothing_found).
Proof.
  exact (proj1 (discovery_lists_entities_only
                  one_suffix (JArr mixed_hits) ["hits"] None nothing_found
                  (arrayItems one_suffix mixed_hits ["hits"] None None nothing_found)
                  (Forall_nil_2 _) eq_refl)).
Defined.

Lemma array_items_take_first_type_witness :
  exists d',
    discoverEntities one_suffix (JArr mixed_hits) ["hits"] None nothing_found = Ok d' /\
    In disease_hit (listed d' "target").
Proof.
  destruct (array_items_take_first_type one_suffix mixed_hits ["hits"] None nothing_found
              _ eq_refl) as (d' & Hrun & Hlisted).
  exists d'. split; [exact Hrun|].
  apply (Hlisted disease_hit); [right; left; reflexivity|reflexivity].
Defined.

Lemma data_without_entities_witness :
  exists schema,
    fst (inferFromJSON one_suffix literal_stringify (JArr [JArr mixed_hits]) 0) =
      Ok [("array_data", schema)] /\
    columns schema = [("value", "TEXT")].
Proof.
  rewrite (data_without_entities one_suffix literal_stringify (JArr [JArr mixed_hits]) 0).
  - eexists. split; [reflexivity|]. vm_compute. reflexivity.
  - right. exists [JArr mixed_hits]. split; [reflexivity|]. repeat constructor.
Defined.

Lemma null_edge_aborts_inference_witness :
  inferFromJSON one_suffix literal_stringify
                (JObj [("edges", JArr [JObj [("node", disease_hit)]; JNull])]) 0 =
    (Throw "Cannot read properties of null (reading 'node')", 0%nat).
Proof.
  destruct (null_edge_aborts_inference one_suffix literal_stringify
              [("edges", JArr [JObj [("node", disease_hit)]; JNull])]
              [JObj [("node", disease_hit)]; JNull] [] None nothing_found 0 eq_refl)
    as (e & Hthrow & Hinfer).
  - left. right. left. reflexivity.
  - rewrite Hinfer. injection Hthrow as <-. reflexivity.
Defined.

Lemma discovered_types_get_tables_witness :
  exists schemas n',
    inferFromJSON one_suffix literal_stringify (JObj [("target", JObj target_fields)]) 0 =
      (Ok schemas, n') /\
    has_key schemas "target".
Proof.
  destruct (discovered_types_get_tables one_suffix literal_stringify
              (JObj [("target", JObj target_fields)]) 0 _ eq_refl)
    as (schemas & n' & Hrun & _ & Hkeys).
  exists schemas, n'. split; [exact Hrun|]. apply Hkeys. discriminate.
Defined.

End DiscoveryExamples.


(** ** The chunk store on text of any code unit *)

Section Utf16Properties.
Import Js JsString.
Import ChunkingEngine.
Import Unicode ChunkingEngineUtf16.

Lemma to_N_byte_of n : (n < 256)%N -> Byte.to_N (byte_of n) = n.
Proof.
  intros H. unfold byte_of. apply Byte.to_of_N.
  rewrite byte_of_ascii_via_N, N_ascii_embedding by exact H. reflexivity.
Qed.

Lemma byte_of_to_N b : byte_of (Byte.to_N b) = b.
Proof. unfold byte_of. rewrite <- ascii_of_byte_via_N. apply byte_of_ascii_of_byte. Qed.

Lemma narrow_wide s : narrow (wide s) = s.
Proof.
  unfold narrow, wide. induction s as [|a s IH]; [reflexivity|].
  cbn. now rewrite ascii_N_embedding, IH.
Qed.

Lemma is_latin1_wide s : is_latin1 (wide s) = true.
Proof.
  unfold is_latin1, wide. apply forallb_forall. intros u Hu.
  apply in_map_iff in Hu as (a & <- & _). apply N.leb_le.
  pose proof (N_ascii_bounded a). lia.
Qed.

Lemma is_latin1_fromCharCode bytes : is_latin1 (String_fromCharCode bytes) = true.
Proof.
  unfold is_latin1, String_fromCharCode. apply forallb_forall. intros u Hu.
  apply in_map_iff in Hu as (b & <- & _). apply N.leb_le. apply Byte.to_N_bounded.
Qed.

Lemma wide_narrow t : is_latin1 t = true -> wide (narrow t) = t.
Proof.
  unfold is_latin1, wide, narrow. intros H.
  rewrite String.list_ascii_of_string_of_list_ascii, <- list_fmap_compose.
  induction t as [|u t IH]; [reflexivity|]. cbn in H. apply andb_true_iff in H as [Hu H].
  cbn. rewrite IH by exact H. f_equal. apply N_ascii_embedding. apply N.leb_le in Hu. lia.
Qed.

Lemma bytes_of_binary bytes : Uint8Array_from (String_fromCharCode bytes) = bytes.
Proof.
  unfold Uint8Array_from, String_fromCharCode. induction bytes as [|b bytes IH]; [reflexivity|].
  cbn [fmap list_fmap] in *. now rewrite byte_of_to_N, IH.
Qed.

(** [atob] inverts [btoa] where [btoa] gives a result. *)
Lemma atob_btoa_text t z : btoa t = Ok z -> atob z = Ok t.
Proof.
  unfold btoa, atob. destruct (is_latin1 t) eqn:Ht; [|discriminate]. intros [= <-].
  rewrite is_latin1_wide, narrow_wide, atob_btoa. now rewrite wide_narrow.
Qed.

(** *** Splitting *)

Section SplitText.
Variable size : nat.
Hypothesis size_pos : (0 < size)%nat.
Variable content : Text.

Lemma splitLoop_concat fuel i :
  (length content - i <= fuel)%nat ->
  concat (splitLoop fuel size content i) = drop i content.
Proof using size_pos.
  revert i. induction fuel as [|fuel IH]; intros i H; cbn [splitLoop].
  - cbn. symmetry. apply drop_ge. lia.
  - destruct (Nat.ltb_spec i (length content)).
    + cbn [concat]. rewrite IH by lia. unfold slice.
      replace (i + size - i)%nat with size by lia.
      rewrite <- (list.take_drop size (drop i content)) at 2. now rewrite drop_drop.
    + cbn. symmetry. apply drop_ge. lia.
Qed.
End SplitText.

Lemma splitIntoChunks_concat content : concat (splitIntoChunks content) = content.
Proof.
  unfold splitIntoChunks. rewrite splitLoop_concat; [reflexivity|unfold CHUNK_SIZE; lia|lia].
Qed.

(** *** Store and retrieve *)

Lemma insertChunks_new contentId chunks i db :
  tables_exist db = true ->
  Forall (fun r => content_id r = contentId -> chunk_index r < i) (content_chunks db) ->
  insertChunks contentId chunks i db =
    (Ok tt, mkStore true (content_chunks db ++ chunkRows contentId chunks i) (chunk_metadata db)).
Proof.
  revert i db. induction chunks as [|chunk rest IH]; intros i db Ht Hf;
    cbn [insertChunks chunkRows].
  - unfold ret. rewrite app_nil_r. destruct db; cbn in *. now subst.
  - unfold bind, insertChunk. rewrite Ht. cbn [negb].
    assert (existsb (same_slot (mkChunkRecord contentId i chunk (len chunk))) (content_chunks db)
            = false) as ->.
    { apply not_true_is_false. intros (r & Hin & Hr)%existsb_exists.
      unfold same_slot in Hr. cbn in Hr. apply andb_true_iff in Hr as [H1 H2].
      apply String.eqb_eq in H1. apply Z.eqb_eq in H2.
      rewrite Forall_forall in Hf. apply list_elem_of_In in Hin.
      specialize (Hf r Hin (eq_sym H1)). lia. }
    rewrite IH; cbn; [now rewrite <- app_assoc|reflexivity|].
    apply Forall_app. split.
    + eapply Forall_impl; [exact Hf|]. cbn. intros r Hr Hc. specialize (Hr Hc). lia.
    + constructor; [cbn; lia|constructor].
Qed.

Lemma fresh_in_store contentId' db :
  fresh contentId' db = true ->
  Forall (fun r => content_id r <> contentId') (content_chunks db) /\
  Forall (fun m => contentId m <> contentId') (chunk_metadata db).
Proof.
  unfold fresh. intros [H1 H2]%andb_true_iff. rewrite forallb_forall in H1, H2.
  split; apply Forall_forall; intros x Hx%list_elem_of_In.
  - specialize (H1 x Hx). apply negb_true_iff, String.eqb_neq in H1. exact H1.
  - specialize (H2 x Hx). apply negb_true_iff, String.eqb_neq in H2. exact H2.
Qed.

Lemma storeChunkedContent_new pf contentId' content contentType' db :
  fresh contentId' db = true ->
  storeChunkedContent pf contentId' content contentType' db =
    (Ok (metadataOf pf contentId' content contentType'),
     storedAfter pf contentId' content contentType' db).
Proof.
  intros [Hc Hm]%fresh_in_store. unfold storeChunkedContent, storedAfter, metadataOf.
  destruct (processContent pf content) as [p c]. cbn [fst].
  unfold bind at 1. cbn [ensureChunksTable]. unfold bind at 1.
  rewrite insertChunks_new; cbn [tables_exist content_chunks chunk_metadata];
    [|reflexivity|eapply Forall_impl; [exact Hc|]; cbn; intros r Hr Hr'; congruence].
  unfold bind, storeMetadata, ret. cbn [tables_exist content_chunks chunk_metadata negb contentId].
  assert (existsb (fun m => String.eqb (contentId m) contentId') (chunk_metadata db) = false) as ->.
  { apply not_true_is_false. intros (m & Hin & He)%existsb_exists.
    apply String.eqb_eq in He. rewrite Forall_forall in Hm.
    apply list_elem_of_In in Hin. now apply (Hm m Hin). }
  reflexivity.
Qed.

Lemma chunkRows_of contentId' chunks i :
  Forall (fun r => String.eqb (content_id r) contentId' = true) (chunkRows contentId' chunks i).
Proof.
  revert i. induction chunks as [|c rest IH]; intros i; cbn; constructor; [|apply IH].
  cbn. apply String.eqb_refl.
Qed.

Lemma chunkRows_texts contentId' chunks i :
  chunk_data <$> chunkRows contentId' chunks i = chunks.
Proof. revert i. induction chunks as [|c rest IH]; intros i; cbn; [|rewrite IH]; reflexivity. Qed.

Lemma chunkRows_count contentId' chunks i :
  length (chunkRows contentId' chunks i) = length chunks.
Proof. revert i. induction chunks as [|c rest IH]; intros i; cbn; [|rewrite IH]; reflexivity. Qed.

Lemma chunkRows_in_order contentId' chunks i :
  order_by_index (chunkRows contentId' chunks i) = chunkRows contentId' chunks i.
Proof.
  revert i. induction chunks as [|c rest IH]; intros i; [reflexivity|].
  cbn [chunkRows]. unfold order_by_index in *. cbn [foldr]. rewrite IH.
  destruct rest as [|c' rest']; [reflexivity|]. cbn [chunkRows insert_by_index chunk_index].
  destruct (Z.leb_spec i (i + 1)); [reflexivity|lia].
Qed.

Lemma processContent_result pf s :
  processContent pf s = (s, false) \/
  exists z, compress pf s = Ok z /\ processContent pf s = (z, true).
Proof.
  unfold processContent. destruct (_ && _)%bool; [|now left].
  destruct (compress pf s) as [z|e]; [right; now exists z|now left].
Qed.

(** What comes back of a compressed text is the decoding of its
    encoding. *)
Lemma decompress_compress_text pf s z :
  inverse_streams pf -> compress pf s = Ok z ->
  decompress pf z = Ok (TextDecoder_decode (TextEncoder_encode s)).
Proof.
  intros (gzip & gunzip & Hc & Hd & Hinv). unfold compress, decompress. rewrite Hc, Hd.
  destruct (gzip (TextEncoder_encode s)) as [combined|e] eqn:Hg; [|discriminate].
  destruct (btoa (String_fromCharCode combined)) as [b|e] eqn:Hb; [|discriminate].
  intros [= <-]. rewrite (atob_btoa_text _ _ Hb), bytes_of_binary, (Hinv _ _ Hg). reflexivity.
Qed.

Lemma compress_succeeds pf s :
  compressible pf s -> exists z, compress pf s = Ok z.
Proof.
  intros (gzip & packed & Hc & Hg). unfold compress, btoa. rewrite Hc, Hg.
  rewrite is_latin1_fromCharCode. eexists. reflexivity.
Qed.

(** What retrieval gives after a store: the text itself when it was
    stored as it is, the decoding of its encoding when it was
    compressed. *)
Lemma retrieve_stored pf contentId' content contentType' db :
  inverse_streams pf -> fresh contentId' db = true ->
  retrieveChunkedContent pf contentId' (storedAfter pf contentId' content contentType' db)
  = Ok (Some (if snd (processContent pf content)
              then TextDecoder_decode (TextEncoder_encode content)
              else content)).
Proof.
  intros Hpf [Hc Hm]%fresh_in_store.
  unfold retrieveChunkedContent, retrieve_try, getMetadata, getChunks, storedAfter.
  cbn [tables_exist content_chunks chunk_metadata negb].
  rewrite (filter_old_new _ (chunk_metadata db) [_]); cycle 1.
  { eapply Forall_impl; [exact Hm|]. cbn. intros m Hne. now apply String.eqb_neq. }
  { constructor; [|constructor]. unfold metadataOf.
    destruct (processContent pf content). cbn. apply String.eqb_refl. }
  rewrite filter_old_new; cycle 1.
  { eapply Forall_impl; [exact Hc|]. cbn. intros m Hne. now apply String.eqb_neq. }
  { apply chunkRows_of. }
  rewrite chunkRows_in_order, chunkRows_texts.
  unfold metadataOf.
  destruct (processContent_result pf content) as [Hp|(z & Hz & Hp)]; rewrite Hp;
    cbn [fst snd totalChunks compressed]; rewrite Z.eqb_refl; cbn [negb];
    rewrite splitIntoChunks_concat; [reflexivity|].
  now rewrite (decompress_compress_text pf content z Hpf Hz).
Qed.

(** *** Encoding and decoding *)

Lemma scalarValues_ascii t : is_ascii t = true -> scalarValues t = t.
Proof.
  unfold is_ascii. induction t as [|u t IH]; [reflexivity|]. cbn [forallb].
  intros [Hu Ht]%andb_true_iff. apply N.ltb_lt in Hu. cbn [scalarValues].
  unfold is_lead_surrogate, is_trail_surrogate.
  destruct (N.leb_spec 55296 u); [lia|]. destruct (N.leb_spec 56320 u); [lia|].
  cbn [andb]. now rewrite IH.
Qed.

Lemma utf8_ascii t : is_ascii t = true -> concat (utf8 <$> t) = t.
Proof.
  unfold is_ascii. induction t as [|u t IH]; [reflexivity|]. cbn [forallb].
  intros [Hu Ht]%andb_true_iff. cbn [fmap list_fmap concat]. unfold utf8 at 1. rewrite Hu.
  cbn [app]. f_equal. apply IH, Ht.
Qed.

Lemma bytes_back (l : list N) :
  Forall (fun b => (b < 256)%N) l -> Byte.to_N <$> (byte_of <$> l) = l.
Proof.
  induction 1 as [|b l Hb _ IH]; [reflexivity|]. cbn [fmap list_fmap] in *.
  now rewrite (to_N_byte_of b Hb), IH.
Qed.

Lemma utf8_decode_ascii t :
  is_ascii t = true -> utf8_decode t utf8_start = t.
Proof.
  unfold is_ascii. induction t as [|u t IH]; [reflexivity|]. cbn [forallb].
  intros [Hu Ht]%andb_true_iff. apply N.ltb_lt in Hu.
  cbn [utf8_decode utf8_start bytes_needed]. cbn [N.eqb]. unfold utf8_lead.
  destruct (N.leb_spec u 127); [|lia]. cbn [app]. f_equal. apply IH, Ht.
Qed.

Lemma utf16_ascii t : is_ascii t = true -> concat (utf16 <$> t) = t.
Proof.
  unfold is_ascii. induction t as [|u t IH]; [reflexivity|]. cbn [forallb].
  intros [Hu Ht]%andb_true_iff. apply N.ltb_lt in Hu. cbn [fmap list_fmap concat].
  unfold utf16 at 1. destruct (N.ltb_spec u 65536); [|lia]. cbn [app]. f_equal. apply IH, Ht.
Qed.

(** On code units below 256 decoding inverts encoding: such a text has
    no surrogate and does not begin with U+FEFF. *)
Lemma utf8_decode_unit u rest :
  (u <= 255)%N ->
  utf8_decode (utf8 u ++ rest) utf8_start = u :: utf8_decode rest utf8_start.
Proof.
  intros Hu. rewrite <- (to_N_byte_of u) by lia.
  destruct (byte_of u); reflexivity.
Qed.

Lemma latin1_decode_encode t :
  is_latin1 t = true -> TextDecoder_decode (TextEncoder_encode t) = t.
Proof.
  intros Ht. unfold is_latin1 in Ht. rewrite forallb_forall in Ht.
  assert (Forall (fun u => (u <= 255)%N) t) as Hall.
  { apply Forall_forall. intros u Hu%list_elem_of_In. now apply N.leb_le, Ht. }
  clear Ht. unfold TextDecoder_decode, TextEncoder_encode.
  assert (scalarValues t = t) as ->.
  { induction Hall as [|u t Hu _ IH]; [reflexivity|]. cbn [scalarValues].
    unfold is_lead_surrogate, is_trail_surrogate.
    destruct (N.leb_spec 55296 u); [lia|]. destruct (N.leb_spec 56320 u); [lia|].
    cbn [andb]. now rewrite IH. }
  rewrite bytes_back; cycle 1.
  { induction Hall as [|u t Hu _ IH]; [constructor|]. cbn [fmap list_fmap concat].
    apply Forall_app. split; [|exact IH]. unfold utf8.
    destruct (N.ltb_spec u 128); [constructor; [lia|constructor]|].
    destruct (N.ltb_spec u 2048); [|lia].
    assert (u / 64 < 4)%N by (apply N.Div0.div_lt_upper_bound; lia).
    assert (u mod 64 < 64)%N by (apply N.mod_lt; lia).
    repeat (constructor; [lia|]). constructor. }
  assert (utf8_decode (concat (utf8 <$> t)) utf8_start = t) as ->.
  { induction Hall as [|u t Hu _ IH]; [reflexivity|]. cbn [fmap list_fmap concat].
    now rewrite utf8_decode_unit, IH. }
  assert (without_bom t = t) as ->.
  { destruct Hall as [|u t Hu _]; [reflexivity|]. cbn [without_bom].
    destruct (N.eqb_spec u 65279); [lia|reflexivity]. }
  induction Hall as [|u t Hu _ IH]; [reflexivity|]. cbn [fmap list_fmap concat].
  unfold utf16 at 1. destruct (N.ltb_spec u 65536); [|lia]. cbn [app]. now rewrite IH.
Qed.

(** The decoder leaves out the U+FEFF the encoder was given first. *)
Lemma decode_encode_with_bom body :
  is_ascii body = true ->
  TextDecoder_decode (TextEncoder_encode (with_bom body)) = body.
Proof.
  intros Hb. unfold TextDecoder_decode, TextEncoder_encode, with_bom.
  change (scalarValues (65279%N :: body)) with (65279%N :: scalarValues body).
  rewrite (scalarValues_ascii body Hb). cbn [fmap list_fmap concat].
  change (utf8 65279) with [239; 187; 191]%N. rewrite (utf8_ascii body Hb).
  rewrite bytes_back; cycle 1.
  { repeat (constructor; [lia|]). apply Forall_forall. intros u Hu.
    unfold is_ascii in Hb. rewrite forallb_forall in Hb. apply list_elem_of_In in Hu.
    specialize (Hb u Hu). apply N.ltb_lt in Hb. lia. }
  change (utf8_decode ([239; 187; 191]%N ++ body) utf8_start)
    with (65279%N :: utf8_decode body utf8_start).
  rewrite (utf8_decode_ascii body Hb). cbn [without_bom N.eqb Pos.eqb].
  apply utf16_ascii, Hb.
Qed.

(** A surrogate without its partner is encoded as U+FFFD and comes back
    as U+FFFD. *)
Example lone_surrogate_is_replaced :
  TextEncoder_encode [55296; 97]%N = byte_of <$> [239; 191; 189; 97]%N /\
  TextDecoder_decode (TextEncoder_encode [55296; 97]%N) = [65533; 97]%N.
Proof. split; vm_compute; reflexivity. Qed.

(** C2 fails on the code: on a platform with both gzip streams, a text
    above the chunk threshold that begins with U+FEFF is stored, and
    what is retrieved under the content identifier of the returned
    reference token is the text without its first code unit.  The stored
    form is the gzip of the UTF-8 encoding, and [new TextDecoder().decode]
    leaves a leading U+FEFF out.  It is shown for every text of code
    units below 128 after the U+FEFF, every store in which the
    identifier drawn is not in use, and every pair of streams of which
    the second inverts the first. *)
Theorem leading_bom_is_lost pf contentId' body contentType' db :
  inverse_streams pf ->
  compressible pf (with_bom body) ->
  is_ascii body = true ->
  CHUNK_SIZE_THRESHOLD < len (with_bom body) ->
  fresh contentId' db = true ->
  exists metadata db',
    storeChunkedContent pf contentId' (with_bom body) contentType' db = (Ok metadata, db') /\
    compressed metadata = true /\
    retrieveChunkedContent pf (extractContentId (createContentReference metadata)) db'
    = Ok (Some body) /\
    body <> with_bom body.
Proof.
  intros Hpf Hgz Hb Hlen Hf.
  destruct (compress_succeeds pf (with_bom body) Hgz) as [z Hz].
  assert (processContent pf (with_bom body) = (z, true)) as Hp.
  { unfold processContent, shouldCompress. unfold CHUNK_SIZE_THRESHOLD in Hlen.
    destruct (Z.ltb_spec 8192 (len (with_bom body))); [|lia].
    cbn [ENABLE_COMPRESSION andb]. now rewrite Hz. }
  eexists _, _. split; [now apply storeChunkedContent_new|].
  assert (contentId (metadataOf pf contentId' (with_bom body) contentType') = contentId') as Hid
    by (unfold metadataOf; now rewrite Hp).
  split; [unfold metadataOf; now rewrite Hp|].
  split.
  - rewrite extractContentId_reference, Hid, retrieve_stored by assumption.
    rewrite Hp. cbn [snd]. now rewrite decode_encode_with_bom.
  - unfold with_bom. intros H. apply (f_equal (@length N)) in H. cbn in H. lia.
Qed.

End Utf16Properties.

Section Utf16Examples.
Import Js JsString.
Import ChunkingEngine.
Import Unicode ChunkingEngineUtf16 Samples.

Lemma leading_bom_is_lost_witness :
  is_ascii letters_40000 = true /\
  CHUNK_SIZE_THRESHOLD < len (with_bom letters_40000) /\
  exists metadata db',
    storeChunkedContent copying_streams "chunk_7f3a" (with_bom letters_40000) json no_tables
    = (Ok metadata, db') /\
    compressed metadata = true /\
    retrieveChunkedContent copying_streams (extractContentId (createContentReference metadata)) db'
    = Ok (Some letters_40000) /\
    letters_40000 <> with_bom letters_40000.
Proof.
  assert (is_ascii letters_40000 = true) as Hascii by (vm_compute; reflexivity).
  assert (CHUNK_SIZE_THRESHOLD < len (with_bom letters_40000)) as Hlen by (vm_compute; reflexivity).
  split; [exact Hascii|]. split; [exact Hlen|].
  apply (leading_bom_is_lost copying_streams "chunk_7f3a" letters_40000 json no_tables).
  - exists Ok, Ok. split; [reflexivity|]. split; [reflexivity|].
    intros bytes packed H. injection H as ->. reflexivity.
  - exists Ok. eexists. split; reflexivity.
  - exact Hascii.
  - exact Hlen.
  - reflexivity.
Defined.

End Utf16Examples.
